(** * HackX document assistant: ingestion and retrieval pipelines

    A shallow embedding of the Python backend
    ([utils/file_loader.py], [utils/text_splitter.py],
    [services/embedding_service.py], [services/pinecone_service.py],
    [services/document_processor.py], [services/rag_service.py])
    and the properties of its text-extraction cascade, validation gates,
    batch embedding, listing and deletion operations.

    Conventions of the embedding:
    - a Python [str] is a list of Unicode code points ([list N]), [bytes]
      is a [list byte];
    - Python exceptions are values of [exn]; code that can raise runs in
      the monad [M], which threads the local upload directory and a trace
      of the calls made to external collaborators (codecs aside, every
      third-party library and remote service is a field of [backend]);
    - the identifier of an upload is the UUID drawn by
      [_generate_document_id], used through its text, which names a
      direct child of the upload directory; an identifier received from
      a caller is any string, joined to the upload directory as pathlib
      joins POSIX paths;
    - logging calls and the human-readable message carried by an exception
      are left out; the exception class and, for [DocumentProcessingError],
      the machine-readable [error_code] are kept. *)

From Stdlib Require Import ZArith NArith Ascii String List Lia Strings.Byte.
From Stdlib Require Import Decimal DecimalString.
From stdpp Require Import base option list strings gmap.

Open Scope N_scope.

(** ** Python strings *)

Abbreviation str := (list N) (only parsing).

(** A source-code string literal (ASCII) as a [str]. *)
Definition lit (s : string) : str :=
  List.map N_of_ascii (list_ascii_of_string s).

(** [str(n)] / [f"{n}"] for a non-negative integer. *)
Definition str_of_nat (n : nat) : str :=
  lit (NilZero.string_of_uint (Nat.to_uint n)).

(** [str(z)] for an integer. *)
Definition str_of_Z (z : Z) : str :=
  lit (NilZero.string_of_int (Z.to_int z)).

(** [c.isspace()] for a single code point: the characters CPython's
    [_PyUnicode_IsWhitespace] accepts, which are the ones [str.strip()]
    removes. *)
Definition isspace (c : N) : bool :=
  ((0x09 <=? c) && (c <=? 0x0D)) || ((0x1C <=? c) && (c <=? 0x20))
  || (c =? 0x85) || (c =? 0xA0) || (c =? 0x1680)
  || ((0x2000 <=? c) && (c <=? 0x200A))
  || (c =? 0x2028) || (c =? 0x2029) || (c =? 0x202F) || (c =? 0x205F)
  || (c =? 0x3000).

Fixpoint lstrip (s : str) : str :=
  match s with
  | [] => []
  | c :: r => if isspace c then lstrip r else s
  end.

Definition rstrip (s : str) : str := rev (lstrip (rev s)).

(** [s.strip()] *)
Definition strip (s : str) : str := rstrip (lstrip s).

(** Truth value of a [str] / of a list: non-empty. *)
Definition truthy {A} (l : list A) : bool :=
  match l with [] => false | _ => true end.

(** The recurring test [t and t.strip()]. *)
Definition has_text (t : str) : bool := truthy t && truthy (strip t).

(** [sep.join(parts)] *)
Fixpoint join (sep : str) (parts : list str) : str :=
  match parts with
  | [] => []
  | [p] => p
  | p :: rest => p ++ sep ++ join sep rest
  end.

Definition NL : N := 0x0A.
Definition CR : N := 0x0D.
Definition TAB : N := 0x09.
Definition DOT : N := 0x2E.
Definition COMMA : N := 0x2C.
Definition SLASH : N := 0x2F.
Definition HYPHEN : N := 0x2D.

(** [s.split(sep)] for a one-character separator. *)
Fixpoint py_split (sep : N) (s : str) : list str :=
  match s with
  | [] => [[]]
  | c :: r =>
    if c =? sep then [] :: py_split sep r
    else
      match py_split sep r with
      | cur :: rest => (c :: cur) :: rest
      | [] => [[c]]
      end
  end.

(** [sep in s] for a one-character [sep]. *)
Definition contains_char (sep : N) (s : str) : bool :=
  existsb (fun c => c =? sep) s.

(** ** Document identifiers *)

(** A [uuid.UUID]: its 128-bit integer. *)
Record UUID := { uuid_int : N }.

(** One digit of ['%032x' % n]. *)
Definition hex_digit (d : N) : N := if d <? 10 then 0x30 + d else 0x57 + d.

(** The [count] hexadecimal digits of [n] that end at digit [low]
    (digit 0 being the least significant), most significant first. *)
Definition hex_field (n : N) (low : nat) (count : nat) : str :=
  List.map (fun i => hex_digit ((n / 16 ^ N.of_nat (low + i)) mod 16))
    (rev (seq 0 count)).

(** [str(u)]: thirty-two hexadecimal digits in groups of 8, 4, 4, 4
    and 12. *)
Definition UUID_str (u : UUID) : str :=
  let n := uuid_int u in
  hex_field n 24 8 ++ [HYPHEN] ++ hex_field n 20 4 ++ [HYPHEN]
  ++ hex_field n 16 4 ++ [HYPHEN] ++ hex_field n 12 4 ++ [HYPHEN]
  ++ hex_field n 0 12.

Coercion UUID_str : UUID >-> list.
Arguments UUID_str : simpl never.

(** ** Paths below the upload directory (POSIX) *)

(** The components pathlib keeps of a relative path: empty components
    and ["."] are dropped, [".."] stays. *)
Definition path_parts (s : str) : list str :=
  List.filter (fun part => truthy part && negb (bool_decide (part = [DOT])))
    (py_split SLASH s).

(** [upload_dir / document_id]: [Some name] when the joined path is the
    direct child [name] of the upload directory, [None] otherwise (the
    upload directory itself for [""] and ["."], its parent for [".."],
    a deeper path, or, for an absolute [document_id], that path). *)
Definition upload_child (document_id : str) : option str :=
  if bool_decide (head document_id = Some SLASH) then None
  else
    match path_parts document_id with
    | [name] => if bool_decide (name = [DOT; DOT]) then None else Some name
    | _ => None
    end.

(** ** Text codecs used by [Path.read_text] *)

Inductive encoding := utf_8 | utf_8_sig | latin_1 | cp1252.

Definition is_cont (b : N) : bool := (0x80 <=? b) && (b <=? 0xBF).

(** Strict UTF-8 (no overlong forms, no surrogates, nothing above
    U+10FFFF); [None] is [UnicodeDecodeError]. *)
Fixpoint decode_utf8 (bs : list N) : option str :=
  match bs with
  | [] => Some []
  | b0 :: r =>
    if b0 <? 0x80 then cons b0 <$> decode_utf8 r
    else if (0xC2 <=? b0) && (b0 <=? 0xDF) then
      match r with
      | b1 :: r1 =>
        if is_cont b1
        then cons ((b0 - 0xC0) * 64 + (b1 - 0x80)) <$> decode_utf8 r1
        else None
      | _ => None
      end
    else if (0xE0 <=? b0) && (b0 <=? 0xEF) then
      match r with
      | b1 :: b2 :: r2 =>
        if ((if b0 =? 0xE0 then 0xA0 else 0x80) <=? b1)
           && (b1 <=? (if b0 =? 0xED then 0x9F else 0xBF))
           && is_cont b2
        then cons ((b0 - 0xE0) * 4096 + (b1 - 0x80) * 64 + (b2 - 0x80))
               <$> decode_utf8 r2
        else None
      | _ => None
      end
    else if (0xF0 <=? b0) && (b0 <=? 0xF4) then
      match r with
      | b1 :: b2 :: b3 :: r3 =>
        if ((if b0 =? 0xF0 then 0x90 else 0x80) <=? b1)
           && (b1 <=? (if b0 =? 0xF4 then 0x8F else 0xBF))
           && is_cont b2 && is_cont b3
        then cons ((b0 - 0xF0) * 262144 + (b1 - 0x80) * 4096
                   + (b2 - 0x80) * 64 + (b3 - 0x80))
               <$> decode_utf8 r3
        else None
      | _ => None
      end
    else None
  end.

(** [utf-8-sig]: an optional leading byte-order mark is dropped. *)
Definition decode_utf8_sig (bs : list N) : option str :=
  match bs with
  | 0xEF :: 0xBB :: 0xBF :: r => decode_utf8 r
  | _ => decode_utf8 bs
  end.

(** Windows-1252: Latin-1 except for 0x80..0x9F, where five bytes are
    undefined. *)
Definition cp1252_char (b : N) : option N :=
  if (b <? 0x80) || (0xA0 <=? b) then Some b
  else
    match nth_error
      [ Some 0x20AC; None;        Some 0x201A; Some 0x0192
      ; Some 0x201E; Some 0x2026; Some 0x2020; Some 0x2021
      ; Some 0x02C6; Some 0x2030; Some 0x0160; Some 0x2039
      ; Some 0x0152; None;        Some 0x017D; None
      ; None;        Some 0x2018; Some 0x2019; Some 0x201C
      ; Some 0x201D; Some 0x2022; Some 0x2013; Some 0x2014
      ; Some 0x02DC; Some 0x2122; Some 0x0161; Some 0x203A
      ; Some 0x0153; None;        Some 0x017E; Some 0x0178 ]
      (N.to_nat (b - 0x80))
    with
    | Some c => c
    | None => None
    end.

Fixpoint decode_cp1252 (bs : list N) : option str :=
  match bs with
  | [] => Some []
  | b :: r =>
    match cp1252_char b with
    | Some c => cons c <$> decode_cp1252 r
    | None => None
    end
  end.

Definition decode (enc : encoding) (bs : list byte) : option str :=
  let ns := List.map Byte.to_N bs in
  match enc with
  | utf_8 => decode_utf8 ns
  | utf_8_sig => decode_utf8_sig ns
  | latin_1 => Some ns
  | cp1252 => decode_cp1252 ns
  end.

(** Text-mode reading translates ["\r\n"] and ["\r"] to ["\n"]
    (universal newlines). *)
Fixpoint universal_newlines (s : str) : str :=
  match s with
  | [] => []
  | c :: r =>
    if c =? CR then
      match r with
      | c' :: r' => if c' =? NL then NL :: universal_newlines r'
                    else NL :: universal_newlines r
      | [] => [NL]
      end
    else c :: universal_newlines r
  end.

Close Scope N_scope.

(** ** Exceptions *)

(** The exception classes the backend raises or catches.
    [OtherException] stands for any exception outside the listed classes
    (an [OSError], a failure inside a third-party library, ...). *)
Inductive exn :=
| FileLoadError
| UnsupportedFileTypeError
| CorruptedFileError
| PasswordProtectedError
| EmptyDocumentError
| ValueError
| RuntimeError
| OtherException
| DocumentProcessingError (error_code : string).

(** [isinstance(e, FileLoadError)]: the base class and its subclasses. *)
Definition is_FileLoadError (e : exn) : bool :=
  match e with
  | FileLoadError | UnsupportedFileTypeError | CorruptedFileError
  | PasswordProtectedError | EmptyDocumentError => true
  | _ => false
  end.

(** Outcome of a call into a library or a remote service. *)
Inductive call (A : Type) :=
| Raises
| Returns (a : A).
Arguments Raises {A}.
Arguments Returns {A} a.

(** Outcome of a PyPDF2 call; [Raised true] is a [PdfReadError],
    [Raised false] any other exception. *)
Inductive pdf_call (A : Type) :=
| Raised (is_PdfReadError : bool)
| Returned (a : A).
Arguments Raised {A} is_PdfReadError.
Arguments Returned {A} a.

(** ** Files *)

(** What the operating system reports for a path. *)
Inductive file_state :=
| Unstatable                   (* [os.stat] raises an [OSError] that
                                  [path.exists()] lets through: a name
                                  too long for the file system, a parent
                                  that may not be searched *)
| Missing                      (* [path.exists()] is false *)
| Directory                    (* exists, [path.is_file()] is false *)
| Unreadable                   (* a file whose reads raise [OSError] *)
| Regular (content : list byte).

Record Path := { path_name : str; path_stat : file_state }.

(** [path.read_bytes()] *)
Definition read_bytes (p : Path) : call (list byte) :=
  match path_stat p with
  | Regular bs => Returns bs
  | _ => Raises
  end.

(** Outcome of [file_path.write_bytes(content)]: the file is written,
    it cannot be opened for writing and nothing changes, or the write
    fails after the file has been created or truncated and [kept] bytes
    of the content have reached it. *)
Inductive write_outcome :=
| Written
| WriteRefused
| WriteInterrupted (kept : nat).

Inductive read_outcome :=
| ReadText (text : str)
| UnicodeDecodeError
| ReadOSError.

(** [path.read_text(encoding=enc)] *)
Definition read_text (p : Path) (enc : encoding) : read_outcome :=
  match path_stat p with
  | Regular bs =>
    match decode enc bs with
    | Some t => ReadText (universal_newlines t)
    | None => UnicodeDecodeError
    end
  | _ => ReadOSError
  end.

(** ** Values stored in vector metadata *)

(** Metadata dictionaries hold strings and integers. *)
Inductive pyval :=
| PStr (s : str)
| PInt (z : Z).

#[global] Instance pyval_eq_dec : EqDecision pyval.
Proof. solve_decision. Defined.

(** Truth value of an optional metadata value ([None] when absent). *)
Definition pyval_truthy (v : option pyval) : bool :=
  match v with
  | None => false
  | Some (PStr s) => truthy s
  | Some (PInt z) => negb (z =? 0)%Z
  end.

(** [str(v)] as used by f-string interpolation. *)
Definition pyval_str (v : pyval) : str :=
  match v with
  | PStr s => s
  | PInt z => str_of_Z z
  end.

Inductive pdf_stage := stage_pypdf2 | stage_pdfplumber | stage_ocr.

(** ** Third-party document libraries, as seen through their results *)

(** A [PyPDF2.PdfReader] object. [pages d] is the outcome of reading
    [reader.pages], where [d] tells whether [decrypt] has succeeded on
    this reader object; each page carries the outcome of
    [page.extract_text()]. *)
Record pdf_reader := {
  is_encrypted : bool;
  decrypt : pdf_call Z;
  pages : bool -> pdf_call (list (call str));
}.

(** A pdfplumber page: [page.extract_text()] and
    [page.extract_tables()] (tables, rows, optional cells). *)
Record plumber_page := {
  extract_text : call (option str);
  extract_tables : call (list (list (list (option str))));
}.

(** A python-docx document: paragraph texts and, per table and row,
    the cell texts. *)
Record docx_document := {
  paragraphs : list str;
  tables : list (list (list str));
}.

Inductive docx_open :=
| DocxRaises (mentions_password : bool)
    (* the message contains "password" or "encrypt" *)
| DocxOpened (body : call docx_document).

(** ** External collaborators, world and effects *)

Section Model.

(** Python floats (embedding components, relevance scores) are opaque. *)
Context {float : Type}.

(** A record of the similarity index, as passed to [index.upsert]. *)
Record vector := {
  vec_id : str;
  vec_values : list float;
  vec_metadata : gmap string pyval;
}.

(** A match object returned by [index.query]. *)
Record raw_match := {
  raw_id : str;
  raw_score : float;
  raw_metadata : option (gmap string pyval);
}.

(** Calls that leave the process, in the order they are made. *)
Inductive event :=
| EvStage (s : pdf_stage)
| EvReadText (enc : encoding)
| EvWriteBytes (document_id file_name : str)
| EvRmtree (document_id : str)
| EvSplitText (text : str)
| EvEmbedQuery (text : str)
| EvEmbedDocuments (texts : list str)
| EvIndexUpsert (batch : list (str * list float * gmap string pyval))
| EvIndexQuery (v : list float) (top_k : N) (flt : gmap string pyval)
| EvIndexDelete (flt : gmap string pyval)
| EvGenerate (context question : str).

(** The upload directory holds one subdirectory per document: [dirs]
    maps the name of a subdirectory to its files. [trace] is the
    history of external calls, oldest first. *)
Record world := {
  dirs : gmap (list N) (gmap (list N) (list byte));
  trace : list event;
}.

(** Everything the backend reaches outside its own code. A function
    field gives the outcome of the corresponding call on its arguments. *)
Record backend := {
  (* pathlib and str: [Path(file_path).suffix.lower()] *)
  suffix_lower : str -> str;
  (* pathlib: [Path(file_name).name] *)
  base_name : str -> str;
  (* local disk, for the path [upload_dir / document_id]: does
     [os.stat] raise an [OSError] that [exists()] lets through (then
     every call on the path fails), and the outcome of
     [doc_dir.mkdir(parents=True, exist_ok=True)] *)
  stat_raises : str -> bool;
  mkdir : str -> call unit;
  (* [file_path.write_bytes(content)], by document id, file name and
     content *)
  write_bytes : str -> str -> list byte -> write_outcome;
  (* does [shutil.rmtree(..., ignore_errors=True)] get to remove the
     tree of a document directory *)
  rmtree_removes : bool;
  (* [doc_dir.exists()] and [shutil.rmtree(doc_dir, ignore_errors=True)]
     for a [document_id] whose path is not a direct child of the upload
     directory, in the current state of the disk: [None] when the path
     does not exist, otherwise the document directories that are left
     once the tree is removed *)
  rmtree_elsewhere :
    str -> world -> option (gmap (list N) (gmap (list N) (list byte)));
  (* PyPDF2: do [from PyPDF2 import PdfReader] and
     [from PyPDF2.errors import PdfReadError] succeed, and
     [PdfReader(str(path))] on the file's bytes *)
  pypdf2_installed : bool;
  pypdf2_errors_importable : bool;
  PdfReader : list byte -> pdf_call pdf_reader;
  (* pdfplumber: importable, and [pdfplumber.open(...).pages] *)
  pdfplumber_installed : bool;
  pdfplumber_open : list byte -> call (list plumber_page);
  (* pdf2image and pytesseract: importable, [convert_from_path], and
     per image the outcome of [image_to_string] *)
  ocr_installed : bool;
  convert_from_path : list byte -> call (list (call str));
  (* python-docx: importable, and [DocxDocument(str(path))] *)
  docx_installed : bool;
  DocxDocument : list byte -> docx_open;
  (* LangChain's RecursiveCharacterTextSplitter.split_text *)
  split_text : str -> call (list str);
  (* Gemini embedding model *)
  aembed_query : str -> call (list float);
  aembed_documents : list str -> call (list (list float));
  (* Pinecone index *)
  index_upsert : list (str * list float * gmap string pyval) -> call unit;
  index_query :
    list float -> N -> gmap string pyval -> call (option (list raw_match));
  index_delete : gmap string pyval -> call unit;
  (* prompt | llm | output parser *)
  chain_ainvoke : str -> str -> call str;
  (* float operations: [0.0], [f"{x:.4f}"], [round(x, 4)] *)
  float_zero : float;
  format_4f : float -> str;
  round_4 : float -> float;
  (* settings.TOP_K *)
  TOP_K : N;
}.

Definition M (A : Type) : Type := world -> (exn + A) * world.

Definition ret {A} (a : A) : M A := fun w => (inr a, w).

Definition raise {A} (e : exn) : M A := fun w => (inl e, w).

Definition bind {A B} (m : M A) (k : A -> M B) : M B :=
  fun w =>
    match m w with
    | (inl e, w') => (inl e, w')
    | (inr a, w') => k a w'
    end.

(** [try: m  except Exception as e: h e]; the effects of [m] up to the
    raise are kept. *)
Definition catch {A} (m : M A) (h : exn -> M A) : M A :=
  fun w =>
    match m w with
    | (inl e, w') => h e w'
    | r => r
    end.

Definition emit (ev : event) : M unit :=
  fun w => (inr tt, {| dirs := dirs w; trace := trace w ++ [ev] |}).

Definition get_dirs : M (gmap (list N) (gmap (list N) (list byte))) :=
  fun w => (inr (dirs w), w).

Definition set_dirs (d : gmap (list N) (gmap (list N) (list byte))) : M unit :=
  fun w => (inr tt, {| dirs := d; trace := trace w |}).

Definition get_world : M world := fun w => (inr w, w).

Notation "x <-- m ;; k" := (bind m (fun x => k))
  (at level 100, m at next level, right associativity).
Notation "m ;;; k" := (bind m (fun _ => k))
  (at level 100, right associativity).

(** An external call: logged, then its outcome. *)
Definition external {A} (ev : event) (r : call A) : M A :=
  emit ev ;;;
  match r with
  | Returns a => ret a
  | Raises => raise OtherException
  end.

Variable env : backend.

(** ** utils/file_loader.py *)

Definition _MIN_TEXT_LENGTH : nat := 50.

Definition SUPPORTED_EXTENSIONS : list str :=
  [lit ".pdf"; lit ".docx"; lit ".txt"].

Definition validate_extension (file_path : str) : M str :=
  let ext := suffix_lower env file_path in
  if bool_decide (ext ∈ SUPPORTED_EXTENSIONS) then ret ext
  else raise UnsupportedFileTypeError.

(** The library's view of the file at [p]: reading bytes that cannot be
    read makes the library call raise. *)
Definition open_pdf (p : Path) : pdf_call pdf_reader :=
  match path_stat p with
  | Regular bs => PdfReader env bs
  | _ => Raised false
  end.

(** The two imports at the head of the preflight check. *)
Definition preflight_imports : bool :=
  pypdf2_installed env && pypdf2_errors_importable env.

(** When one of the imports at the head of the [try] block fails, the
    name [PdfReadError] is unbound and matching [except PdfReadError]
    raises [UnboundLocalError], which leaves the function. *)
Definition _pdf_preflight_check (p : Path) : M unit :=
  if negb preflight_imports then raise OtherException
  else
  match open_pdf p with
  | Raised true => raise CorruptedFileError
  | Raised false => ret tt
  | Returned reader =>
    decrypted <-- (if is_encrypted reader then
                     match decrypt reader with
                     | Returned d =>
                       if (d =? 0)%Z then raise PasswordProtectedError
                       else ret true
                     | Raised _ => raise PasswordProtectedError
                     end
                   else ret false) ;;
    match pages reader decrypted with
    | Raised true => raise CorruptedFileError
    | Raised false => ret tt
    | Returned ps =>
      if (length ps =? 0)%nat then raise EmptyDocumentError else ret tt
    end
  end.

(** The per-page loop shared by stages 1 and 3: a page whose extraction
    raises is skipped, a page with text contributes its stripped text. *)
Definition page_texts (ps : list (call str)) : list str :=
  flat_map (fun page =>
    match page with
    | Returns text => if has_text text then [strip text] else []
    | Raises => []
    end) ps.

Definition joined (pages_text : list str) : str :=
  if truthy pages_text then join [NL; NL] pages_text else [].

(** Stage 1: PyPDF2. A fresh reader is opened (and not decrypted); any
    failure outside the per-page loop yields the empty string. *)
Definition _pdf_stage_pypdf2 (p : Path) : M str :=
  emit (EvStage stage_pypdf2) ;;;
  if negb (pypdf2_installed env) then ret []
  else
    match open_pdf p with
    | Returned reader =>
      match pages reader false with
      | Returned ps => ret (joined (page_texts ps))
      | Raised _ => ret []
      end
    | Raised _ => ret []
    end.

(** One table rendered as text: rows joined by newlines, the cells of a
    row by tabs, [None] cells as empty strings, empty rows left out. *)
Definition table_text (table : list (list (option str))) : str :=
  join [NL]
    (List.map (fun row => join [TAB] (List.map (default []) row))
       (List.filter truthy table)).

Definition plumber_page_texts (page : plumber_page) : list str :=
  match extract_text page with
  | Raises => []
  | Returns text =>
    let own :=
      match text with
      | Some t => if has_text t then [strip t] else []
      | None => []
      end in
    match extract_tables page with
    | Raises => own
    | Returns tbls =>
      own ++ flat_map (fun table =>
               let t := table_text table in
               if truthy (strip t) then [strip t] else []) tbls
    end
  end.

(** Stage 2: pdfplumber. *)
Definition _pdf_stage_pdfplumber (p : Path) : M str :=
  emit (EvStage stage_pdfplumber) ;;;
  if negb (pdfplumber_installed env) then ret []
  else
    match path_stat p with
    | Regular bs =>
      match pdfplumber_open env bs with
      | Returns ps => ret (joined (flat_map plumber_page_texts ps))
      | Raises => ret []
      end
    | _ => ret []
    end.

(** Stage 3: OCR over the rasterised pages. *)
Definition _pdf_stage_ocr (p : Path) : M str :=
  emit (EvStage stage_ocr) ;;;
  if negb (ocr_installed env) then ret []
  else
    match path_stat p with
    | Regular bs =>
      match convert_from_path env bs with
      | Returns images => ret (joined (page_texts images))
      | Raises => ret []
      end
    | _ => ret []
    end.

(** [text and len(text.strip()) >= _MIN_TEXT_LENGTH] *)
Definition clears_threshold (text : str) : bool :=
  truthy text && (_MIN_TEXT_LENGTH <=? length (strip text))%nat.

Definition _load_pdf (p : Path) : M str :=
  _pdf_preflight_check p ;;;
  text <-- _pdf_stage_pypdf2 p ;;
  if clears_threshold text then ret (strip text)
  else
    text <-- _pdf_stage_pdfplumber p ;;
    if clears_threshold text then ret (strip text)
    else
      text <-- _pdf_stage_ocr p ;;
      if clears_threshold text then ret (strip text)
      else raise EmptyDocumentError.

(** The text parts of a DOCX body: stripped non-empty paragraphs, then
    one tab-joined line per table row with a non-empty cell. *)
Definition docx_text_parts (doc : docx_document) : list str :=
  flat_map (fun para =>
    let stripped := strip para in
    if truthy stripped then [stripped] else []) (paragraphs doc)
  ++ flat_map (fun table =>
       flat_map (fun row =>
         let row_text :=
           join [TAB]
             (List.map strip
                (List.filter (fun cell => truthy (strip cell)) row)) in
         if truthy (strip row_text) then [strip row_text] else []) table)
       (tables doc).

Definition _load_docx (p : Path) : M str :=
  if negb (docx_installed env) then raise FileLoadError
  else
    match
      match path_stat p with
      | Regular bs => DocxDocument env bs
      | _ => DocxRaises false
      end
    with
    | DocxRaises true => raise PasswordProtectedError
    | DocxRaises false => raise CorruptedFileError
    | DocxOpened (Returns doc) =>
      let full_text := join [NL; NL] (docx_text_parts doc) in
      if negb (truthy (strip full_text)) then raise EmptyDocumentError
      else ret full_text
    | DocxOpened Raises => raise CorruptedFileError
    end.

(** The encoding loop of [_load_txt]: [Some text] when an encoding is
    accepted, [None] when the loop runs to its end. *)
Fixpoint _load_txt_loop (p : Path) (encodings : list encoding)
  : M (option str) :=
  match encodings with
  | [] => ret None
  | enc :: rest =>
    emit (EvReadText enc) ;;;
    match read_text p enc with
    | ReadText text =>
      if truthy (strip text) then ret (Some text)
      else _load_txt_loop p rest
    | UnicodeDecodeError => _load_txt_loop p rest
    | ReadOSError => raise CorruptedFileError
    end
  end.

Definition txt_encodings : list encoding :=
  [utf_8; utf_8_sig; latin_1; cp1252].

Definition _load_txt (p : Path) : M str :=
  r <-- _load_txt_loop p txt_encodings ;;
  match r with
  | Some text => ret text
  | None =>
    match read_bytes p with
    | Returns raw =>
      if (length raw =? 0)%nat then raise EmptyDocumentError
      else raise EmptyDocumentError
    | Raises => raise OtherException
    end
  end.

(** [path.exists()] and [path.is_file()] run before the [try] block: an
    [OSError] of [os.stat] leaves [load] as it is. *)
Definition load (p : Path) : M str :=
  match path_stat p with
  | Unstatable => raise OtherException
  | Missing => raise FileLoadError
  | Directory => raise FileLoadError
  | _ =>
    ext <-- validate_extension (path_name p) ;;
    catch
      (if bool_decide (ext = lit ".pdf") then _load_pdf p
       else if bool_decide (ext = lit ".docx") then _load_docx p
       else if bool_decide (ext = lit ".txt") then _load_txt p
       else raise UnsupportedFileTypeError)
      (fun e =>
         if is_FileLoadError e then raise e else raise CorruptedFileError)
  end.

(** ** utils/text_splitter.py *)

Definition split (text : str) : M (list str) :=
  if negb (has_text text) then raise ValueError
  else external (EvSplitText text) (split_text env text).

(** ** services/embedding_service.py *)

Definition embed_text (text : str) : M (list float) :=
  if negb (has_text text) then raise ValueError
  else
    catch (external (EvEmbedQuery text) (aembed_query env text))
      (fun _ => raise RuntimeError).

Definition embed_texts (texts : list str) : M (list (list float)) :=
  if negb (truthy texts) then raise ValueError
  else
    let valid_texts := List.filter has_text texts in
    if negb (truthy valid_texts) then raise ValueError
    else
      catch
        (external (EvEmbedDocuments valid_texts)
           (aembed_documents env valid_texts))
        (fun _ => raise RuntimeError).

(** ** services/pinecone_service.py *)

(** A match as returned by [PineconeService.query]:
    ["id"], ["score"], ["metadata"]. *)
Record query_match := {
  match_id : str;
  match_score : float;
  match_metadata : gmap string pyval;
}.

(** An entry of the document listing: ["document_id"], ["file_name"]. *)
Record document_info := {
  doc_document_id : pyval;
  doc_file_name : pyval;
}.

(** [[vectors[i : i + batch_size] for i in range(0, len(vectors), batch_size)]] *)
Definition batches {A} (batch_size : nat) (vectors : list A)
  : list (list A) :=
  List.map (fun k => take batch_size (drop (k * batch_size) vectors))
    (seq 0 ((length vectors + (batch_size - 1)) / batch_size)).

(** [(v["id"], v["values"], v["metadata"])] *)
Definition upsert_tuple (v : vector)
  : str * list float * gmap string pyval :=
  (vec_id v, vec_values v, vec_metadata v).

Fixpoint upsert_loop (bs : list (list vector)) (total_upserted : nat)
  : M nat :=
  match bs with
  | [] => ret total_upserted
  | batch :: rest =>
    let upsert_data := List.map upsert_tuple batch in
    external (EvIndexUpsert upsert_data) (index_upsert env upsert_data) ;;;
    upsert_loop rest (total_upserted + length batch)
  end.

Definition upsert_vectors (vectors : list vector) : M nat :=
  if negb (truthy vectors) then ret 0
  else
    catch (upsert_loop (batches 100 vectors) 0)
      (fun _ => raise RuntimeError).

(** [getattr(results, "matches", []) or []] *)
Definition matches_of (results : option (list raw_match)) : list raw_match :=
  default [] results.

Definition query (query_vector : list float) (top_k : option N)
    (filter_dict : gmap string pyval) : M (list query_match) :=
  let top_k :=
    match top_k with
    | Some (Npos k) => Npos k
    | _ => TOP_K env
    end in
  catch
    (results <-- external (EvIndexQuery query_vector top_k filter_dict)
                   (index_query env query_vector top_k filter_dict) ;;
     ret (List.map (fun m =>
            {| match_id := raw_id m;
               match_score := raw_score m;
               match_metadata := default ∅ (raw_metadata m) |})
          (matches_of results)))
    (fun _ => raise RuntimeError).

Definition document_filter (user_id document_id : str) : gmap string pyval :=
  list_to_map [("user_id", PStr user_id); ("document_id", PStr document_id)].

Definition delete_by_document (user_id document_id : str) : M unit :=
  let flt := document_filter user_id document_id in
  catch (external (EvIndexDelete flt) (index_delete env flt))
    (fun _ => raise RuntimeError).

(** [doc_id in seen] for the insertion-ordered dictionary [seen]. *)
Definition seen_has (seen : list (pyval * document_info)) (doc_id : pyval)
  : bool :=
  existsb (fun kv => bool_decide (fst kv = doc_id)) seen.

(** One iteration of the deduplication loop. *)
Definition seen_step (seen : list (pyval * document_info)) (m : raw_match)
  : list (pyval * document_info) :=
  let meta := default ∅ (raw_metadata m) in
  match meta !! "document_id" with
  | Some doc_id =>
    if pyval_truthy (Some doc_id) && negb (seen_has seen doc_id)
    then seen ++ [(doc_id,
                   {| doc_document_id := doc_id;
                      doc_file_name :=
                        default (PStr (lit "Unknown")) (meta !! "file_name") |})]
    else seen
  | None => seen
  end.

Definition list_documents_for_user (user_id : str)
  : M (list document_info) :=
  catch
    (let zero_vector := repeat (float_zero env) 768 in
     let flt : gmap string pyval := {[ "user_id" := PStr user_id ]} in
     results <-- external (EvIndexQuery zero_vector 10000%N flt)
                   (index_query env zero_vector 10000%N flt) ;;
     let seen := fold_left seen_step (matches_of results) [] in
     ret (List.map snd seen))
    (fun _ => raise RuntimeError).

(** ** services/document_processor.py *)

(** The dictionary returned by a successful ingestion. *)
Record processing_result := {
  res_document_id : str;
  res_file_name : str;
  res_num_chunks : nat;
  res_total_characters : nat;
  res_status : str;
}.

Record delete_result := {
  del_document_id : str;
  del_status : str;
}.

(** Creates the subdirectory of [document_id], writes the upload into
    it and returns the sanitised file name under which it is stored.
    The only caller passes the identifier it has just generated, which
    names a direct child of the upload directory. A path that [os.stat]
    refuses is refused by [mkdir] as well. The directory is created
    before the file is written and stays when the write fails. *)
Definition _save_file (content : list byte) (file_name : str)
    (document_id : UUID) : M str :=
  if stat_raises env document_id then raise OtherException
  else
    match mkdir env document_id with
    | Raises => raise OtherException
    | Returns _ =>
      d <-- get_dirs ;;
      let files := default ∅ (d !! (document_id : str)) in
      set_dirs (<[(document_id : str) := files]> d) ;;;
      let safe_name := base_name env file_name in
      emit (EvWriteBytes document_id safe_name) ;;;
      match write_bytes env document_id safe_name content with
      | Written =>
        set_dirs (<[(document_id : str) := <[safe_name := content]> files]> d) ;;;
        ret safe_name
      | WriteRefused => raise OtherException
      | WriteInterrupted kept =>
        set_dirs (<[(document_id : str) :=
                    <[safe_name := take kept content]> files]> d) ;;;
        raise OtherException
      end
    end.

(** The path [upload_dir / document_id / name] of a generated
    [document_id], with what the disk holds there. *)
Definition stored_path (document_id : UUID) (name : str) : M Path :=
  d <-- get_dirs ;;
  ret {| path_name := name;
         path_stat :=
           match d !! (document_id : str) ≫= (fun files => files !! name) with
           | Some content => Regular content
           | None => Missing
           end |}.

(** [doc_dir = self._upload_dir / document_id] is whatever path the
    join yields: [doc_dir.exists()] may raise, and the tree removed is
    the document's directory only when [document_id] names a direct
    child of the upload directory. *)
Definition _delete_file (document_id : str) : M unit :=
  if stat_raises env document_id then raise OtherException
  else
    match upload_child document_id with
    | Some name =>
      d <-- get_dirs ;;
      match d !! name with
      | Some _ =>
        emit (EvRmtree document_id) ;;;
        if rmtree_removes env then set_dirs (delete name d) else ret tt
      | None => ret tt
      end
    | None =>
      w <-- get_world ;;
      match rmtree_elsewhere env document_id w with
      | Some remaining => emit (EvRmtree document_id) ;;; set_dirs remaining
      | None => ret tt
      end
    end.

Definition delete_document (user_id document_id : str) : M delete_result :=
  delete_by_document user_id document_id ;;;
  _delete_file document_id ;;;
  ret {| del_document_id := document_id; del_status := lit "deleted" |}.

Definition _prepare_vectors (chunks : list str)
    (embeddings : list (list float)) (user_id document_id file_name : str)
  : list vector :=
  imap (fun idx '(chunk, embedding) =>
      {| vec_id := document_id ++ lit "_chunk_" ++ str_of_nat idx;
         vec_values := embedding;
         vec_metadata :=
           list_to_map
             [ ("user_id", PStr user_id);
               ("document_id", PStr document_id);
               ("file_name", PStr file_name);
               ("chunk_index", PInt (Z.of_nat idx));
               ("text", PStr chunk) ] |})
    (zip chunks embeddings).

(** [process_document]; [document_id] is the UUID drawn by
    [_generate_document_id] for this run, used through its text
    [str(uuid.uuid4())]. *)
Definition process_document (document_id : UUID) (file_content : list byte)
    (file_name user_id : str) : M processing_result :=
  (* Step 1: validate file type *)
  catch (validate_extension file_name)
    (fun e =>
       match e with
       | UnsupportedFileTypeError =>
         raise (DocumentProcessingError "UNSUPPORTED_FILE_TYPE")
       | _ => raise e
       end) ;;;
  (* Step 2: save file to local storage *)
  safe_name <-- catch (_save_file file_content file_name document_id)
                  (fun _ => raise (DocumentProcessingError "SAVE_FAILED")) ;;
  catch
    ((* Step 3: extract text *)
     text <-- catch (file_path <-- stored_path document_id safe_name ;;
                     load file_path)
                (fun e =>
                   match e with
                   | PasswordProtectedError =>
                     raise (DocumentProcessingError "PASSWORD_PROTECTED")
                   | CorruptedFileError =>
                     raise (DocumentProcessingError "CORRUPTED_FILE")
                   | EmptyDocumentError =>
                     raise (DocumentProcessingError "EMPTY_DOCUMENT")
                   | FileLoadError | UnsupportedFileTypeError =>
                     raise (DocumentProcessingError "EXTRACTION_FAILED")
                   | _ => raise e
                   end) ;;
     (* Step 4: validate extracted text *)
     let clean_text := if truthy text then strip text else [] in
     if negb (truthy clean_text)
     then raise (DocumentProcessingError "EMPTY_DOCUMENT")
     else if (length clean_text <? 50)%nat
     then raise (DocumentProcessingError "INSUFFICIENT_CONTENT")
     else
       (* Step 5: split into chunks *)
       chunks <-- catch (split clean_text)
                    (fun e =>
                       match e with
                       | ValueError =>
                         raise (DocumentProcessingError "INSUFFICIENT_CONTENT")
                       | _ => raise e
                       end) ;;
       if negb (truthy chunks)
       then raise (DocumentProcessingError "EMPTY_CHUNKS")
       else
         let chunks := List.filter has_text chunks in
         if negb (truthy chunks)
         then raise (DocumentProcessingError "EMPTY_CHUNKS")
         else
           (* Step 6: generate embeddings *)
           embeddings <-- catch (embed_texts chunks)
                            (fun e =>
                               match e with
                               | ValueError =>
                                 raise (DocumentProcessingError "EMBEDDING_FAILED")
                               | RuntimeError =>
                                 raise (DocumentProcessingError
                                          "EMBEDDING_SERVICE_ERROR")
                               | _ => raise e
                               end) ;;
           (* Step 7: store in Pinecone *)
           catch (upsert_vectors
                    (_prepare_vectors chunks embeddings user_id document_id
                       file_name))
             (fun e =>
                match e with
                | RuntimeError =>
                  raise (DocumentProcessingError "PINECONE_SERVICE_ERROR")
                | _ => raise e
                end) ;;;
           ret {| res_document_id := document_id;
                  res_file_name := file_name;
                  res_num_chunks := length chunks;
                  res_total_characters := length clean_text;
                  res_status := lit "success" |})
    (fun e =>
       (* clean up the saved file, then re-raise or normalise *)
       _delete_file document_id ;;;
       match e with
       | DocumentProcessingError _ => raise e
       | _ => raise (DocumentProcessingError "UNKNOWN_ERROR")
       end).

(** ** services/rag_service.py *)

Definition NOT_FOUND : str :=
  lit "Answer not found in the uploaded document.".

(** An entry of the ["sources"] list. *)
Record source := {
  src_chunk_index : pyval;
  src_text : pyval;
  src_relevance_score : float;
  src_file_name : pyval;
}.

(** The dictionary returned by [ask_question]. *)
Record rag_answer := {
  ans_answer : str;
  ans_sources : list source;
  ans_num_sources : nat;
  ans_question : str;
}.

Definition context_part (i : nat) (m : query_match) : str :=
  let chunk_text := default (PStr []) (match_metadata m !! "text") in
  let chunk_index :=
    default (PStr (lit "?")) (match_metadata m !! "chunk_index") in
  lit "[Source " ++ str_of_nat i ++ lit " | Chunk " ++ pyval_str chunk_index
  ++ lit " | Relevance: " ++ format_4f env (match_score m) ++ lit "]"
  ++ [NL] ++ pyval_str chunk_text.

Definition source_of (m : query_match) : source :=
  {| src_chunk_index :=
       default (PStr (lit "?")) (match_metadata m !! "chunk_index");
     src_text := default (PStr []) (match_metadata m !! "text");
     src_relevance_score := round_4 env (match_score m);
     src_file_name :=
       default (PStr (lit "Unknown")) (match_metadata m !! "file_name") |}.

Definition ask_question (question user_id document_id : str)
  : M rag_answer :=
  if negb (has_text question) then raise ValueError
  else
    catch
      ((* Step 1: embed the question *)
       query_vector <-- embed_text question ;;
       (* Step 2: retrieve relevant chunks *)
       matches <-- query query_vector (Some (TOP_K env))
                     (document_filter user_id document_id) ;;
       if negb (truthy matches) then
         ret {| ans_answer := NOT_FOUND;
                ans_sources := [];
                ans_num_sources := 0;
                ans_question := question |}
       else
         (* Step 3: build context from retrieved chunks *)
         let sources := List.map source_of matches in
         let context_parts := imap (fun i m => context_part (S i) m) matches in
         let context := join ([NL; NL] ++ lit "---" ++ [NL; NL]) context_parts in
         (* Step 4: generate answer *)
         answer <-- external (EvGenerate context question)
                      (chain_ainvoke env context question) ;;
         ret {| ans_answer := strip answer;
                ans_sources := sources;
                ans_num_sources := length sources;
                ans_question := question |})
      (fun e =>
         match e with
         | ValueError => raise e
         | _ => raise RuntimeError
         end).

End Model.

Arguments backend : clear implicits.
Arguments world : clear implicits.
Arguments event : clear implicits.
Arguments raw_match : clear implicits.
Arguments vector : clear implicits.

(** ** Vocabulary of the properties *)

Section Vocabulary.
Context {float : Type}.

(** [log w evs]: the world [w] after the calls [evs], local files
    untouched. *)
Definition log (w : world float) (evs : list (event float)) : world float :=
  {| dirs := dirs w; trace := trace w ++ evs |}.

(** Calls that reach the embedding model or the vector store. *)
Definition service_call (ev : event float) : bool :=
  match ev with
  | EvEmbedQuery _ | EvEmbedDocuments _
  | EvIndexUpsert _ | EvIndexQuery _ _ _ | EvIndexDelete _ => true
  | _ => false
  end.

(** Calls made by the text extractor. *)
Definition extractor_call (ev : event float) : bool :=
  match ev with
  | EvStage _ | EvReadText _ => true
  | _ => false
  end.

(** The records sent to the index by the upsert calls of a trace, in
    order. *)
Definition upserted (evs : list (event float))
  : list (str * list float * gmap string pyval) :=
  concat (omap (fun ev =>
                  match ev with
                  | EvIndexUpsert batch => Some batch
                  | _ => None
                  end) evs).

(** [meta.get("document_id")] of a raw match. *)
Definition match_document_id (m : raw_match float) : option pyval :=
  default ∅ (raw_metadata m) !! "document_id".

(** [meta.get("file_name", "Unknown")] of a raw match. *)
Definition match_file_name (m : raw_match float) : pyval :=
  default (PStr (lit "Unknown")) (default ∅ (raw_metadata m) !! "file_name").

(** [d] is listed for the first match of [ms] that carries its id. *)
Definition first_seen (ms : list (raw_match float)) (d : document_info)
  : Prop :=
  exists pre m post,
    ms = pre ++ m :: post
    /\ match_document_id m = Some (doc_document_id d)
    /\ (forall m', m' ∈ pre ->
          match_document_id m' <> Some (doc_document_id d))
    /\ doc_file_name d = match_file_name m.

(** The loop invariant: keys are distinct, every entry records the
    first match with its key, and every truthy id met so far has an
    entry. *)
Definition seen_inv (done : list (raw_match float))
    (seen : list (pyval * document_info)) : Prop :=
  NoDup (List.map fst seen)
  /\ (forall k d, (k, d) ∈ seen -> doc_document_id d = k /\ first_seen done d)
  /\ (forall m k, m ∈ done -> match_document_id m = Some k ->
        pyval_truthy (Some k) = true -> k ∈ List.map fst seen).

(** Both deletions are attempted by a call of [delete_document]: the
    index is asked to delete the document's records and, when the
    document has a local directory, its removal is started. *)
Definition attempts_both_deletions (env : backend float)
    (user_id document_id : str) (w : world float) : Prop :=
  let calls := trace (snd (delete_document env user_id document_id w)) in
  EvIndexDelete (document_filter user_id document_id) ∈ calls
  /\ (dirs w !! document_id <> None -> EvRmtree document_id ∈ calls).

(** An encoding is passed over when decoding fails or the decoded text
    is empty or whitespace-only. *)
Definition passed_over (p : Path) (enc : encoding) : Prop :=
  read_text p enc = UnicodeDecodeError
  \/ exists t, read_text p enc = ReadText t /\ forallb isspace t = true.

(** [only_emits P m]: running [m] leaves the upload directory as it is
    and makes only external calls that satisfy [P]. *)
Definition only_emits {A} (P : event float -> Prop) (m : M A) : Prop :=
  forall w, exists new, snd (m w) = log w new /\ Forall P new.

(** [returns_only Q m]: every value returned by [m] satisfies [Q]. *)
Definition returns_only {A} (Q : A -> Prop) (m : M A) : Prop :=
  forall (w : world float) a w', m w = (inr a, w') -> Q a.

End Vocabulary.

(** ** Sample environments

    Concrete collaborators on which the model can be run. Floats are
    stood for by integers. *)

(** [c.lower()] for the ASCII letters. *)
Definition sample_lower (c : N) : N :=
  if ((65 <=? c) && (c <=? 90))%N then (c + 32)%N else c.

(** [Path(p).name]: the last component of the path. *)
Definition sample_name (p : str) : str := List.last (path_parts p) [].

(** [Path(p).suffix]: the part of the name from its last dot on, unless
    that dot starts or ends the name. *)
Definition sample_suffix (p : str) : str :=
  let name := sample_name p in
  match rev (py_split DOT name) with
  | ext :: _ :: _ =>
    if truthy ext && (length ext + 1 <? length name)%nat then DOT :: ext
    else []
  | _ => []
  end.

(** File and directory names of at most 255 characters are accepted by
    the sample disk. *)
Definition NAME_MAX : nat := 255.

(** The sample disk holds nothing but the upload directory, given by a
    relative path, with the document directories. A [document_id]
    without components ([""], ["."]) names the upload directory and
    [".."] its parent: removing either takes every document directory
    with it. A [document_id] of two components names a file of a
    document directory, which [shutil.rmtree] leaves in place. No other
    path exists. *)
Definition sample_elsewhere {float : Type} (document_id : str)
    (w : world float) : option (gmap (list N) (gmap (list N) (list byte))) :=
  if bool_decide (head document_id = Some SLASH) then None
  else
    match path_parts document_id with
    | [] | [_] => Some ∅
    | [d; f] =>
      match dirs w !! d ≫= (fun files => files !! f) with
      | Some _ => Some (dirs w)
      | None => None
      end
    | _ => None
    end.

(** A backend in which every library is installed and every service
    answers; the arguments fix what the PDF libraries see in a file,
    what the index returns to a query, and whether the index accepts
    deletions. Its disk refuses names longer than [NAME_MAX]. *)
Definition sample_backend
    (pdf_pages : list (call str))
    (ocr_pages : list (call str))
    (index_matches : list (raw_match Z))
    (index_deletes : bool) : backend Z :=
  {| suffix_lower := fun name => List.map sample_lower (sample_suffix name);
     base_name := sample_name;
     stat_raises := fun document_id =>
       existsb (fun part => (NAME_MAX <? length part)%nat)
         (py_split SLASH document_id);
     mkdir := fun _ => Returns tt;
     write_bytes := fun _ name _ =>
       if truthy name && (length name <=? NAME_MAX)%nat then Written
       else WriteRefused;
     rmtree_removes := true;
     rmtree_elsewhere := sample_elsewhere;
     pypdf2_installed := true;
     pypdf2_errors_importable := true;
     PdfReader := fun _ =>
       Returned {| is_encrypted := false;
                   decrypt := Returned 0%Z;
                   pages := fun _ => Returned pdf_pages |};
     pdfplumber_installed := true;
     pdfplumber_open := fun _ => Returns [];
     ocr_installed := true;
     convert_from_path := fun _ => Returns ocr_pages;
     docx_installed := true;
     DocxDocument := fun _ => DocxRaises false;
     split_text := fun text => Returns [text];
     aembed_query := fun text => Returns [Z.of_nat (length text)];
     aembed_documents := fun texts =>
       Returns (List.map (fun t => [Z.of_nat (length t)]) texts);
     index_upsert := fun _ => Returns tt;
     index_query := fun _ _ _ => Returns (Some index_matches);
     index_delete := fun _ => if index_deletes then Returns tt else Raises;
     chain_ainvoke := fun _ question => Returns question;
     float_zero := 0%Z;
     format_4f := fun x => str_of_Z x ++ lit ".0000";
     round_4 := fun x => x;
     TOP_K := 5%N |}.

Definition empty_world : world Z := {| dirs := ∅; trace := [] |}.

(** Two generated identifiers:
    ["550e8400-e29b-41d4-a716-446655440000"] and
    ["6ba7b810-9dad-41d1-80b4-00c04fd430c8"]. *)
Definition sample_id : UUID :=
  {| uuid_int := 0x550e8400e29b41d4a716446655440000 |}.

Definition other_id : UUID :=
  {| uuid_int := 0x6ba7b8109dad41d180b400c04fd430c8 |}.

(** The bytes of an ASCII literal. *)
Definition bytes_of (s : string) : list byte := list_byte_of_string s.

(** A world holding the upload of document ["doc_1"]. *)
Definition world_with_upload : world Z :=
  {| dirs := {[ lit "doc_1" := {[ lit "a.txt" := bytes_of "hello" ]} ]};
     trace := [] |}.

(** An answer of the index: two records of one document, the second
    under another file name, then a record of a document without file
    name. *)
Definition sample_matches : list (raw_match Z) :=
  [ {| raw_id := lit "A_chunk_0"; raw_score := 0%Z;
       raw_metadata := Some (list_to_map
         [("document_id", PStr (lit "A")); ("file_name", PStr (lit "a.pdf"))]) |};
    {| raw_id := lit "A_chunk_1"; raw_score := 0%Z;
       raw_metadata := Some (list_to_map
         [("document_id", PStr (lit "A")); ("file_name", PStr (lit "renamed.pdf"))]) |};
    {| raw_id := lit "B_chunk_0"; raw_score := 0%Z;
       raw_metadata := Some (list_to_map [("document_id", PStr (lit "B"))]) |} ].

(** A scanned PDF: one page without a text layer, from which OCR reads
    sixty characters. *)
Definition scanned_text : str :=
  lit "An invoice scanned on paper, sixty characters of OCR output.".

Definition scanned_backend : backend Z :=
  sample_backend [Returns []] [Returns scanned_text] [] true.

Definition scanned_pdf : Path :=
  {| path_name := lit "scan.pdf"; path_stat := Regular (bytes_of "%PDF-1.4") |}.

(** The file of the repository's own test [test_txt_insufficient]. *)
Definition short_txt : Path :=
  {| path_name := lit "short.txt"; path_stat := Regular (bytes_of "Short") |}.

(** Scenario: a ten-character TXT upload stops at the length gate. *)
Definition ten_chars : list byte := bytes_of "0123456789".

(** Scenario: a TXT upload of eighty characters of prose is ingested as
    one chunk. *)
Definition prose : string :=
  "The quarterly report covers revenue, costs and hiring plans for the coming year.".

Definition prose_backend : backend Z := sample_backend [] [] [] true.

Definition prose_saved : world Z :=
  snd (_save_file prose_backend (bytes_of prose) (lit "prose.txt")
         sample_id empty_world).

(** [env] with another splitter and another embedding model behind
    [aembed_documents]. *)
Definition with_text_services (env : backend Z)
    (splitter : str -> call (list str))
    (model : list str -> call (list (list Z))) : backend Z :=
  {| suffix_lower := suffix_lower env;
     base_name := base_name env;
     stat_raises := stat_raises env;
     mkdir := mkdir env;
     write_bytes := write_bytes env;
     rmtree_removes := rmtree_removes env;
     rmtree_elsewhere := rmtree_elsewhere env;
     pypdf2_installed := pypdf2_installed env;
     pypdf2_errors_importable := pypdf2_errors_importable env;
     PdfReader := PdfReader env;
     pdfplumber_installed := pdfplumber_installed env;
     pdfplumber_open := pdfplumber_open env;
     ocr_installed := ocr_installed env;
     convert_from_path := convert_from_path env;
     docx_installed := docx_installed env;
     DocxDocument := DocxDocument env;
     split_text := splitter;
     aembed_query := aembed_query env;
     aembed_documents := model;
     index_upsert := index_upsert env;
     index_query := index_query env;
     index_delete := index_delete env;
     chain_ainvoke := chain_ainvoke env;
     float_zero := float_zero env;
     format_4f := format_4f env;
     round_4 := round_4 env;
     TOP_K := TOP_K env |}.

(** A splitter that cuts after 40 characters and leaves a
    whitespace-only piece between the two halves. *)
Definition halving_splitter (text : str) : call (list str) :=
  Returns [take 40 text; lit "   "; drop 40 text].

(** Scenario: the prose upload split in two chunks, the embedding model
    answering with one vector per text. *)
Definition halves_backend : backend Z :=
  with_text_services prose_backend halving_splitter
    (aembed_documents prose_backend).

Definition prose_halves : list str :=
  [lit "The quarterly report covers revenue, cos";
   lit "ts and hiring plans for the coming year."].

Definition halves_saved : world Z :=
  snd (_save_file halves_backend (bytes_of prose) (lit "prose.txt")
         sample_id empty_world).

Definition halves_loaded : world Z :=
  snd (bind (stored_path sample_id (lit "prose.txt")) (load halves_backend)
         halves_saved).

Definition halves_embedded : world Z :=
  snd (embed_texts halves_backend prose_halves
         (log halves_loaded [EvSplitText (strip (lit prose))])).

(** Scenario: the same upload when the embedding model answers with a
    single vector whatever the number of texts. *)
Definition single_vector_backend : backend Z :=
  with_text_services prose_backend halving_splitter
    (fun _ => Returns [[7%Z]]).

(** * Further code of the backend

    The functions of the source files that the pipelines above call or
    are called by: the remaining operations of the splitter and of the
    Pinecone service, the configuration properties, the HTTP routes, the
    dependency checker and the helpers of the test suite. HTTP responses
    are modelled by their status and the machine-readable part of their
    JSON body (success flag, error code, data); the human-readable
    message texts are left out, as are the messages of exceptions. *)

(** ** More of Python's str and bytes *)

(** UTF-8 encoding of one code point; [None] is [UnicodeEncodeError]
    (a surrogate). *)
Definition encode_utf8_char (c : N) : option (list N) :=
  (if c <? 0x80 then Some [c]
   else if c <? 0x800 then Some [0xC0 + c / 64; 0x80 + c mod 64]
   else if c <? 0x10000 then
     if (0xD800 <=? c) && (c <=? 0xDFFF) then None
     else Some [0xE0 + c / 4096; 0x80 + (c / 64) mod 64; 0x80 + c mod 64]
   else if c <? 0x110000 then
     Some [0xF0 + c / 262144; 0x80 + (c / 4096) mod 64;
           0x80 + (c / 64) mod 64; 0x80 + c mod 64]
   else None)%N.

Fixpoint encode_utf8_codes (s : str) : option (list N) :=
  match s with
  | [] => Some []
  | c :: r =>
    match encode_utf8_char c, encode_utf8_codes r with
    | Some bs, Some rest => Some (bs ++ rest)
    | _, _ => None
    end
  end.

(** [s.encode("utf-8")] *)
Definition encode_utf8 (s : str) : option (list byte) :=
  encode_utf8_codes s ≫= (fun ns => mapM Byte.of_N ns).

(** ** config.py *)

Record Settings := {
  ALLOWED_EXTENSIONS : str;
  MAX_FILE_SIZE_MB : Z;
}.

Section Config.
(** [str.lower] *)
Variable lower : str -> str.

Definition allowed_extensions_list (settings : Settings) : list str :=
  List.map (fun ext => lower (strip ext))
    (py_split COMMA (ALLOWED_EXTENSIONS settings)).

Definition max_file_size_bytes (settings : Settings) : Z :=
  (MAX_FILE_SIZE_MB settings * 1024 * 1024)%Z.

End Config.

(** ** utils/text_splitter.py: chunks with metadata *)

Section SplitterMetadata.
Context {float : Type} (env : backend float).

(** [{"text": chunk, "chunk_index": idx, **metadata}]: the keys of the
    base metadata come last and win. *)
Definition chunk_data (metadata : gmap string pyval) (idx : nat) (chunk : str)
  : gmap string pyval :=
  metadata ∪ list_to_map [("text", PStr chunk);
                          ("chunk_index", PInt (Z.of_nat idx))].

Definition split_with_metadata (text : str)
    (base_metadata : option (gmap string pyval))
  : @M float (list (gmap string pyval)) :=
  bind (split env text) (fun chunks =>
    let metadata := default ∅ base_metadata in
    ret (imap (chunk_data metadata) chunks)).

End SplitterMetadata.

(** ** services/pinecone_service.py: index provisioning *)

(** Calls to the Pinecone client made while provisioning, and
    [time.sleep]. *)
Inductive admin_call :=
| CallListIndexes
| CallCreateIndex (name : str) (dimension : nat) (metric cloud region : str)
| CallDescribeIndex (name : str)
| CallSleep (seconds : nat).

(** The client as seen by [_ensure_index_exists]: the names listed, the
    outcome of [create_index], and for the k-th call of
    [describe_index] the value of [getattr(desc.status, "ready", False)]. *)
Record index_admin := {
  list_indexes : call (list str);
  create_index : call unit;
  describe_index : nat -> call bool;
}.

Inductive provisioned := IndexExisted | IndexReady | IndexTimedOut.

(** The polling loop [while waited < max_wait]; [fuel] bounds the
    number of iterations, [None] when it runs out. *)
Fixpoint wait_until_ready (fuel : nat) (admin : index_admin) (name : str)
    (max_wait waited polls : nat) (calls : list admin_call)
  : option ((exn + provisioned) * list admin_call) :=
  match fuel with
  | 0 => None
  | S fuel' =>
    if waited <? max_wait then
      match describe_index admin polls with
      | Raises => Some (inl OtherException, calls ++ [CallDescribeIndex name])
      | Returns true => Some (inr IndexReady, calls ++ [CallDescribeIndex name])
      | Returns false =>
        wait_until_ready fuel' admin name max_wait (waited + 2) (S polls)
          (calls ++ [CallDescribeIndex name; CallSleep 2])
      end
    else Some (inr IndexTimedOut, calls)
  end.

Definition _ensure_index_exists (admin : index_admin)
    (index_name region : str)
  : option ((exn + provisioned) * list admin_call) :=
  match list_indexes admin with
  | Raises => Some (inl OtherException, [CallListIndexes])
  | Returns existing_indexes =>
    if bool_decide (index_name ∈ existing_indexes)
    then Some (inr IndexExisted, [CallListIndexes])
    else
      let create :=
        CallCreateIndex index_name 768 (lit "cosine") (lit "aws") region in
      match create_index admin with
      | Raises => Some (inl OtherException, [CallListIndexes; create])
      | Returns _ =>
        wait_until_ready 121 admin index_name 120 0 0 [CallListIndexes; create]
      end
  end.

(** Seconds slept and status polls in a list of provisioning calls. *)
Definition slept (calls : list admin_call) : nat :=
  list_sum (List.map (fun c => match c with CallSleep s => s | _ => 0 end) calls).

Definition polled (calls : list admin_call) : nat :=
  length (List.filter (fun c => match c with CallDescribeIndex _ => true | _ => false end)
            calls).

Definition created (calls : list admin_call) : nat :=
  length (List.filter (fun c => match c with CallCreateIndex _ _ _ _ _ => true | _ => false end)
            calls).

(** ** routes/upload.py *)

Module UploadRoute.
Section Route.
Context {float : Type} (env : backend float).
Variable lower : str -> str.
Variable settings : Settings.

(** The JSON body: [{"success": false, "error_code": ...}] or
    [{"success": true, "data": result}]. *)
Inductive body :=
| Failure (error_code : string)
| Success (data : processing_result).

Record response := { status_code : nat; content : body }.

Definition _error_response (error_code : string) (status_code : nat)
  : response :=
  {| status_code := status_code; content := Failure error_code |}.

(** [upload_document]: [filename] is [file.filename], [read] the
    outcome of [file.read()], [processor_ready] tells whether the
    global [document_processor] is set, and [document_id] is the
    identifier [process_document] will draw. *)
Definition upload_document (filename : option str) (read : call (list byte))
    (user_id : str) (processor_ready : bool) (document_id : UUID)
  : @M float response :=
  match filename with
  | None | Some [] => ret (_error_response "INVALID_FILE" 400)
  | Some name =>
    let file_ext :=
      if contains_char DOT name
      then lower (List.last (py_split DOT name) [])
      else [] in
    if negb (bool_decide (file_ext ∈ allowed_extensions_list lower settings))
    then ret (_error_response "UNSUPPORTED_FILE_TYPE" 400)
    else
      match read with
      | Raises => ret (_error_response "READ_FAILED" 400)
      | Returns content =>
        if (length content =? 0)%nat
        then ret (_error_response "EMPTY_FILE" 400)
        else if (max_file_size_bytes settings <? Z.of_nat (length content))%Z
        then ret (_error_response "FILE_TOO_LARGE" 413)
        else
          catch
            (if negb processor_ready
             then ret (_error_response "SERVICE_UNAVAILABLE" 503)
             else
               bind (process_document env document_id content name user_id)
                 (fun result =>
                    ret {| status_code := 201; content := Success result |}))
            (fun e =>
               match e with
               | DocumentProcessingError error_code =>
                 ret (_error_response error_code 400)
               | _ => ret (_error_response "UNKNOWN_ERROR" 400)
               end)
      end
  end.

End Route.
End UploadRoute.

(** ** routes/query.py *)

Module QueryRoute.
Section Route.
Context {float : Type} (env : backend float).

(** Whether [JSONResponse] can render an answer: [json.dumps] runs with
    [allow_nan=False] and raises [ValueError] on a score that is not a
    finite number. *)
Variable renders : @rag_answer float -> bool.

Inductive body :=
| Failure (error_code : string)
| Success (result : @rag_answer float).

Record response := { status_code : nat; content : body }.

Definition _error_response (error_code : string) (status_code : nat)
  : response :=
  {| status_code := status_code; content := Failure error_code |}.

Definition ask_question (service_ready : bool)
    (user_id document_id question : str) : @M float response :=
  catch
    (if negb service_ready
     then ret (_error_response "SERVICE_UNAVAILABLE" 503)
     else
       bind (ask_question env question user_id document_id)
         (fun result =>
            if renders result
            then ret {| status_code := 200; content := Success result |}
            else raise ValueError))
    (fun e =>
       match e with
       | ValueError => ret (_error_response "INVALID_REQUEST" 400)
       | RuntimeError => ret (_error_response "RAG_PIPELINE_FAILED" 400)
       | _ => ret (_error_response "UNKNOWN_ERROR" 400)
       end).

End Route.
End QueryRoute.

(** ** routes/document.py: deletion *)

Module DocumentRoute.
Section Route.
Context {float : Type} (env : backend float).

Record DeleteResponse := {
  message : str;
  document_id : str;
  status : str;
}.

(** The route ends by raising an [HTTPException] or by returning. *)
Inductive outcome :=
| HTTPException (status_code : nat) (detail : str)
| Returned (r : DeleteResponse).

(** [processor_ready] tells whether the global [document_processor]
    is set; calling a method of [None] raises [AttributeError]. *)
Definition delete_document (processor_ready : bool)
    (document_id user_id : str) : @M float outcome :=
  if negb (has_text document_id)
  then ret (HTTPException 400 (lit "Document ID is required."))
  else
    catch
      (if negb processor_ready then raise OtherException
       else
         bind (delete_document env user_id document_id)
           (fun result =>
              ret (Returned
                     {| message := lit "Document deleted successfully.";
                        document_id := del_document_id result;
                        status := del_status result |})))
      (fun e =>
         match e with
         | RuntimeError =>
           ret (HTTPException 500 (lit "Failed to delete the document."))
         | _ => ret (HTTPException 500 (lit "An unexpected error occurred."))
         end).

End Route.
End DocumentRoute.

(** ** utils/system_check.py *)

Module SystemCheck.

Record check := {
  name : str;
  passed : bool;
  message : str;
  critical : bool;
  status : str;
}.

Record SystemCheckResult := {
  checks : list check;
  warnings : list str;
  errors : list str;
  all_passed : bool;
}.

(** [SystemCheckResult()] *)
Definition empty : SystemCheckResult :=
  {| checks := []; warnings := []; errors := []; all_passed := true |}.

Definition CHECK_MARK : str := [0x2713%N].
Definition BALLOT_X : str := [0x2717%N].
Definition WARNING_SIGN : str := [0x26A0%N].

Definition add_check (self : SystemCheckResult) (name : str) (passed : bool)
    (message : str) (critical : bool) : SystemCheckResult :=
  let status := if passed then CHECK_MARK else BALLOT_X in
  let checks' :=
    checks self ++ [{| name := name; passed := passed; message := message;
                       critical := critical; status := status |}] in
  if passed then
    {| checks := checks'; warnings := warnings self; errors := errors self;
       all_passed := all_passed self |}
  else if critical then
    {| checks := checks'; warnings := warnings self;
       errors := errors self ++ [status ++ lit " " ++ name ++ lit ": " ++ message];
       all_passed := false |}
  else
    {| checks := checks';
       warnings := warnings self
                   ++ [WARNING_SIGN ++ lit " " ++ name ++ lit ": " ++ message];
       errors := errors self; all_passed := all_passed self |}.

(** Outcome of [__import__(name)]. *)
Inductive import_outcome :=
| Imported
| ImportError
| ImportCrashed.   (* an exception that is not an [ImportError] *)

Inductive run_exception := FileNotFoundError | TimeoutExpired | OtherRunError.

(** Outcome of [subprocess.run(cmd, ...)]; a raised exception comes
    with its text [str(e)]. *)
Inductive run_outcome :=
| Completed (returncode : Z) (stdout : list byte)
| RunRaised (kind : run_exception) (text : str).

Section Checks.
Variable import_module : str -> import_outcome.
Variable subprocess_run : list str -> run_outcome.
(** [str(e)] of the [UnicodeDecodeError] raised by decoding an output. *)
Variable decode_error_text : list byte -> str.

Definition check_python_package (package_name : str) (import_name : option str)
  : exn + (bool * str) :=
  let import_name := default package_name import_name in
  match import_module import_name with
  | Imported =>
    inr (true, lit "Python package '" ++ package_name ++ lit "' is installed")
  | ImportError =>
    inr (false, lit "Python package '" ++ package_name
                ++ lit "' is NOT installed. Run: pip install " ++ package_name)
  | ImportCrashed => inl OtherException
  end.

(** [text.split("\n")[0]] *)
Definition first_line (text : str) : str :=
  match py_split NL text with
  | l :: _ => l
  | [] => []
  end.

Definition check_system_binary (binary_name : str)
    (check_cmd : option (list str)) : bool * str :=
  let check_cmd := default [binary_name; lit "--version"] check_cmd in
  match subprocess_run check_cmd with
  | Completed returncode stdout =>
    if (returncode =? 0)%Z then
      match decode utf_8 stdout with
      | Some text =>
        (true, lit "System binary '" ++ binary_name ++ lit "' is installed: "
               ++ first_line (strip text))
      | None =>
        (false, lit "System binary '" ++ binary_name ++ lit "' check failed: "
                ++ decode_error_text stdout)
      end
    else
      (false, lit "System binary '" ++ binary_name
              ++ lit "' returned non-zero exit code")
  | RunRaised FileNotFoundError _ =>
    (false, lit "System binary '" ++ binary_name ++ lit "' is NOT found in PATH")
  | RunRaised TimeoutExpired _ =>
    (false, lit "System binary '" ++ binary_name ++ lit "' check timed out")
  | RunRaised OtherRunError text =>
    (false, lit "System binary '" ++ binary_name ++ lit "' check failed: " ++ text)
  end.

Definition check_tesseract_languages : bool * str :=
  match subprocess_run [lit "tesseract"; lit "--list-langs"] with
  | Completed returncode stdout =>
    if (returncode =? 0)%Z then
      match decode utf_8 stdout with
      | Some text =>
        let output := strip text in
        let languages := List.map strip (tail (py_split NL output)) in
        if bool_decide (lit "eng" ∈ languages) then
          (true, lit "Tesseract English language data is installed (Languages: "
                 ++ join (lit ", ") languages ++ lit ")")
        else
          (false, lit "Tesseract is installed but missing 'eng' language data. Available: "
                  ++ join (lit ", ") languages)
      | None =>
        (false, lit "Could not check Tesseract languages: "
                ++ decode_error_text stdout)
      end
    else (false, lit "Could not retrieve Tesseract language list")
  | RunRaised _ text =>
    (false, lit "Could not check Tesseract languages: " ++ text)
  end.

(** An exception of a step ends the run. *)
#[local] Instance exn_bind : MBind (sum exn) := fun A B k m =>
  match m with
  | inl e => inl e
  | inr a => k a
  end.

(** [result.add_check(name, *check_python_package(...), critical=...)] *)
Definition add_package_check (result : SystemCheckResult) (name package : str)
    (import_name : option str) (critical : bool) : exn + SystemCheckResult :=
  match check_python_package package import_name with
  | inl e => inl e
  | inr (passed, message) => inr (add_check result name passed message critical)
  end.

Definition run_system_check : exn + SystemCheckResult :=
  let result := empty in
  (* core Python packages *)
  result ← add_package_check result (lit "FastAPI") (lit "fastapi") None true;
  result ← add_package_check result (lit "LangChain") (lit "langchain") None true;
  result ← add_package_check result (lit "Pinecone") (lit "pinecone") None true;
  result ← add_package_check result (lit "Google GenAI")
             (lit "google-generativeai") (Some (lit "google.generativeai")) true;
  (* document processing packages *)
  result ← add_package_check result (lit "PyPDF2") (lit "PyPDF2") None true;
  result ← add_package_check result (lit "python-docx") (lit "python-docx")
             (Some (lit "docx")) true;
  result ← add_package_check result (lit "pdfplumber") (lit "pdfplumber") None false;
  (* OCR dependencies *)
  result ← add_package_check result (lit "pytesseract") (lit "pytesseract") None false;
  result ← add_package_check result (lit "pdf2image") (lit "pdf2image") None false;
  result ← add_package_check result (lit "Pillow") (lit "Pillow")
             (Some (lit "PIL")) false;
  (* system binaries *)
  let '(tesseract_passed, tesseract_msg) :=
    check_system_binary (lit "tesseract") None in
  let result := add_check result (lit "Tesseract OCR (system)")
                  tesseract_passed tesseract_msg false in
  let result :=
    if tesseract_passed then
      let '(passed, message) := check_tesseract_languages in
      add_check result (lit "Tesseract English Data") passed message false
    else result in
  let '(poppler_passed, poppler_msg) :=
    check_system_binary (lit "pdfinfo") None in
  inr (add_check result (lit "Poppler Utils (system)")
         poppler_passed poppler_msg false).

End Checks.
End SystemCheck.

(** ** Vocabulary of the further properties *)

Section Outcomes.
Context {float : Type}.

(** [raises_only Q m]: every exception raised by [m] satisfies [Q]. *)
Definition raises_only {A} (Q : exn -> Prop) (m : @M float A) : Prop :=
  forall (w : world float) e w', m w = (inl e, w') -> Q e.

(** Calls that an ingestion run can make: everything but the calls of
    the question-answering side and the deletion of index records. *)
Definition ingestion_call (ev : event float) : bool :=
  match ev with
  | EvEmbedQuery _ | EvIndexQuery _ _ _ | EvIndexDelete _ | EvGenerate _ _ =>
    false
  | _ => true
  end.

(** The step of the ingestion pipeline at which a call is made: saving
    the upload, extraction, splitting, embedding, storing, cleaning
    up; calls that are no part of an ingestion come last. *)
Definition phase (ev : event float) : nat :=
  match ev with
  | EvWriteBytes _ _ => 0
  | EvStage _ | EvReadText _ => 1
  | EvSplitText _ => 2
  | EvEmbedDocuments _ => 3
  | EvIndexUpsert _ => 4
  | EvRmtree _ => 5
  | EvEmbedQuery _ | EvIndexQuery _ _ _ | EvIndexDelete _ | EvGenerate _ _ => 6
  end.

(** [a] may be followed by [b]: [b] belongs to a later step, or both
    belong to the extraction or both to the storing step, the two steps
    that make several calls. *)
Definition precedes (a b : event float) : Prop :=
  phase a < phase b \/ (phase a = phase b /\ (phase a = 1 \/ phase a = 4)).

(** Every call of the list may be followed by all the later ones. *)
Fixpoint in_pipeline_order (evs : list (event float)) : Prop :=
  match evs with
  | [] => True
  | ev :: rest => Forall (precedes ev) rest /\ in_pipeline_order rest
  end.

(** [emits_phases lo hi m]: running [m] leaves the upload directory as
    it is and makes calls of the steps [lo] to [hi], in pipeline
    order. *)
Definition emits_phases {A} (lo hi : nat) (m : @M float A) : Prop :=
  forall w : world float,
    exists new,
      snd (m w) = log w new
      /\ in_pipeline_order new
      /\ Forall (fun ev => lo <= phase ev <= hi) new.

(** Calls that answering a question can make. *)
Definition retrieval_call (ev : event float) : bool :=
  match ev with
  | EvEmbedQuery _ | EvIndexQuery _ _ _ | EvGenerate _ _ => true
  | _ => false
  end.

(** What removing the local files of [doc] in the world [w1] leaves in
    [w']: when [doc] names a direct child of the upload directory, that
    directory is gone (if [rmtree] gets to remove it) and every other
    directory is as it was; otherwise the path names something else,
    and the document directories are those the disk is left with once
    that tree is removed, or all there when the path does not exist. *)
Definition local_deletion (env : backend float) (doc : str)
    (w1 w' : world float) : Prop :=
  match upload_child doc with
  | Some name =>
    (forall d : str, d <> name -> dirs w' !! d = dirs w1 !! d)
    /\ dirs w' !! name
       = (if rmtree_removes env then None else dirs w1 !! name)
  | None =>
    match rmtree_elsewhere env doc w1 with
    | Some remaining => dirs w' = remaining
    | None => w' = w1
    end
  end.

End Outcomes.

(** The error codes with which [process_document] fails. *)
Definition ingestion_error_codes : list string :=
  [ "UNSUPPORTED_FILE_TYPE"; "SAVE_FAILED"; "PASSWORD_PROTECTED";
    "CORRUPTED_FILE"; "EMPTY_DOCUMENT"; "EXTRACTION_FAILED";
    "INSUFFICIENT_CONTENT"; "EMPTY_CHUNKS"; "EMBEDDING_SERVICE_ERROR";
    "PINECONE_SERVICE_ERROR"; "UNKNOWN_ERROR" ].

(** The byte-order mark U+FEFF and its UTF-8 encoding. *)
Definition BOM : N := 0xFEFF.
Definition BOM_UTF8 : list byte := [xef; xbb; xbf].

(** ** More sample files *)

Definition missing_txt : Path :=
  {| path_name := lit "gone.txt"; path_stat := Missing |}.

(** A path whose name of 304 characters no file system accepts. *)
Definition long_named_txt : Path :=
  {| path_name := repeat 0x61%N 300 ++ lit ".txt"; path_stat := Unstatable |}.

(** An executable. *)
Definition tool_exe : Path :=
  {| path_name := lit "tool.exe"; path_stat := Regular (bytes_of "MZ") |}.

(** A text file saved with a byte-order mark. *)
Definition bom_txt : Path :=
  {| path_name := lit "bom.txt";
     path_stat := Regular (BOM_UTF8 ++ bytes_of "hi") |}.

(** A file whose single byte is not valid UTF-8. *)
Definition binary_txt : Path :=
  {| path_name := lit "binary.txt"; path_stat := Regular [xff] |}.

(** A file of a space and a newline. *)
Definition blank_txt : Path :=
  {| path_name := lit "blank.txt"; path_stat := Regular [x20; x0a] |}.

(** The ingestion of the prose upload: its report and the world it
    leaves. *)
Definition prose_result : processing_result :=
  {| res_document_id := sample_id;
     res_file_name := lit "prose.txt";
     res_num_chunks := 1;
     res_total_characters := 80;
     res_status := lit "success" |}.

Definition prose_ingested : world Z :=
  snd (process_document prose_backend sample_id (bytes_of prose)
         (lit "prose.txt") (lit "user_1") empty_world).

(** A file name of 304 characters, which the sample disk refuses. *)
Definition long_name : str := repeat 0x61%N 300 ++ lit ".txt".

(** The world left by the upload [other_id] of a file under that name,
    made while the upload of ["doc_1"] is on disk. *)
Definition save_refused : world Z :=
  snd (process_document prose_backend other_id ten_chars
         long_name (lit "user_1") world_with_upload).

(** ** More sample collaborators *)

(** [env] with another index behind [upsert]. *)
Definition with_index_upsert (env : backend Z)
    (upsert : list (str * list Z * gmap string pyval) -> call unit)
  : backend Z :=
  {| suffix_lower := suffix_lower env;
     base_name := base_name env;
     stat_raises := stat_raises env;
     mkdir := mkdir env;
     write_bytes := write_bytes env;
     rmtree_removes := rmtree_removes env;
     rmtree_elsewhere := rmtree_elsewhere env;
     pypdf2_installed := pypdf2_installed env;
     pypdf2_errors_importable := pypdf2_errors_importable env;
     PdfReader := PdfReader env;
     pdfplumber_installed := pdfplumber_installed env;
     pdfplumber_open := pdfplumber_open env;
     ocr_installed := ocr_installed env;
     convert_from_path := convert_from_path env;
     docx_installed := docx_installed env;
     DocxDocument := DocxDocument env;
     split_text := split_text env;
     aembed_query := aembed_query env;
     aembed_documents := aembed_documents env;
     index_upsert := upsert;
     index_query := index_query env;
     index_delete := index_delete env;
     chain_ainvoke := chain_ainvoke env;
     float_zero := float_zero env;
     format_4f := format_4f env;
     round_4 := round_4 env;
     TOP_K := TOP_K env |}.

(** [env] with another PyPDF2: whether its modules can be imported,
    and what [PdfReader] does. *)
Definition with_pdf_library (env : backend Z) (installed : bool)
    (reader : list byte -> pdf_call pdf_reader) : backend Z :=
  {| suffix_lower := suffix_lower env;
     base_name := base_name env;
     stat_raises := stat_raises env;
     mkdir := mkdir env;
     write_bytes := write_bytes env;
     rmtree_removes := rmtree_removes env;
     rmtree_elsewhere := rmtree_elsewhere env;
     pypdf2_installed := installed;
     pypdf2_errors_importable := installed;
     PdfReader := reader;
     pdfplumber_installed := pdfplumber_installed env;
     pdfplumber_open := pdfplumber_open env;
     ocr_installed := ocr_installed env;
     convert_from_path := convert_from_path env;
     docx_installed := docx_installed env;
     DocxDocument := DocxDocument env;
     split_text := split_text env;
     aembed_query := aembed_query env;
     aembed_documents := aembed_documents env;
     index_upsert := index_upsert env;
     index_query := index_query env;
     index_delete := index_delete env;
     chain_ainvoke := chain_ainvoke env;
     float_zero := float_zero env;
     format_4f := format_4f env;
     round_4 := round_4 env;
     TOP_K := TOP_K env |}.

(** PyPDF2 is not installed. *)
Definition no_pypdf2_backend : backend Z :=
  with_pdf_library scanned_backend false (PdfReader scanned_backend).

(** [PdfReader] raises [PdfReadError] on every file. *)
Definition broken_pdf_backend : backend Z :=
  with_pdf_library scanned_backend true (fun _ => Raised true).

(** One page without a text layer, and nothing for the OCR to read. *)
Definition textless_backend : backend Z :=
  sample_backend [Returns []] [] [] true.

(** A Pinecone client on which the new index never becomes ready. *)
Definition never_ready : index_admin :=
  {| list_indexes := Returns [lit "other-index"];
     create_index := Returns tt;
     describe_index := fun _ => Returns false |}.

(** An index that accepts full batches only. *)
Definition full_batches_backend : backend Z :=
  with_index_upsert prose_backend
    (fun batch => if (length batch <? 100)%nat then Raises else Returns tt).

(** 101 records. *)
Definition many_vectors : list (vector Z) :=
  List.map (fun i => {| vec_id := sample_id ++ lit "_chunk_" ++ str_of_nat i;
                        vec_values := [Z.of_nat i];
                        vec_metadata := ∅ |})
    (seq 0 101).

(** A question put to an index that answers with [sample_matches]; the
    sample generator answers with the question itself. *)
Definition answering_backend : backend Z :=
  sample_backend [] [] sample_matches true.

Definition sample_question : str := lit "What is it?".

Definition sample_query_matches : list (@query_match Z) :=
  List.map (fun m => {| match_id := raw_id m;
                        match_score := raw_score m;
                        match_metadata := default ∅ (raw_metadata m) |})
    sample_matches.

Definition sample_context : str :=
  join ([NL; NL] ++ lit "---" ++ [NL; NL])
    (imap (fun i m => context_part answering_backend (S i) m)
       sample_query_matches).

(** The error codes with which the upload route refuses a request
    before the ingestion pipeline is started. *)
Definition upload_refusal_codes : list string :=
  [ "INVALID_FILE"; "UNSUPPORTED_FILE_TYPE"; "READ_FAILED"; "EMPTY_FILE";
    "FILE_TOO_LARGE"; "SERVICE_UNAVAILABLE" ].

(** The HTTP status the upload route gives to an error code. *)
Definition upload_error_status (error_code : string) : nat :=
  if bool_decide (error_code = "FILE_TOO_LARGE") then 413
  else if bool_decide (error_code = "SERVICE_UNAVAILABLE") then 503
  else 400.

(** The settings of [config.py] as shipped, and ASCII lower-casing. *)
Definition default_settings : Settings :=
  {| ALLOWED_EXTENSIONS := lit "pdf,docx,txt"; MAX_FILE_SIZE_MB := 50 |}.

Definition ascii_lower (s : str) : str := List.map sample_lower s.

(** ** Vocabulary of the dependency report *)

(** A fresh report after the given calls of [add_check], each with its
    name, outcome, message and criticality. *)
Definition record_checks (entries : list (str * bool * str * bool))
  : SystemCheck.SystemCheckResult :=
  fold_left (fun result '(name, passed, message, critical) =>
               SystemCheck.add_check result name passed message critical)
    entries SystemCheck.empty.

(** A failed check; [critical] selects the critical or the optional
    ones. *)
Definition failed_check (critical : bool) (entry : str * bool * str * bool)
  : bool :=
  let '(_, passed, _, c) := entry in negb passed && Bool.eqb c critical.

(** The modules whose import [run_system_check] treats as critical. *)
Definition core_imports : list str :=
  [ lit "fastapi"; lit "langchain"; lit "pinecone";
    lit "google.generativeai"; lit "PyPDF2"; lit "docx" ].

(** A machine with the core packages and nothing of the OCR tooling. *)
Definition bare_imports (module : str) : SystemCheck.import_outcome :=
  if bool_decide (module ∈ core_imports) then SystemCheck.Imported
  else SystemCheck.ImportError.

Definition no_binaries (cmd : list str) : SystemCheck.run_outcome :=
  SystemCheck.RunRaised SystemCheck.FileNotFoundError
    (lit "No such file or directory").

(** ** test_document_processing.py: the file helper *)

(** [create_test_txt_file]: [path.write_text(content, encoding="utf-8")]
    on a system that writes newlines as they are; the result is the
    path as it is afterwards, [None] when the text cannot be encoded
    ([UnicodeEncodeError]). *)
Definition create_test_txt_file (content : str) (name : str) : option Path :=
  (fun bs => {| path_name := name; path_stat := Regular bs |})
    <$> encode_utf8 content.

(** The world after the ingested prose document is deleted again. *)
Definition prose_deleted : world Z :=
  snd (delete_document prose_backend (lit "user_1") sample_id
         prose_ingested).

(** ** test_document_processing.py: the result tracker *)

Module TestSuite.

Record test := { name : str; status : str; message : str }.

Record TestResult := {
  tests : list test;
  passed : nat;
  failed : nat;
  skipped : nat;
}.

(** [TestResult()] *)
Definition empty : TestResult :=
  {| tests := []; passed := 0; failed := 0; skipped := 0 |}.

Definition SKIP : str := [0x229D%N] ++ lit " SKIP".
Definition PASS : str := [0x2713%N] ++ lit " PASS".
Definition FAIL : str := [0x2717%N] ++ lit " FAIL".

Definition add_test (self : TestResult) (test_name : str) (test_passed : bool)
    (test_message : str) (test_skipped : bool) : TestResult :=
  let entry status :=
    {| name := test_name; status := status; message := test_message |} in
  if test_skipped then
    {| tests := tests self ++ [entry SKIP]; passed := passed self;
       failed := failed self; skipped := skipped self + 1 |}
  else if test_passed then
    {| tests := tests self ++ [entry PASS]; passed := passed self + 1;
       failed := failed self; skipped := skipped self |}
  else
    {| tests := tests self ++ [entry FAIL]; passed := passed self;
       failed := failed self + 1; skipped := skipped self |}.

Definition RULE : str := repeat 0x3D%N 70.

(** [print_report]: the arguments of its [print] calls, in order, and
    the value it returns. *)
Definition print_report (self : TestResult) : list str * bool :=
  ([ [NL] ++ RULE;
     lit "HACK HUNTERS - Document Processing Test Report";
     RULE ]
   ++ flat_map (fun t =>
        (status t ++ lit " " ++ name t)
        :: (if truthy (message t)
            then [lit "    " ++ [0x2192%N] ++ lit " " ++ message t]
            else []))
      (tests self)
   ++ [ [NL] ++ RULE;
        lit "Total: " ++ str_of_nat (length (tests self))
        ++ lit " | Passed: " ++ str_of_nat (passed self)
        ++ lit " | Failed: " ++ str_of_nat (failed self)
        ++ lit " | Skipped: " ++ str_of_nat (skipped self);
        if (failed self =? 0)%nat
        then [0x2713%N] ++ lit " ALL TESTS PASSED"
        else [0x2717%N] ++ lit " SOME TESTS FAILED";
        RULE ++ [NL] ],
   (failed self =? 0)%nat).

End TestSuite.

(** A fresh tracker after the given calls of [add_test], each with its
    name, outcome, message and skip flag. *)
Definition record_tests (entries : list (str * bool * str * bool))
  : TestSuite.TestResult :=
  fold_left (fun result '(name, passed, message, skipped) =>
               TestSuite.add_test result name passed message skipped)
    entries TestSuite.empty.

(** How [add_test] counts an entry. *)
Inductive verdict := Passed | Failed | Skipped.

Definition verdict_of (entry : str * bool * str * bool) : verdict :=
  let '(_, passed, _, skipped) := entry in
  if skipped then Skipped else if passed then Passed else Failed.

Definition has_verdict (v : verdict) (entry : str * bool * str * bool) : bool :=
  match v, verdict_of entry with
  | Passed, Passed | Failed, Failed | Skipped, Skipped => true
  | _, _ => false
  end.

Definition count_verdict (v : verdict) (entries : list (str * bool * str * bool))
  : nat :=
  length (List.filter (has_verdict v) entries).

(** ** A sample Word document *)

(** A document with a blank paragraph, a heading, and a table of one
    row with an empty cell between two words. *)
Definition sample_docx : docx_document :=
  {| paragraphs := [lit "  "; lit " Minutes "];
     tables := [[[lit "date"; []; lit " place"]]] |}.

Definition docx_backend : backend Z :=
  {| suffix_lower := suffix_lower prose_backend;
     base_name := base_name prose_backend;
     stat_raises := stat_raises prose_backend;
     mkdir := mkdir prose_backend;
     write_bytes := write_bytes prose_backend;
     rmtree_removes := rmtree_removes prose_backend;
     rmtree_elsewhere := rmtree_elsewhere prose_backend;
     pypdf2_installed := pypdf2_installed prose_backend;
     pypdf2_errors_importable := pypdf2_errors_importable prose_backend;
     PdfReader := PdfReader prose_backend;
     pdfplumber_installed := pdfplumber_installed prose_backend;
     pdfplumber_open := pdfplumber_open prose_backend;
     ocr_installed := ocr_installed prose_backend;
     convert_from_path := convert_from_path prose_backend;
     docx_installed := true;
     DocxDocument := fun _ => DocxOpened (Returns sample_docx);
     split_text := split_text prose_backend;
     aembed_query := aembed_query prose_backend;
     aembed_documents := aembed_documents prose_backend;
     index_upsert := index_upsert prose_backend;
     index_query := index_query prose_backend;
     index_delete := index_delete prose_backend;
     chain_ainvoke := chain_ainvoke prose_backend;
     float_zero := float_zero prose_backend;
     format_4f := format_4f prose_backend;
     round_4 := round_4 prose_backend;
     TOP_K := TOP_K prose_backend |}.

Definition minutes_docx : Path :=
  {| path_name := lit "minutes.docx"; path_stat := Regular (bytes_of "PK") |}.

(** * Properties *)

(** ** Strings *)

Lemma truthy_false {A} (l : list A) : truthy l = false <-> l = [].
Proof. destruct l; simpl; split; congruence. Qed.

Lemma truthy_true {A} (l : list A) : truthy l = true <-> l <> [].
Proof. destruct l; simpl; split; congruence. Qed.

Lemma lstrip_nil (s : str) : lstrip s = [] <-> forallb isspace s = true.
Proof.
  induction s as [|c r IH]; simpl; [tauto|].
  destruct (isspace c); simpl; [exact IH|].
  split; discriminate.
Qed.

Lemma lstrip_spaces (s : str) :
  forallb isspace (lstrip s) = true -> lstrip s = [].
Proof.
  induction s as [|c r IH]; simpl; [reflexivity|].
  destruct (isspace c) eqn:Hc; [exact IH|].
  simpl. rewrite Hc. discriminate.
Qed.

Lemma forallb_rev {A} (f : A -> bool) (l : list A) :
  forallb f (rev l) = forallb f l.
Proof.
  induction l as [|a l IH]; simpl; [reflexivity|].
  rewrite forallb_app, IH. simpl. rewrite andb_true_r. apply andb_comm.
Qed.

(** A string strips to nothing exactly when it is empty or consists of
    whitespace only. *)
Lemma strip_nil (s : str) : strip s = [] <-> forallb isspace s = true.
Proof.
  unfold strip, rstrip. rewrite <- lstrip_nil. split.
  - intros H. apply (f_equal (@rev N)) in H. rewrite rev_involutive in H.
    simpl in H. apply lstrip_nil in H. rewrite forallb_rev in H.
    now apply lstrip_spaces.
  - intros ->. reflexivity.
Qed.

Lemma has_text_strip (t : str) : has_text t = truthy (strip t).
Proof. unfold has_text. destruct t; reflexivity. Qed.

Lemma has_text_false (t : str) :
  has_text t = false <-> forallb isspace t = true.
Proof. rewrite has_text_strip, truthy_false. apply strip_nil. Qed.

Lemma strip_all_space (s : str) :
  forallb isspace (strip s) = true -> strip s = [].
Proof.
  unfold strip, rstrip. rewrite forallb_rev. intros H.
  now rewrite (lstrip_spaces _ H).
Qed.

Lemma has_text_of_strip (s : str) : strip s <> [] -> has_text (strip s) = true.
Proof.
  intros H. destruct (has_text (strip s)) eqn:E; [reflexivity|].
  apply has_text_false, strip_all_space in E. contradiction.
Qed.

Lemma clean_text_strip (text : str) :
  (if truthy text then strip text else []) = strip text.
Proof. destruct text; reflexivity. Qed.

Lemma clears_threshold_length (text : str) :
  clears_threshold text = (50 <=? length (strip text))%nat.
Proof.
  unfold clears_threshold, _MIN_TEXT_LENGTH.
  destruct text; [reflexivity|]. reflexivity.
Qed.

(** ** Generated identifiers as directory names *)

Lemma py_split_no_sep (sep : N) (s : str) :
  Forall (fun c => c <> sep) s -> py_split sep s = [s].
Proof.
  induction s as [|c s IH]; intros H; [reflexivity|].
  apply Forall_cons in H as [Hc Hs]. cbn [py_split].
  apply N.eqb_neq in Hc. rewrite Hc. now rewrite (IH Hs).
Qed.

(** A name of three characters or more without a slash is a direct
    child of the upload directory under that very name. *)
Lemma upload_child_plain (s : str) :
  Forall (fun c => c <> SLASH) s -> 2 < length s -> upload_child s = Some s.
Proof.
  intros Hs Hlen. unfold upload_child, path_parts.
  rewrite (py_split_no_sep _ _ Hs).
  destruct s as [|c [|c1 [|c2 s]]]; cbn [length] in Hlen; try lia.
  apply Forall_cons in Hs as [Hc _]. cbn [head].
  rewrite bool_decide_eq_false_2 by (intros [= E]; now apply Hc).
  cbn [List.filter truthy andb].
  rewrite (bool_decide_eq_false_2 (_ = [DOT])) by discriminate.
  cbn [negb]. now rewrite bool_decide_eq_false_2 by discriminate.
Qed.

Lemma hex_digit_not_slash (d : N) : hex_digit d <> SLASH.
Proof.
  unfold hex_digit, SLASH. destruct (N.ltb_spec d 10); lia.
Qed.

Lemma hex_field_no_slash (n : N) (low count : nat) :
  Forall (fun c => c <> SLASH) (hex_field n low count).
Proof.
  unfold hex_field. apply List.Forall_map, Forall_forall.
  intros i _. apply hex_digit_not_slash.
Qed.

Lemma UUID_str_no_slash (u : UUID) : Forall (fun c => c <> SLASH) (UUID_str u).
Proof.
  unfold UUID_str.
  repeat (apply Forall_app; split);
    try apply hex_field_no_slash; now repeat constructor.
Qed.

Lemma UUID_str_length (u : UUID) : length (UUID_str u) = 36.
Proof. reflexivity. Qed.

(** The text of a UUID names a direct child of the upload directory. *)
Lemma upload_child_UUID (u : UUID) : upload_child u = Some (u : str).
Proof.
  apply upload_child_plain; [apply UUID_str_no_slash|].
  rewrite UUID_str_length. lia.
Qed.

(** The text of a UUID, and how a few identifiers are joined to the
    upload directory. *)
Example identifier_checks :
  (sample_id : str) = lit "550e8400-e29b-41d4-a716-446655440000"
  /\ upload_child (lit "doc_1") = Some (lit "doc_1")
  /\ upload_child (lit "./doc_1/") = Some (lit "doc_1")
  /\ upload_child (lit "") = None
  /\ upload_child (lit ".") = None
  /\ upload_child (lit "..") = None
  /\ upload_child (lit "doc_1/a.txt") = None
  /\ upload_child (lit "/tmp") = None.
Proof. vm_compute. repeat split. Qed.

(** File names on the sample backend: [Path(p).name] and
    [Path(p).suffix.lower()]. *)
Example file_name_checks :
  sample_name (lit "reports/2024/Q1.PDF") = lit "Q1.PDF"
  /\ suffix_lower prose_backend (lit "reports/2024/Q1.PDF") = lit ".pdf"
  /\ suffix_lower prose_backend (lit "archive.tar.gz") = lit ".gz"
  /\ suffix_lower prose_backend (lit ".pdf") = []
  /\ suffix_lower prose_backend (lit "notes.") = []
  /\ suffix_lower prose_backend (lit "notes") = [].
Proof. vm_compute. repeat split. Qed.

(** ** Running monadic code *)

Section Running.
Context {float : Type}.
Implicit Types w : world float.

Lemma log_nil w : log w [] = w.
Proof. destruct w. unfold log. simpl. now rewrite app_nil_r. Qed.

Lemma log_log w evs evs' : log (log w evs) evs' = log w (evs ++ evs').
Proof. unfold log. simpl. now rewrite app_assoc. Qed.

Lemma emit_log (ev : event float) w : emit ev w = (inr tt, log w [ev]).
Proof. reflexivity. Qed.

Lemma bind_inr {A B} (m : M A) (k : A -> M B) w a w' :
  m w = (inr a, w') -> bind m k w = k a w'.
Proof. unfold bind. now intros ->. Qed.

Lemma bind_inl {A B} (m : M A) (k : A -> M B) w e w' :
  m w = (inl e, w') -> bind m k w = (inl e, w').
Proof. unfold bind. now intros ->. Qed.

Lemma catch_inr {A} (m : M A) (h : exn -> M A) w a w' :
  m w = (inr a, w') -> catch m h w = (inr a, w').
Proof. unfold catch. now intros ->. Qed.

Lemma catch_inl {A} (m : M A) (h : exn -> M A) w e w' :
  m w = (inl e, w') -> catch m h w = h e w'.
Proof. unfold catch. now intros ->. Qed.

Lemma external_returns {A} (ev : event float) (a : A) w :
  external ev (Returns a) w = (inr a, log w [ev]).
Proof. reflexivity. Qed.

Lemma external_raises {A} (ev : event float) w :
  external ev (@Raises A) w = (inl OtherException, log w [ev]).
Proof. reflexivity. Qed.

End Running.

(** ** Vector-record identifiers *)

Section Identifiers.
Context {float : Type}.

Lemma prepare_vectors_ids_from (document_id user_id file_name : str)
    (l : list (str * list float)) (k : nat) :
  List.map vec_id
    (imap (fun idx '(chunk, embedding) =>
       {| vec_id := document_id ++ lit "_chunk_" ++ str_of_nat (k + idx);
          vec_values := embedding;
          vec_metadata :=
            list_to_map
              [ ("user_id", PStr user_id);
                ("document_id", PStr document_id);
                ("file_name", PStr file_name);
                ("chunk_index", PInt (Z.of_nat (k + idx)));
                ("text", PStr chunk) ] |}) l)
  = List.map (fun i => document_id ++ lit "_chunk_" ++ str_of_nat i)
      (seq k (length l)).
Proof.
  revert k. induction l as [|[c e] l IH]; intros k; [reflexivity|].
  cbn [imap List.map seq length vec_id]. rewrite Nat.add_0_r. f_equal.
  rewrite <- (IH (S k)). f_equal. apply imap_ext.
  intros i [c' e'] _. cbn [compose]. now rewrite Nat.add_succ_r.
Qed.

(** C10. The identifiers of the records built by [_prepare_vectors]
    are, in order, [document_id ++ "_chunk_" ++ str(chunk_index)] for
    chunk_index = 0, 1, ...: an identifier is a function of the document
    id and the chunk index alone, so preparing the vectors of the same
    document id again (whatever the chunk texts, embeddings, user or
    file name) yields the same identifiers. *)
Theorem prepare_vectors_ids_deterministic
    (chunks : list str) (embeddings : list (list float))
    (user_id document_id file_name : str) :
  List.map vec_id
    (_prepare_vectors chunks embeddings user_id document_id file_name)
  = List.map
      (fun chunk_index => document_id ++ lit "_chunk_" ++ str_of_nat chunk_index)
      (seq 0 (length (zip chunks embeddings)))
  /\ forall (chunks' : list str) (embeddings' : list (list float))
       (user_id' file_name' : str),
       length (zip chunks' embeddings') = length (zip chunks embeddings) ->
       List.map vec_id
         (_prepare_vectors chunks' embeddings' user_id' document_id file_name')
       = List.map vec_id
           (_prepare_vectors chunks embeddings user_id document_id file_name).
Proof.
  assert (Hids : forall cs (es : list (list float)) u f,
    List.map vec_id (_prepare_vectors cs es u document_id f)
    = List.map (fun i => document_id ++ lit "_chunk_" ++ str_of_nat i)
        (seq 0 (length (zip cs es)))).
  { intros cs es u f. unfold _prepare_vectors.
    exact (prepare_vectors_ids_from document_id u f (zip cs es) 0). }
  split; [apply Hids|].
  intros cs' es' u' f' Hlen. now rewrite !Hids, Hlen.
Qed.

End Identifiers.

(** A run of the theorem: two chunks re-prepared with other contents
    receive the identifiers ["doc_chunk_0"] and ["doc_chunk_1"] again. *)
Lemma prepare_vectors_ids_deterministic_witness :
  List.map vec_id
    (_prepare_vectors [lit "new a"; lit "new b"] [[1%Z]; [2%Z]]
       (lit "bob") (lit "doc") (lit "b.txt"))
  = List.map vec_id
      (_prepare_vectors [lit "a"; lit "b"] [[7%Z]; [8%Z]]
         (lit "ann") (lit "doc") (lit "a.txt"))
  /\ List.map vec_id
       (_prepare_vectors [lit "a"; lit "b"] [[7%Z]; [8%Z]]
          (lit "ann") (lit "doc") (lit "a.txt"))
     = [lit "doc_chunk_0"; lit "doc_chunk_1"].
Proof.
  split.
  - apply (proj2 (prepare_vectors_ids_deterministic
                    [lit "a"; lit "b"] [[7%Z]; [8%Z]]
                    (lit "ann") (lit "doc") (lit "a.txt"))).
    reflexivity.
  - reflexivity.
Defined.

(** ** Batch embedding *)

Section Embedding.
Context {float : Type} (env : backend float).

Lemma filter_has_text (texts : list str) :
  List.filter has_text texts
  = List.filter (fun t => negb (forallb isspace t)) texts.
Proof.
  induction texts as [|t texts IH]; [reflexivity|]. simpl. rewrite IH.
  destruct (has_text t) eqn:Ht.
  - destruct (forallb isspace t) eqn:Hs; [|reflexivity].
    apply has_text_false in Hs. congruence.
  - apply has_text_false in Ht. now rewrite Ht.
Qed.

Lemma filter_nil_iff {A} (f : A -> bool) (l : list A) :
  List.filter f l = [] <-> Forall (fun x => f x = false) l.
Proof.
  induction l as [|a l IH]; simpl.
  - split; [constructor|reflexivity].
  - destruct (f a) eqn:Ha.
    + split; [discriminate|]. intros H. inversion H; congruence.
    + rewrite IH. split; [now constructor|]. intros H. now inversion H.
Qed.

Lemma filter_sublist {A} (f : A -> bool) (l : list A) :
  sublist (List.filter f l) l.
Proof.
  induction l as [|a l IH]; simpl; [constructor|].
  destruct (f a); now constructor.
Qed.

(** C7. [embed_texts] hands the model the input list with its empty or
    whitespace-only entries removed, the survivors in their original
    order, in one call; it raises [ValueError] exactly when the input
    list is empty or all of its entries are empty or whitespace-only,
    and in that case the model is not called. *)
Theorem embed_texts_drops_blank_entries (texts : list str)
    (w : world float) :
  let valid_texts :=
    List.filter (fun t => negb (forallb isspace t)) texts in
  (fst (embed_texts env texts w) = inl ValueError
   <-> texts = [] \/ Forall (fun t => forallb isspace t = true) texts)
  /\ sublist valid_texts texts
  /\ snd (embed_texts env texts w)
     = match valid_texts with
       | [] => w
       | _ => log w [EvEmbedDocuments valid_texts]
       end.
Proof.
  intros valid_texts.
  assert (Hv : List.filter has_text texts = valid_texts)
    by apply filter_has_text.
  assert (Hnil : valid_texts = []
                 <-> Forall (fun t => forallb isspace t = true) texts).
  { unfold valid_texts. rewrite filter_nil_iff. apply Forall_iff.
    intros t. destruct (forallb isspace t); simpl; split; congruence. }
  split; [|split].
  - unfold embed_texts. rewrite Hv.
    destruct texts as [|t texts']; simpl truthy; cbn [negb].
    { simpl. split; [now left|reflexivity]. }
    destruct valid_texts as [|v vs] eqn:Ev; simpl truthy; cbn [negb].
    { simpl. split; [intros _; right; now apply Hnil|reflexivity]. }
    unfold catch, external, bind, emit, ret, raise.
    split.
    + destruct (aembed_documents env (v :: vs)); simpl; discriminate.
    + intros [H|H]; [discriminate|]. apply Hnil in H. discriminate.
  - apply filter_sublist.
  - unfold embed_texts. rewrite Hv.
    destruct texts as [|t texts']; [reflexivity|].
    simpl truthy; cbn [negb].
    destruct valid_texts as [|v vs] eqn:Ev; simpl truthy; cbn [negb];
      [reflexivity|].
    unfold catch, external, bind, emit, ret, raise.
    destruct (aembed_documents env (v :: vs)); reflexivity.
Qed.

End Embedding.

(** ** Retrieval without matches *)

Section Retrieval.
Context {float : Type} (env : backend float).

(** C4. When the question has text, its embedding is computed, and the
    index query filtered by user and document returns no match,
    [ask_question] returns the fixed answer with no sources and
    [num_sources = 0]; the only external calls of the run are the
    question embedding and the index query, so the generation chain is
    not invoked. *)
Theorem ask_question_no_match (question user_id document_id : str)
    (w : world float) (query_vector : list float)
    (results : option (list (raw_match float))) :
  has_text question = true ->
  aembed_query env question = Returns query_vector ->
  index_query env query_vector (TOP_K env)
    (document_filter user_id document_id) = Returns results ->
  matches_of results = [] ->
  ask_question env question user_id document_id w
  = (inr {| ans_answer := lit "Answer not found in the uploaded document.";
            ans_sources := [];
            ans_num_sources := 0;
            ans_question := question |},
     log w [EvEmbedQuery question;
            EvIndexQuery query_vector (TOP_K env)
              (document_filter user_id document_id)]).
Proof.
  intros Hq Hembed Hquery Hnone.
  unfold ask_question, embed_text, query. rewrite Hq. cbn [negb].
  assert (Hk : match TOP_K env with Npos p => Npos p | _ => TOP_K env end
               = TOP_K env) by now destruct (TOP_K env).
  rewrite Hk, Hembed.
  cbv beta iota delta [catch bind external emit ret raise].
  rewrite Hquery. cbv beta iota. rewrite Hnone. cbn [List.map truthy negb].
  unfold log. cbn [dirs trace]. now rewrite <- app_assoc.
Qed.

End Retrieval.

(** The theorem on the sample backend with an empty index. *)
Lemma ask_question_no_match_witness :
  ask_question (sample_backend [] [] [] true)
    (lit "What is the refund policy?") (lit "user_1") (lit "doc_1")
    empty_world
  = (inr {| ans_answer := lit "Answer not found in the uploaded document.";
            ans_sources := [];
            ans_num_sources := 0;
            ans_question := lit "What is the refund policy?" |},
     log empty_world
       [EvEmbedQuery (lit "What is the refund policy?");
        EvIndexQuery [26%Z] 5%N (document_filter (lit "user_1") (lit "doc_1"))]).
Proof.
  apply (ask_question_no_match (sample_backend [] [] [] true)
           (lit "What is the refund policy?") (lit "user_1") (lit "doc_1")
           empty_world [26%Z] (Some [])); reflexivity.
Defined.

(** ** Deleting a document *)

Section Deletion.
Context {float : Type} (env : backend float).

(** C5 (amended). [delete_document] first asks the index to delete the
    document's records. If that call fails the failure is raised as a
    [RuntimeError] and nothing else is done: the local directory is not
    touched. If it succeeds, the path [upload_dir / document_id] is
    examined. When the operating system refuses the path (a
    [document_id] too long for a file name), the error of
    [doc_dir.exists()] is raised after the records are gone and no
    status is returned. Otherwise the call returns the status
    ["deleted"] in every case: nothing is done when the path does not
    exist, and an existing path is removed, errors of the removal being
    ignored. For a [document_id] that names a direct child of the
    upload directory the tree removed is that document's directory and
    no other; for any other [document_id] (["."], [".."], a path with
    several components, an absolute path) it is whatever the joined
    path names, and the document directories that remain are those the
    disk is left with. *)
Theorem delete_document_sequence (user_id document_id : str)
    (w : world float) :
  let flt := document_filter user_id document_id in
  let w1 := log w [EvIndexDelete flt] in
  let removal := trace w ++ [EvIndexDelete flt; EvRmtree document_id] in
  delete_document env user_id document_id w
  = match index_delete env flt with
    | Raises => (inl RuntimeError, w1)
    | Returns _ =>
      if stat_raises env document_id then (inl OtherException, w1)
      else
        (inr {| del_document_id := document_id; del_status := lit "deleted" |},
         match upload_child document_id with
         | Some name =>
           match dirs w !! name with
           | None => w1
           | Some _ =>
             {| dirs := if rmtree_removes env then delete name (dirs w)
                        else dirs w;
                trace := removal |}
           end
         | None =>
           match rmtree_elsewhere env document_id w1 with
           | None => w1
           | Some remaining => {| dirs := remaining; trace := removal |}
           end
         end)
    end.
Proof.
  intros flt w1 removal. unfold delete_document, delete_by_document, _delete_file.
  fold flt.
  cbv beta iota delta
    [catch bind external emit ret raise get_dirs set_dirs get_world].
  destruct (index_delete env flt) as [|[]]; [reflexivity|].
  cbv beta iota. cbn [dirs trace].
  destruct (stat_raises env document_id); [reflexivity|].
  destruct (upload_child document_id) as [name|]; cbv beta iota; cbn [dirs trace].
  - destruct (dirs w !! name); [|reflexivity].
    unfold removal.
    destruct (rmtree_removes env); cbn [dirs trace]; now rewrite <- app_assoc.
  - change {| dirs := dirs w; trace := trace w ++ [EvIndexDelete flt] |} with w1.
    destruct (rmtree_elsewhere env document_id w1); [|reflexivity].
    unfold removal, w1. cbn [dirs trace log]. now rewrite <- app_assoc.
Qed.

End Deletion.

(** C5 (as stated) fails: the two deletions are not independent. When
    the index refuses the deletion of a document that has a local
    directory, [delete_document] raises [RuntimeError] without having
    attempted the local deletion. *)
Lemma delete_document_index_failure_skips_local :
  fst (delete_document (sample_backend [] [] [] false)
         (lit "user_1") (lit "doc_1") world_with_upload)
  = inl RuntimeError
  /\ ~ attempts_both_deletions (sample_backend [] [] [] false)
        (lit "user_1") (lit "doc_1") world_with_upload.
Proof.
  split; [vm_compute; reflexivity|].
  intros [_ H].
  assert (Hdir : dirs world_with_upload !! lit "doc_1" <> None)
    by (vm_compute; discriminate).
  apply H, list_elem_of_In in Hdir. vm_compute in Hdir.
  destruct Hdir as [Hdir|[]]. discriminate.
Qed.

(** On the sample disk the identifier ["."] names the upload directory
    itself: deleting it removes the upload of ["doc_1"] as well. *)
Example delete_document_dot :
  delete_document (sample_backend [] [] [] true) (lit "user_1") (lit ".")
    world_with_upload
  = (inr {| del_document_id := lit "."; del_status := lit "deleted" |},
     {| dirs := ∅;
        trace := [EvIndexDelete (document_filter (lit "user_1") (lit "."));
                  EvRmtree (lit ".")] |}).
Proof. vm_compute. reflexivity. Qed.

(** An identifier of 300 characters: the index deletes the records,
    then [doc_dir.exists()] raises and no status is returned. *)
Example delete_document_long_identifier :
  delete_document (sample_backend [] [] [] true) (lit "user_1")
    (repeat 0x61%N 300) world_with_upload
  = (inl OtherException,
     log world_with_upload
       [EvIndexDelete (document_filter (lit "user_1") (repeat 0x61%N 300))]).
Proof. vm_compute. reflexivity. Qed.

(** The directory of ["doc_1"] is removed under that name, also when
    the identifier is written ["./doc_1/"]. *)
Example delete_document_plain_identifier :
  dirs (snd (delete_document (sample_backend [] [] [] true) (lit "user_1")
               (lit "doc_1") world_with_upload)) = ∅
  /\ dirs (snd (delete_document (sample_backend [] [] [] true) (lit "user_1")
                  (lit "./doc_1/") world_with_upload)) = ∅
  /\ dirs (snd (delete_document (sample_backend [] [] [] true) (lit "user_1")
                  (lit "doc_2") world_with_upload)) = dirs world_with_upload.
Proof. vm_compute. repeat split. Qed.

(** ** Listing the documents of a user *)

Section Listing.
Context {float : Type} (env : backend float).

Lemma seen_has_spec (seen : list (pyval * document_info)) (k : pyval) :
  seen_has seen k = true <-> k ∈ List.map fst seen.
Proof.
  unfold seen_has. rewrite existsb_exists, list_elem_of_In, in_map_iff.
  split.
  - intros [kv [Hin Hk]]. apply bool_decide_eq_true in Hk. now exists kv.
  - intros [kv [Hk Hin]]. exists kv. split; [exact Hin|].
    now apply bool_decide_eq_true.
Qed.

Lemma first_seen_snoc (done : list (raw_match float)) (m : raw_match float)
    (d : document_info) :
  first_seen done d -> first_seen (done ++ [m]) d.
Proof.
  intros (pre & m0 & post & -> & Hid & Hpre & Hname).
  exists pre, m0, (post ++ [m]). rewrite <- app_assoc. now repeat split.
Qed.

Lemma seen_inv_step (done : list (raw_match float))
    (seen : list (pyval * document_info)) (m : raw_match float) :
  seen_inv done seen -> seen_inv (done ++ [m]) (seen_step seen m).
Proof.
  intros (Hnd & Hent & Hall). unfold seen_step.
  fold (match_document_id m).
  destruct (match_document_id m) as [k|] eqn:Hk.
  2:{ split; [exact Hnd|]. split.
      - intros k d Hin. destruct (Hent k d Hin). split; [assumption|].
        now apply first_seen_snoc.
      - intros m' k Hin Hid Ht. apply elem_of_app in Hin as [Hin|Hin].
        + eauto.
        + apply list_elem_of_singleton in Hin. subst m'. congruence. }
  destruct (pyval_truthy (Some k) && negb (seen_has seen k)) eqn:Hadd.
  - apply andb_true_iff in Hadd as [Ht Hnew].
    apply negb_true_iff in Hnew.
    assert (Hfresh : k ∉ List.map fst seen).
    { intros Hin. apply seen_has_spec in Hin. congruence. }
    split; [|split].
    + rewrite map_app. apply NoDup_app. split; [exact Hnd|]. split.
      * intros x Hx Hx'. apply list_elem_of_singleton in Hx'. now subst x.
      * apply NoDup_singleton.
    + intros k' d Hin. apply elem_of_app in Hin as [Hin|Hin].
      * destruct (Hent k' d Hin). split; [assumption|].
        now apply first_seen_snoc.
      * apply list_elem_of_singleton in Hin. injection Hin as -> ->.
        split; [reflexivity|].
        exists done, m, []. cbn [doc_document_id doc_file_name].
        repeat split; [exact Hk|].
        intros m' Hm' Hid. apply Hfresh. now apply (Hall m' k).
    + intros m' k' Hin Hid Ht'. rewrite map_app. apply elem_of_app.
      apply elem_of_app in Hin as [Hin|Hin]; [left; eauto|].
      apply list_elem_of_singleton in Hin. subst m'. right.
      assert (k' = k) by congruence. subst k'. now left.
  - split; [exact Hnd|]. split.
    + intros k' d Hin. destruct (Hent k' d Hin). split; [assumption|].
      now apply first_seen_snoc.
    + intros m' k' Hin Hid Ht'. apply elem_of_app in Hin as [Hin|Hin];
        [eauto|].
      apply list_elem_of_singleton in Hin. subst m'.
      assert (k' = k) by congruence. subst k'.
      rewrite Ht' in Hadd. cbn in Hadd. apply negb_false_iff in Hadd.
      now apply seen_has_spec.
Qed.

Lemma seen_inv_fold (rest done : list (raw_match float))
    (seen : list (pyval * document_info)) :
  seen_inv done seen ->
  seen_inv (done ++ rest) (fold_left seen_step rest seen).
Proof.
  revert done seen. induction rest as [|m rest IH]; intros done seen Hinv.
  - now rewrite app_nil_r.
  - cbn [fold_left]. replace (done ++ m :: rest) with ((done ++ [m]) ++ rest)
      by now rewrite <- app_assoc.
    apply IH. now apply seen_inv_step.
Qed.

(** C9. When the index answers the listing query, the list returned by
    [list_documents_for_user] holds no [document_id] twice, and each
    entry carries the [file_name] (["Unknown"] when absent) of the first
    match, in the order returned by the index, that has its
    [document_id]. *)
Theorem list_documents_no_duplicates (user_id : str) (w : world float)
    (results : option (list (raw_match float))) :
  index_query env (repeat (float_zero env) 768) 10000%N
    {[ "user_id" := PStr user_id ]} = Returns results ->
  exists documents,
    fst (list_documents_for_user env user_id w) = inr documents
    /\ NoDup (List.map doc_document_id documents)
    /\ forall d, d ∈ documents -> first_seen (matches_of results) d.
Proof.
  intros Hq. unfold list_documents_for_user.
  cbv beta iota zeta delta [catch bind external emit ret raise].
  rewrite Hq. cbv beta iota.
  set (seen := fold_left seen_step (matches_of results) []).
  exists (List.map snd seen). split; [reflexivity|].
  assert (Hinv : seen_inv (matches_of results) seen).
  { apply (seen_inv_fold (matches_of results) [] []).
    split; [constructor|]. split.
    - intros k d Hin. now apply elem_of_nil in Hin.
    - intros m k Hin. now apply elem_of_nil in Hin. }
  destruct Hinv as (Hnd & Hent & _). split.
  - replace (List.map doc_document_id (List.map snd seen))
      with (List.map fst seen); [exact Hnd|].
    rewrite List.map_map. apply map_ext_in. intros [k d] Hin. cbn.
    apply list_elem_of_In in Hin. now destruct (Hent k d Hin).
  - intros d Hin. apply list_elem_of_In, in_map_iff in Hin.
    destruct Hin as [[k d'] [Hd Hin]]. cbn in Hd. subst d'.
    apply list_elem_of_In in Hin. now destruct (Hent k d Hin).
Qed.

End Listing.

Lemma list_documents_no_duplicates_witness :
  fst (list_documents_for_user (sample_backend [] [] sample_matches true)
         (lit "user_1") empty_world)
  = inr [ {| doc_document_id := PStr (lit "A");
             doc_file_name := PStr (lit "a.pdf") |};
          {| doc_document_id := PStr (lit "B");
             doc_file_name := PStr (lit "Unknown") |} ]
  /\ exists documents,
       fst (list_documents_for_user (sample_backend [] [] sample_matches true)
              (lit "user_1") empty_world) = inr documents
       /\ NoDup (List.map doc_document_id documents)
       /\ forall d, d ∈ documents -> first_seen sample_matches d.
Proof.
  split; [vm_compute; reflexivity|].
  apply (list_documents_no_duplicates
           (sample_backend [] [] sample_matches true) (lit "user_1")
           empty_world (Some sample_matches)).
  reflexivity.
Defined.

(** ** TXT extraction *)

Section TxtLoading.
Context {float : Type}.
Implicit Types w : world float.

Lemma load_txt_loop_first (p : Path) (pre : list encoding) :
  forall (enc : encoding) (post : list encoding) (text : str) w,
  Forall (passed_over p) pre ->
  read_text p enc = ReadText text ->
  forallb isspace text = false ->
  _load_txt_loop p (pre ++ enc :: post) w
  = (inr (Some text), log w (List.map EvReadText (pre ++ [enc]))).
Proof.
  induction pre as [|e pre IH]; intros enc post text w Hpre Henc Htext.
  - cbn [app _load_txt_loop]. rewrite Henc.
    assert (Ht : truthy (strip text) = true).
    { rewrite <- has_text_strip. destruct (has_text text) eqn:H; [easy|].
      apply has_text_false in H. congruence. }
    rewrite Ht. reflexivity.
  - inversion Hpre as [|? ? He Hpre']; subst.
    cbn [app _load_txt_loop].
    rewrite (bind_inr _ _ _ _ _ (emit_log (EvReadText e) w)).
    assert (Hstep : forall m : @M float (option str),
              match read_text p e with
              | ReadText t =>
                if truthy (strip t) then ret (Some t) else m
              | UnicodeDecodeError => m
              | ReadOSError => raise CorruptedFileError
              end = m).
    { intros m. destruct He as [->|[t [-> Ht]]]; [reflexivity|].
      apply has_text_false in Ht. rewrite has_text_strip in Ht.
      now rewrite Ht. }
    rewrite Hstep, (IH enc post text (log w [EvReadText e]) Hpre' Henc Htext).
    now rewrite log_log.
Qed.

(** C8. [_load_txt] reads the file with the encodings UTF-8, UTF-8 with
    BOM, Latin-1, Windows-1252, in that order and stopping at the first
    one that is accepted; it returns the text decoded by the first
    encoding that decodes without error to text that is not empty or
    whitespace-only (the earlier ones having failed to decode or given
    such text); a zero-byte file raises [EmptyDocumentError]; and when
    no encoding yields text that is not empty or whitespace-only, the
    call raises [EmptyDocumentError] or [CorruptedFileError]. *)
Theorem load_txt_encoding_cascade (p : Path) w :
  txt_encodings = [utf_8; utf_8_sig; latin_1; cp1252]
  /\ (exists n, snd (_load_txt p w)
                = log w (List.map EvReadText (take n txt_encodings)))
  /\ (forall pre enc post text,
        txt_encodings = pre ++ enc :: post ->
        Forall (passed_over p) pre ->
        read_text p enc = ReadText text ->
        forallb isspace text = false ->
        _load_txt p w
        = (inr text, log w (List.map EvReadText (pre ++ [enc]))))
  /\ (path_stat p = Regular [] ->
      fst (_load_txt p w) = inl EmptyDocumentError)
  /\ ((forall enc text, read_text p enc = ReadText text ->
         forallb isspace text = true) ->
      fst (_load_txt p w) = inl EmptyDocumentError
      \/ fst (_load_txt p w) = inl CorruptedFileError).
Proof.
  split; [reflexivity|]. split; [|split; [|split]].
  - unfold _load_txt, txt_encodings, read_bytes.
    cbv beta iota delta [_load_txt_loop bind emit ret raise].
    destruct (path_stat p) eqn:Hp;
      try (unfold read_text; rewrite Hp; exists 1; reflexivity).
    destruct (read_text p utf_8) as [t1| |];
      [destruct (truthy (strip t1))| |];
      try (exists 1; unfold log; cbn; reflexivity).
    all: destruct (read_text p utf_8_sig) as [t2| |];
      [destruct (truthy (strip t2))| |];
      try (exists 2; unfold log; cbn; rewrite <- ?app_assoc; reflexivity).
    all: destruct (read_text p latin_1) as [t3| |];
      [destruct (truthy (strip t3))| |];
      try (exists 3; unfold log; cbn; rewrite <- ?app_assoc; reflexivity).
    all: destruct (read_text p cp1252) as [t4| |];
      [destruct (truthy (strip t4))| |];
      try (exists 4; unfold log; cbn; rewrite <- ?app_assoc;
           destruct (length content =? 0); reflexivity).
  - intros pre enc post text Henc Hpre Hread Htext.
    unfold _load_txt. rewrite Henc.
    now rewrite (bind_inr _ _ _ _ _
                   (load_txt_loop_first p pre enc post text w Hpre Hread Htext)).
  - intros Hp. unfold _load_txt, txt_encodings, read_bytes.
    cbv beta iota delta [_load_txt_loop bind emit ret raise].
    unfold read_text. rewrite Hp. reflexivity.
  - intros Hnone. unfold _load_txt, txt_encodings, read_bytes.
    cbv beta iota delta [_load_txt_loop bind emit ret raise].
    assert (Hblank : forall enc t, read_text p enc = ReadText t ->
                                   truthy (strip t) = false).
    { intros enc t H. rewrite <- has_text_strip. apply has_text_false. eauto. }
    destruct (path_stat p) eqn:Hp;
      try (unfold read_text; rewrite Hp; right; reflexivity).
    destruct (read_text p utf_8) as [t1| |] eqn:H1;
      [rewrite (Hblank _ _ H1)| |]; try (right; reflexivity).
    all: destruct (read_text p utf_8_sig) as [t2| |] eqn:H2;
      [rewrite (Hblank _ _ H2)| |]; try (right; reflexivity).
    all: destruct (read_text p latin_1) as [t3| |] eqn:H3;
      [rewrite (Hblank _ _ H3)| |]; try (right; reflexivity).
    all: destruct (read_text p cp1252) as [t4| |] eqn:H4;
      [rewrite (Hblank _ _ H4)| |]; try (right; reflexivity).
    all: left; destruct (length content =? 0); reflexivity.
Qed.

End TxtLoading.

(** The theorem on a one-byte file holding 0x85: UTF-8 and UTF-8 with
    BOM fail to decode, Latin-1 gives the whitespace character U+0085,
    Windows-1252 gives an ellipsis, which is returned. *)
Lemma load_txt_encoding_cascade_witness :
  @_load_txt Z {| path_name := lit "note.txt"; path_stat := Regular [x85] |}
    empty_world
  = (inr [0x2026%N],
     log empty_world
       (List.map EvReadText [utf_8; utf_8_sig; latin_1; cp1252])).
Proof.
  apply (proj1 (proj2 (proj2 (load_txt_encoding_cascade
           {| path_name := lit "note.txt"; path_stat := Regular [x85] |}
           empty_world)))
         [utf_8; utf_8_sig; latin_1] cp1252 [] [0x2026%N]).
  - reflexivity.
  - constructor; [left; reflexivity|].
    constructor; [left; reflexivity|].
    constructor; [|constructor].
    right. exists [0x85%N]. split; reflexivity.
  - reflexivity.
  - reflexivity.
Defined.

(** ** PDF extraction *)

Section PdfLoading.
Context {float : Type} (env : backend float).
Implicit Types w : world float.

Lemma pdf_preflight_pure (p : Path) w :
  snd (_pdf_preflight_check env p w) = w.
Proof.
  unfold _pdf_preflight_check.
  destruct (preflight_imports env); [|reflexivity]. cbn [negb].
  destruct (open_pdf env p) as [[]|reader]; try reflexivity.
  cbv beta iota delta [bind ret raise].
  destruct (is_encrypted reader).
  - destruct (decrypt reader) as [?|d]; [reflexivity|].
    destruct (d =? 0)%Z; [reflexivity|].
    destruct (pages reader true) as [[]|ps]; try reflexivity.
    now destruct (length ps =? 0).
  - destruct (pages reader false) as [[]|ps]; try reflexivity.
    now destruct (length ps =? 0).
Qed.

Lemma pdf_stage_pypdf2_runs (p : Path) :
  exists t, forall w,
    _pdf_stage_pypdf2 env p w = (inr t, log w [EvStage stage_pypdf2]).
Proof.
  unfold _pdf_stage_pypdf2.
  destruct (pypdf2_installed env); [|eexists; intros; reflexivity].
  destruct (open_pdf env p) as [?|reader];
    [eexists; intros; reflexivity|].
  destruct (pages reader false); eexists; intros; reflexivity.
Qed.

Lemma pdf_stage_pdfplumber_runs (p : Path) :
  exists t, forall w,
    _pdf_stage_pdfplumber env p w = (inr t, log w [EvStage stage_pdfplumber]).
Proof.
  unfold _pdf_stage_pdfplumber.
  destruct (pdfplumber_installed env); [|eexists; intros; reflexivity].
  destruct (path_stat p); try (eexists; intros; reflexivity).
  destruct (pdfplumber_open env content); eexists; intros; reflexivity.
Qed.

Lemma pdf_stage_ocr_runs (p : Path) :
  exists t, forall w,
    _pdf_stage_ocr env p w = (inr t, log w [EvStage stage_ocr]).
Proof.
  unfold _pdf_stage_ocr.
  destruct (ocr_installed env); [|eexists; intros; reflexivity].
  destruct (path_stat p); try (eexists; intros; reflexivity).
  destruct (convert_from_path env content); eexists; intros; reflexivity.
Qed.

(** C3. For a PDF that passes the preflight check, each of the three
    stages PyPDF2, pdfplumber, OCR returns a text when run, and
    [_load_pdf] runs them in this order: it returns the stripped output
    of the first stage whose output has at least 50 characters after
    stripping, having run that stage and the ones before it and none
    after it; when no stage reaches 50 characters all three have run
    and [EmptyDocumentError] is raised. *)
Theorem load_pdf_three_stage_cascade (p : Path) w :
  fst (_pdf_preflight_check env p w) = inr tt ->
  exists t1 t2 t3 : str,
    (forall w0, _pdf_stage_pypdf2 env p w0
                = (inr t1, log w0 [EvStage stage_pypdf2]))
    /\ (forall w0, _pdf_stage_pdfplumber env p w0
                   = (inr t2, log w0 [EvStage stage_pdfplumber]))
    /\ (forall w0, _pdf_stage_ocr env p w0
                   = (inr t3, log w0 [EvStage stage_ocr]))
    /\ _load_pdf env p w
       = if (50 <=? length (strip t1))%nat then
           (inr (strip t1), log w [EvStage stage_pypdf2])
         else if (50 <=? length (strip t2))%nat then
           (inr (strip t2),
            log w [EvStage stage_pypdf2; EvStage stage_pdfplumber])
         else if (50 <=? length (strip t3))%nat then
           (inr (strip t3),
            log w [EvStage stage_pypdf2; EvStage stage_pdfplumber;
                   EvStage stage_ocr])
         else
           (inl EmptyDocumentError,
            log w [EvStage stage_pypdf2; EvStage stage_pdfplumber;
                   EvStage stage_ocr]).
Proof.
  intros Hpre.
  destruct (pdf_stage_pypdf2_runs p) as [t1 H1].
  destruct (pdf_stage_pdfplumber_runs p) as [t2 H2].
  destruct (pdf_stage_ocr_runs p) as [t3 H3].
  exists t1, t2, t3. repeat (split; [assumption|]).
  assert (Hcheck : _pdf_preflight_check env p w = (inr tt, w)).
  { rewrite (surjective_pairing (_pdf_preflight_check env p w)).
    now rewrite Hpre, pdf_preflight_pure. }
  unfold _load_pdf.
  rewrite (bind_inr _ _ _ _ _ Hcheck), (bind_inr _ _ _ _ _ (H1 w)).
  rewrite clears_threshold_length.
  destruct (50 <=? length (strip t1))%nat; [reflexivity|].
  rewrite (bind_inr _ _ _ _ _ (H2 _)), clears_threshold_length, log_log.
  destruct (50 <=? length (strip t2))%nat; [reflexivity|].
  rewrite (bind_inr _ _ _ _ _ (H3 _)), clears_threshold_length, log_log.
  now destruct (50 <=? length (strip t3))%nat.
Qed.

End PdfLoading.

Lemma load_pdf_three_stage_cascade_witness :
  _load_pdf scanned_backend scanned_pdf empty_world
  = (inr scanned_text,
     log empty_world
       [EvStage stage_pypdf2; EvStage stage_pdfplumber; EvStage stage_ocr])
  /\ exists t1 t2 t3 : str,
       (forall w0, _pdf_stage_pypdf2 scanned_backend scanned_pdf w0
                   = (inr t1, log w0 [EvStage stage_pypdf2]))
       /\ (forall w0, _pdf_stage_pdfplumber scanned_backend scanned_pdf w0
                      = (inr t2, log w0 [EvStage stage_pdfplumber]))
       /\ (forall w0, _pdf_stage_ocr scanned_backend scanned_pdf w0
                      = (inr t3, log w0 [EvStage stage_ocr]))
       /\ _load_pdf scanned_backend scanned_pdf empty_world
          = if (50 <=? length (strip t1))%nat then
              (inr (strip t1), log empty_world [EvStage stage_pypdf2])
            else if (50 <=? length (strip t2))%nat then
              (inr (strip t2),
               log empty_world [EvStage stage_pypdf2; EvStage stage_pdfplumber])
            else if (50 <=? length (strip t3))%nat then
              (inr (strip t3),
               log empty_world [EvStage stage_pypdf2; EvStage stage_pdfplumber;
                                EvStage stage_ocr])
            else
              (inl EmptyDocumentError,
               log empty_world [EvStage stage_pypdf2; EvStage stage_pdfplumber;
                                EvStage stage_ocr]).
Proof.
  split; [vm_compute; reflexivity|].
  apply (load_pdf_three_stage_cascade scanned_backend scanned_pdf empty_world).
  reflexivity.
Defined.

(** ** The loader and the minimum-content threshold *)

(** C2 (fails on the TXT path). On a TXT file holding the five
    characters ["Short"], [load] returns that text: no
    [EmptyDocumentError] is raised although the text is below the
    50-character threshold. *)
Lemma load_returns_text_below_threshold :
  load (sample_backend [] [] [] true) short_txt empty_world
  = (inr (lit "Short"), log empty_world [EvReadText utf_8])
  /\ length (strip (lit "Short")) = 5
  /\ (length (strip (lit "Short")) <? _MIN_TEXT_LENGTH) = true.
Proof. vm_compute. repeat split. Qed.

(** ** What the extractor touches *)

Section Emits.
Context {float : Type}.
Implicit Types (w : world float) (P : event float -> Prop).

Lemma only_emits_ret {A} P (a : A) : only_emits P (ret a).
Proof. intros w. exists []. split; [now rewrite log_nil|constructor]. Qed.

Lemma only_emits_raise {A} P e : only_emits P (@raise float A e).
Proof. intros w. exists []. split; [now rewrite log_nil|constructor]. Qed.

Lemma only_emits_emit P ev :
  P ev -> only_emits P (emit ev).
Proof. intros H w. exists [ev]. split; [reflexivity|now repeat constructor]. Qed.

Lemma only_emits_bind {A B} P (m : M A) (k : A -> M B) :
  only_emits P m -> (forall a, only_emits P (k a)) -> only_emits P (bind m k).
Proof.
  intros Hm Hk w. destruct (Hm w) as [new [Hw Hnew]]. unfold bind.
  destruct (m w) as [[e|a] w1]; cbn in Hw; subst w1.
  - now exists new.
  - destruct (Hk a (log w new)) as [new' [Hw' Hnew']].
    exists (new ++ new'). rewrite Hw', log_log. split; [reflexivity|].
    now apply Forall_app.
Qed.

Lemma only_emits_catch {A} P (m : M A) (h : exn -> M A) :
  only_emits P m -> (forall e, only_emits P (h e)) -> only_emits P (catch m h).
Proof.
  intros Hm Hh w. destruct (Hm w) as [new [Hw Hnew]]. unfold catch.
  destruct (m w) as [[e|a] w1]; cbn in Hw; subst w1.
  - destruct (Hh e (log w new)) as [new' [Hw' Hnew']].
    exists (new ++ new'). rewrite Hw', log_log. split; [reflexivity|].
    now apply Forall_app.
  - now exists new.
Qed.

End Emits.

(** Decomposes a goal [only_emits P m] along the structure of [m]. *)
Ltac only_emits_step :=
  first
    [ apply only_emits_ret
    | apply only_emits_raise
    | apply only_emits_emit; reflexivity
    | apply only_emits_bind; [|intros ?]
    | apply only_emits_catch; [|intros ?]
    | match goal with
      | |- only_emits _ (if ?b then _ else _) => destruct b
      | |- only_emits _ (match ?x with _ => _ end) => destruct x
      end ].

Section ExtractorCalls.
Context {float : Type} (env : backend float).
Implicit Types w : world float.

Local Abbreviation P := (fun ev : event float => extractor_call ev = true).

Lemma load_txt_loop_emits (p : Path) (encodings : list encoding) :
  only_emits P (_load_txt_loop p encodings).
Proof.
  induction encodings as [|enc rest IH]; cbn [_load_txt_loop].
  - apply only_emits_ret.
  - repeat only_emits_step; exact IH.
Qed.

Lemma load_txt_emits (p : Path) : only_emits P (_load_txt p).
Proof.
  unfold _load_txt. apply only_emits_bind; [apply load_txt_loop_emits|].
  intros r. repeat only_emits_step.
Qed.

Lemma load_docx_emits (p : Path) : only_emits P (_load_docx env p).
Proof. unfold _load_docx. repeat only_emits_step. Qed.

Lemma load_pdf_emits (p : Path) : only_emits P (_load_pdf env p).
Proof.
  unfold _load_pdf, _pdf_preflight_check, _pdf_stage_pypdf2,
    _pdf_stage_pdfplumber, _pdf_stage_ocr.
  repeat only_emits_step.
Qed.

Lemma load_emits (p : Path) : only_emits P (load env p).
Proof.
  unfold load, validate_extension.
  destruct (path_stat p); try apply only_emits_raise.
  all: apply only_emits_bind; [repeat only_emits_step|intros ext].
  all: apply only_emits_catch; [|intros e; repeat only_emits_step].
  all: repeat match goal with
         | |- only_emits _ (if ?b then _ else _) => destruct b
         end.
  all: first [ apply load_pdf_emits | apply load_docx_emits
             | apply load_txt_emits | apply only_emits_raise ].
Qed.

(** The extractor makes no call to the embedding model or the index and
    leaves the upload directory alone. *)
Lemma load_trace (p : Path) w r w' :
  load env p w = (r, w') ->
  exists new, w' = log w new /\ Forall (fun ev => extractor_call ev = true) new.
Proof.
  intros H. destruct (load_emits p w) as [new [Hw Hnew]].
  rewrite H in Hw. now exists new.
Qed.

End ExtractorCalls.

(** ** What the extractor returns *)

Section Returns.
Context {float : Type}.
Implicit Types w : world float.

Lemma returns_only_ret {A} (Q : A -> Prop) (a : A) :
  Q a -> returns_only Q (@ret float A a).
Proof. intros H w a' w' [= <- _]. exact H. Qed.

Lemma returns_only_raise {A} (Q : A -> Prop) e :
  returns_only Q (@raise float A e).
Proof. intros w a w'. discriminate. Qed.

Lemma returns_only_bind {A B} (Q : B -> Prop) (m : @M float A)
    (k : A -> M B) :
  (forall a, returns_only Q (k a)) -> returns_only Q (bind m k).
Proof.
  intros Hk w b w'. unfold bind. destruct (m w) as [[e|a] w1]; [discriminate|].
  apply Hk.
Qed.

Lemma returns_only_catch {A} (Q : A -> Prop) (m : @M float A)
    (h : exn -> M A) :
  returns_only Q m -> (forall e, returns_only Q (h e)) ->
  returns_only Q (catch m h).
Proof.
  intros Hm Hh w a w'. unfold catch. destruct (m w) as [[e|a'] w1] eqn:E.
  - apply Hh.
  - intros [= <- _]. exact (Hm _ _ _ E).
Qed.

End Returns.

Section ExtractedText.
Context {float : Type} (env : backend float).
Implicit Types w : world float.

Local Abbreviation not_blank := (fun text : str => strip text <> []).

Lemma load_txt_loop_returns (p : Path) (encodings : list encoding) :
  @returns_only float _
    (fun r => match r with Some text => strip text <> [] | None => True end)
    (_load_txt_loop p encodings).
Proof.
  induction encodings as [|enc rest IH]; cbn [_load_txt_loop].
  - now apply returns_only_ret.
  - apply returns_only_bind. intros _.
    destruct (read_text p enc) as [text| |];
      [|exact IH|apply returns_only_raise].
    destruct (truthy (strip text)) eqn:Ht; [|exact IH].
    apply returns_only_ret. now apply truthy_true.
Qed.

Lemma load_txt_returns (p : Path) : @returns_only float _ not_blank (_load_txt p).
Proof.
  intros w text w'. unfold _load_txt, bind.
  destruct (_load_txt_loop p txt_encodings w) as [[e|[t|]] w1] eqn:E;
    [discriminate| |].
  - intros [= <- _]. exact (load_txt_loop_returns p _ _ _ _ E).
  - destruct (read_bytes p) as [|raw]; [discriminate|].
    now destruct (length raw =? 0).
Qed.

Lemma load_docx_returns (p : Path) : returns_only not_blank (_load_docx env p).
Proof.
  unfold _load_docx.
  destruct (docx_installed env); [|apply returns_only_raise].
  cbn [negb].
  destruct (match path_stat p with
            | Regular bs => DocxDocument env bs
            | _ => DocxRaises false
            end) as [[]|[|doc]]; try apply returns_only_raise.
  destruct (truthy (strip (join [NL; NL] (docx_text_parts doc)))) eqn:Ht;
    cbn [negb]; [|apply returns_only_raise].
  apply returns_only_ret. now apply truthy_true.
Qed.

Lemma strip_threshold_not_blank (t : str) :
  clears_threshold t = true -> strip (strip t) <> [].
Proof.
  rewrite clears_threshold_length. intros H E.
  apply strip_nil, strip_all_space in E. rewrite E in H. discriminate.
Qed.

Lemma load_pdf_returns (p : Path) : returns_only not_blank (_load_pdf env p).
Proof.
  unfold _load_pdf.
  apply returns_only_bind. intros _. apply returns_only_bind. intros t1.
  destruct (clears_threshold t1) eqn:H1;
    [apply returns_only_ret; now apply strip_threshold_not_blank|].
  apply returns_only_bind. intros t2.
  destruct (clears_threshold t2) eqn:H2;
    [apply returns_only_ret; now apply strip_threshold_not_blank|].
  apply returns_only_bind. intros t3.
  destruct (clears_threshold t3) eqn:H3;
    [apply returns_only_ret; now apply strip_threshold_not_blank|].
  apply returns_only_raise.
Qed.

(** What [load] does guarantee for every supported format: the text it
    returns is not empty after stripping. *)
Lemma load_returns_text (p : Path) w text w' :
  load env p w = (inr text, w') -> strip text <> [].
Proof.
  revert w text w'. change (returns_only not_blank (load env p)).
  unfold load.
  destruct (path_stat p); try apply returns_only_raise.
  all: apply returns_only_bind; intros ext.
  all: apply returns_only_catch;
    [|intros e; destruct (is_FileLoadError e); apply returns_only_raise].
  all: repeat match goal with
         | |- returns_only _ (if ?b then _ else _) => destruct b
         end.
  all: first [ apply load_pdf_returns | apply load_docx_returns
             | apply load_txt_returns | apply returns_only_raise ].
Qed.

End ExtractedText.

(** ** The text gates of the ingestion pipeline *)

Section Gates.
Context {float : Type} (env : backend float).
Implicit Types w : world float.

Lemma extractor_not_service (ev : event float) :
  extractor_call ev = true -> service_call ev = false.
Proof. now destruct ev. Qed.

Lemma validate_extension_ok (file_name : str) w :
  suffix_lower env file_name ∈ SUPPORTED_EXTENSIONS ->
  validate_extension env file_name w = (inr (suffix_lower env file_name), w).
Proof. intros H. unfold validate_extension. now rewrite bool_decide_eq_true_2. Qed.

(** [_save_file] by cases: the path is refused, the directory cannot
    be created, or the directory exists from then on and the write
    succeeds, is refused or is interrupted. *)
Lemma save_file_cases content file_name (document_id : UUID) w :
  let safe_name := base_name env file_name in
  let files := default ∅ (dirs w !! (document_id : str)) in
  let written := trace w ++ [EvWriteBytes document_id safe_name] in
  _save_file env content file_name document_id w
  = if stat_raises env document_id then (inl OtherException, w)
    else
      match mkdir env document_id with
      | Raises => (inl OtherException, w)
      | Returns _ =>
        match write_bytes env document_id safe_name content with
        | Written =>
          (inr safe_name,
           {| dirs := <[(document_id : str) := <[safe_name := content]> files]>
                        (dirs w);
              trace := written |})
        | WriteRefused =>
          (inl OtherException,
           {| dirs := <[(document_id : str) := files]> (dirs w);
              trace := written |})
        | WriteInterrupted kept =>
          (inl OtherException,
           {| dirs := <[(document_id : str) :=
                        <[safe_name := take kept content]> files]> (dirs w);
              trace := written |})
        end
      end.
Proof.
  intros safe_name files written. unfold _save_file.
  destruct (stat_raises env document_id); [reflexivity|].
  destruct (mkdir env document_id) as [|[]]; [reflexivity|].
  cbv beta iota zeta delta [bind emit ret raise get_dirs set_dirs].
  cbn [dirs trace]. fold safe_name.
  now destruct (write_bytes env document_id safe_name content).
Qed.

(** A successful save: the path is usable, the file is stored under
    the base name of the upload. *)
Lemma save_file_success content file_name (document_id : UUID) w safe_name w1 :
  _save_file env content file_name document_id w = (inr safe_name, w1) ->
  stat_raises env document_id = false
  /\ safe_name = base_name env file_name
  /\ w1 = {| dirs := <[(document_id : str) :=
                       <[safe_name := content]>
                         (default ∅ (dirs w !! (document_id : str)))]> (dirs w);
             trace := trace w ++ [EvWriteBytes document_id safe_name] |}.
Proof.
  rewrite save_file_cases.
  destruct (stat_raises env document_id); [discriminate|].
  destruct (mkdir env document_id) as [|[]]; [discriminate|].
  destruct (write_bytes env document_id (base_name env file_name) content);
    try discriminate.
  now intros [= <- <-].
Qed.

(** A failed save: nothing is cleaned up. Either nothing was created,
    or the directory of the document exists from then on, with the
    files it held and at most a truncated copy of the upload. *)
Lemma save_file_failure content file_name (document_id : UUID) w e w1 :
  _save_file env content file_name document_id w = (inl e, w1) ->
  e = OtherException
  /\ (exists new,
        trace w1 = trace w ++ new
        /\ (new = []
            \/ new = [EvWriteBytes document_id (base_name env file_name)]))
  /\ (forall d : str, d <> document_id -> dirs w1 !! d = dirs w !! d)
  /\ (w1 = w
      \/ dirs w1 !! (document_id : str)
         = Some (default ∅ (dirs w !! (document_id : str)))
      \/ exists kept,
           dirs w1 !! (document_id : str)
           = Some (<[base_name env file_name := take kept content]>
                     (default ∅ (dirs w !! (document_id : str))))).
Proof.
  rewrite save_file_cases.
  assert (Hnone : e = OtherException -> w1 = w ->
            e = OtherException
            /\ (exists new,
                  trace w1 = trace w ++ new
                  /\ (new = []
                      \/ new = [EvWriteBytes document_id
                                  (base_name env file_name)]))
            /\ (forall d : str, d <> document_id -> dirs w1 !! d = dirs w !! d)
            /\ (w1 = w
                \/ dirs w1 !! (document_id : str)
                   = Some (default ∅ (dirs w !! (document_id : str)))
                \/ exists kept,
                     dirs w1 !! (document_id : str)
                     = Some (<[base_name env file_name := take kept content]>
                               (default ∅ (dirs w !! (document_id : str)))))).
  { intros -> ->. split; [reflexivity|].
    split; [exists []; split; [now rewrite app_nil_r|now left]|].
    split; [reflexivity|now left]. }
  destruct (stat_raises env document_id);
    [intros [= <- <-]; now apply Hnone|].
  destruct (mkdir env document_id) as [|[]];
    [intros [= <- <-]; now apply Hnone|].
  destruct (write_bytes env document_id (base_name env file_name) content)
    as [| |kept]; [discriminate| |].
  all: intros [= <- <-]; split; [reflexivity|].
  all: split; [eexists; split; [reflexivity|now right]|].
  all: split; [intros d Hd; cbn [dirs]; now apply lookup_insert_ne|].
  all: right; cbn [dirs]; rewrite lookup_insert_eq.
  - now left.
  - right. now exists kept.
Qed.

Lemma save_file_trace content file_name (document_id : UUID) w safe_name w1 :
  _save_file env content file_name document_id w = (inr safe_name, w1) ->
  trace w1 = trace w ++ [EvWriteBytes document_id safe_name].
Proof. intros H. apply save_file_success in H as (_ & _ & ->). reflexivity. Qed.

Lemma stored_path_pure document_id name w :
  exists p, stored_path document_id name w = (inr p, w).
Proof. eexists. reflexivity. Qed.

(** [_delete_file] on a generated identifier whose path is usable. *)
Lemma delete_file_generated (document_id : UUID) w :
  stat_raises env document_id = false ->
  _delete_file env document_id w
  = (inr tt,
     match dirs w !! (document_id : str) with
     | Some _ =>
       {| dirs := if rmtree_removes env
                  then delete (document_id : str) (dirs w) else dirs w;
          trace := trace w ++ [EvRmtree document_id] |}
     | None => w
     end).
Proof.
  intros Hstat. unfold _delete_file. rewrite Hstat, upload_child_UUID.
  cbv beta iota delta [bind emit ret raise get_dirs set_dirs].
  destruct (dirs w !! (document_id : str)); [|reflexivity].
  now destruct (rmtree_removes env).
Qed.

Lemma delete_file_trace (document_id : UUID) w :
  stat_raises env document_id = false ->
  exists w' new,
    _delete_file env document_id w = (inr tt, w')
    /\ trace w' = trace w ++ new
    /\ Forall (fun ev => ev = EvRmtree document_id) new.
Proof.
  intros Hstat. rewrite (delete_file_generated _ _ Hstat).
  destruct (dirs w !! (document_id : str)).
  - eexists; exists [EvRmtree document_id];
      (split; [reflexivity|]); (split; [reflexivity|]); now repeat constructor.
  - exists w, []. split; [reflexivity|]. split; [now rewrite app_nil_r|constructor].
Qed.

(** C1. In a run of [process_document] whose file type is accepted,
    whose upload is saved and from which the extractor returns a text
    of fewer than 50 characters after stripping, the run fails with
    [EMPTY_DOCUMENT] when the stripped text is empty and with
    [INSUFFICIENT_CONTENT] otherwise, and none of the external calls of
    the run goes to the embedding model or to the vector store. *)
Theorem process_document_text_gates
    (document_id : UUID) (file_content : list byte) (file_name user_id : str)
    w (safe_name : str) w1 (text : str) w2 :
  suffix_lower env file_name ∈ SUPPORTED_EXTENSIONS ->
  _save_file env file_content file_name document_id w = (inr safe_name, w1) ->
  bind (stored_path document_id safe_name) (load env) w1 = (inr text, w2) ->
  length (strip text) < 50 ->
  exists w' new,
    process_document env document_id file_content file_name user_id w
    = (inl (DocumentProcessingError
              match strip text with
              | [] => "EMPTY_DOCUMENT"
              | _ => "INSUFFICIENT_CONTENT"
              end), w')
    /\ trace w' = trace w ++ new
    /\ Forall (fun ev => service_call ev = false) new.
Proof.
  intros Hext Hsave Hload Hshort.
  destruct (delete_file_trace document_id w2
              (proj1 (save_file_success _ _ _ _ _ _ Hsave)))
    as (w3 & del & Hdel & Hw3 & Hrm).
  exists w3.
  destruct (stored_path_pure document_id safe_name w1) as [p Hp].
  assert (Hload' : load env p w1 = (inr text, w2)).
  { now rewrite (bind_inr _ _ _ _ _ Hp) in Hload. }
  destruct (load_trace env p w1 _ _ Hload') as (ext & -> & Hextr).
  exists ([EvWriteBytes document_id safe_name] ++ ext ++ del).
  split; [|split].
  - unfold process_document.
    erewrite bind_inr
      by (apply catch_inr; now apply validate_extension_ok).
    erewrite bind_inr by (apply catch_inr; exact Hsave).
    match goal with
    | |- catch ?body _ _ = _ =>
      assert (Hbody : body w1
                      = (inl (DocumentProcessingError
                                match strip text with
                                | [] => "EMPTY_DOCUMENT"
                                | _ => "INSUFFICIENT_CONTENT"
                                end), log w1 ext))
    end.
    { erewrite bind_inr by (apply catch_inr; exact Hload).
      rewrite clean_text_strip.
      destruct (strip text) as [|c s] eqn:Hs; [reflexivity|].
      cbn [truthy negb].
      apply Nat.ltb_lt in Hshort. now rewrite Hshort. }
    rewrite (catch_inl _ _ _ _ _ Hbody).
    now rewrite (bind_inr _ _ _ _ _ Hdel).
  - rewrite Hw3. cbn [log trace]. rewrite (save_file_trace _ _ _ _ _ _ Hsave).
    now rewrite <- !app_assoc.
  - apply Forall_app. split; [now repeat constructor|].
    apply Forall_app. split.
    + eapply Forall_impl; [exact Hextr|]. apply extractor_not_service.
    + eapply Forall_impl; [exact Hrm|]. now intros ev ->.
Qed.

End Gates.

Lemma process_document_text_gates_witness :
  fst (process_document (sample_backend [] [] [] true) sample_id ten_chars
         (lit "ten.txt") (lit "user_1") empty_world)
  = inl (DocumentProcessingError "INSUFFICIENT_CONTENT")
  /\ exists w' new,
       process_document (sample_backend [] [] [] true) sample_id ten_chars
         (lit "ten.txt") (lit "user_1") empty_world
       = (inl (DocumentProcessingError
                 match strip (lit "0123456789") with
                 | [] => "EMPTY_DOCUMENT"
                 | _ => "INSUFFICIENT_CONTENT"
                 end), w')
       /\ trace w' = trace empty_world ++ new
       /\ Forall (fun ev => service_call ev = false) new.
Proof.
  split; [vm_compute; reflexivity|].
  apply (process_document_text_gates (sample_backend [] [] [] true)
           sample_id ten_chars (lit "ten.txt") (lit "user_1") empty_world
           (lit "ten.txt")
           (snd (_save_file (sample_backend [] [] [] true) ten_chars
                   (lit "ten.txt") sample_id empty_world))
           (lit "0123456789")
           (snd (bind (stored_path sample_id (lit "ten.txt"))
                   (load (sample_backend [] [] [] true))
                   (snd (_save_file (sample_backend [] [] [] true) ten_chars
                           (lit "ten.txt") sample_id empty_world))))).
  - apply (bool_decide_unpack _). vm_compute. exact I.
  - vm_compute. reflexivity.
  - vm_compute. reflexivity.
  - vm_compute. lia.
Defined.

(** ** Batches sent to the index *)

Section Batches.
Context {A : Type}.

Lemma concat_slices (n m : nat) :
  forall l : list A,
    length l <= m * n ->
    concat (List.map (fun k => take n (drop (k * n) l)) (seq 0 m)) = l.
Proof.
  induction m as [|m IH]; intros l Hlen.
  - destruct l; [reflexivity|]. cbn in Hlen. lia.
  - cbn [seq List.map concat]. rewrite <- seq_shift, List.map_map.
    change (drop (0 * n) l) with l.
    etransitivity; [|apply (take_drop n l)]. f_equal.
    etransitivity; [|apply (IH (drop n l))].
    + f_equal. apply map_ext. intros k. rewrite drop_drop. do 2 f_equal.
    + rewrite length_drop. lia.
Qed.

Lemma concat_batches (n : nat) (l : list A) :
  0 < n -> concat (batches n l) = l.
Proof.
  intros Hn. unfold batches. apply concat_slices.
  pose proof (Nat.div_mod_eq (length l + (n - 1)) n) as Hdiv.
  pose proof (Nat.mod_upper_bound (length l + (n - 1)) n) as Hmod.
  nia.
Qed.

End Batches.

(** ** The Store step *)

Section Store.
Context {float : Type} (env : backend float).
Implicit Types w : world float.

Lemma filter_filter_same {A} (f : A -> bool) (l : list A) :
  List.filter f (List.filter f l) = List.filter f l.
Proof.
  induction l as [|a l IH]; [reflexivity|]. cbn [List.filter].
  destruct (f a) eqn:Ha; [|exact IH]. cbn [List.filter]. now rewrite Ha, IH.
Qed.

Lemma upserted_batches (bs : list (list (vector float))) :
  upserted (List.map (fun b => EvIndexUpsert (List.map upsert_tuple b)) bs)
  = List.map upsert_tuple (concat bs).
Proof.
  unfold upserted. induction bs as [|b bs IH]; [reflexivity|].
  cbn [List.map omap list_omap concat]. cbn [List.map omap list_omap concat] in IH.
  rewrite IH. now rewrite List.map_app.
Qed.

Lemma upsert_loop_returns (bs : list (list (vector float))) :
  forall total w n w',
    upsert_loop env bs total w = (inr n, w') ->
    w' = log w (List.map (fun b => EvIndexUpsert (List.map upsert_tuple b)) bs)
    /\ n = total + length (concat bs).
Proof.
  induction bs as [|b bs IH]; intros total w n w' H.
  - cbn in H. injection H as <- <-. cbn [List.map concat length].
    rewrite log_nil. split; [reflexivity|lia].
  - cbn [upsert_loop] in H.
    destruct (index_upsert env (List.map upsert_tuple b)) as [|[]] eqn:Hb.
    + rewrite (bind_inl _ _ _ _ _ (external_raises _ w)) in H. discriminate.
    + rewrite (bind_inr _ _ _ _ _ (external_returns _ tt w)) in H.
      apply IH in H as [-> ->]. rewrite log_log. cbn [List.map concat app].
      split; [reflexivity|]. rewrite length_app. lia.
Qed.

Lemma upsert_vectors_raises (vectors : list (vector float)) w e w' :
  upsert_vectors env vectors w = (inl e, w') -> e = RuntimeError.
Proof.
  unfold upsert_vectors. destruct (negb (truthy vectors)); [discriminate|].
  unfold catch. destruct (upsert_loop env (batches 100 vectors) 0 w) as [[e'|n] w0].
  - now intros [= <- _].
  - discriminate.
Qed.

Lemma upsert_vectors_returns (vectors : list (vector float)) w n w' :
  upsert_vectors env vectors w = (inr n, w') ->
  exists new, w' = log w new /\ upserted new = List.map upsert_tuple vectors.
Proof.
  unfold upsert_vectors. destruct vectors as [|v vs] eqn:Ev; cbn [truthy negb].
  - intros [= _ <-]. exists []. now rewrite log_nil.
  - rewrite <- Ev. unfold catch.
    destruct (upsert_loop env (batches 100 vectors) 0 w) as [[e'|n'] w0] eqn:Hl;
      [discriminate|].
    intros [= _ <-]. apply upsert_loop_returns in Hl as [-> _].
    eexists. split; [reflexivity|].
    rewrite upserted_batches, concat_batches; [reflexivity|lia].
Qed.

(** C6 (amended). Take a run of [process_document] in which the file
    type is accepted, the upload is saved, the extractor returns a text
    of at least 50 characters after stripping, the splitter returns
    chunks of which at least one has text, and [embed_texts] returns
    embeddings for the retained chunks, and suppose that the embedding
    model answers every call with one vector per text (the code does
    not check this). Then the model was called on exactly the
    retained chunks (the filter of [embed_texts] removed nothing), there
    are as many embeddings as retained chunks, the run goes on to upsert
    the records built by [_prepare_vectors], whose i-th record carries
    the i-th embedding as its values and the i-th chunk as its metadata
    text, a text that is neither empty nor whitespace-only, and a
    successful upsert sends exactly these records to the index. *)
Theorem stored_vectors_aligned
    (document_id : UUID) (file_content : list byte) (file_name user_id : str)
    w (safe_name : str) w1 (text : str) w2 (raw : list str)
    (embeddings : list (list float)) w3 :
  (forall texts es,
     aembed_documents env texts = Returns es -> length es = length texts) ->
  suffix_lower env file_name ∈ SUPPORTED_EXTENSIONS ->
  _save_file env file_content file_name document_id w = (inr safe_name, w1) ->
  bind (stored_path document_id safe_name) (load env) w1 = (inr text, w2) ->
  50 <= length (strip text) ->
  split_text env (strip text) = Returns raw ->
  let chunks := List.filter has_text raw in
  chunks <> [] ->
  embed_texts env chunks (log w2 [EvSplitText (strip text)])
  = (inr embeddings, w3) ->
  let vectors :=
    _prepare_vectors chunks embeddings user_id document_id file_name in
  (w3 = log w2 [EvSplitText (strip text); EvEmbedDocuments chunks]
   /\ aembed_documents env chunks = Returns embeddings)
  /\ length embeddings = length chunks
  /\ process_document env document_id file_content file_name user_id w
     = match upsert_vectors env vectors w3 with
       | (inr _, w4) =>
         (inr {| res_document_id := document_id;
                 res_file_name := file_name;
                 res_num_chunks := length chunks;
                 res_total_characters := length (strip text);
                 res_status := lit "success" |}, w4)
       | (inl _, w4) =>
         (inl (DocumentProcessingError "PINECONE_SERVICE_ERROR"),
          snd (_delete_file env document_id w4))
       end
  /\ length vectors = length chunks
  /\ (forall i chunk embedding,
        chunks !! i = Some chunk ->
        embeddings !! i = Some embedding ->
        vectors !! i
        = Some {| vec_id := document_id ++ lit "_chunk_" ++ str_of_nat i;
                  vec_values := embedding;
                  vec_metadata :=
                    list_to_map
                      [ ("user_id", PStr user_id);
                        ("document_id", PStr document_id);
                        ("file_name", PStr file_name);
                        ("chunk_index", PInt (Z.of_nat i));
                        ("text", PStr chunk) ] |}
        /\ forallb isspace chunk = false)
  /\ (forall n w4,
        upsert_vectors env vectors w3 = (inr n, w4) ->
        exists new,
          w4 = log w3 new
          /\ upserted new = List.map upsert_tuple vectors).
Proof.
  intros Hcontract Hext Hsave Hload Hlong Hsplit chunks Hne Hembed vectors.
  assert (Hchunks : truthy chunks = true) by now apply truthy_true.
  assert (Hmodel : aembed_documents env chunks = Returns embeddings
                   /\ w3 = log w2 [EvSplitText (strip text);
                                   EvEmbedDocuments chunks]).
  { revert Hembed. unfold embed_texts. rewrite Hchunks. cbn [negb].
    unfold chunks at 1 2 3 4. rewrite filter_filter_same. fold chunks.
    rewrite Hchunks. cbn [negb]. unfold catch.
    destruct (aembed_documents env chunks) as [|es].
    - rewrite external_raises. discriminate.
    - rewrite external_returns, log_log. now intros [= -> <-]. }
  destruct Hmodel as [Hmodel Hw3].
  assert (Hlen : length embeddings = length chunks)
    by exact (Hcontract _ _ Hmodel).
  split; [now split|]. split; [exact Hlen|]. split; [|split; [|split]].
  - assert (Hstrip : strip text <> []).
    { intros E. rewrite E in Hlong. cbn in Hlong. lia. }
    assert (Hraw : truthy raw = true).
    { apply truthy_true. intros ->. now apply Hne. }
    unfold process_document.
    erewrite bind_inr
      by (apply catch_inr; now apply validate_extension_ok).
    erewrite bind_inr by (apply catch_inr; exact Hsave).
    match goal with
    | |- catch ?body _ _ = _ =>
      assert (Hbody : body w1
        = match upsert_vectors env vectors w3 with
          | (inr _, w4) =>
            (inr {| res_document_id := document_id;
                    res_file_name := file_name;
                    res_num_chunks := length chunks;
                    res_total_characters := length (strip text);
                    res_status := lit "success" |}, w4)
          | (inl _, w4) =>
            (inl (DocumentProcessingError "PINECONE_SERVICE_ERROR"), w4)
          end)
    end.
    { erewrite bind_inr by (apply catch_inr; exact Hload).
      rewrite clean_text_strip.
      apply truthy_true in Hstrip. rewrite Hstrip. cbn [negb].
      apply Nat.ltb_ge in Hlong. rewrite Hlong.
      erewrite bind_inr.
      2:{ apply catch_inr. unfold split.
          rewrite has_text_of_strip by now apply truthy_true.
          cbn [negb]. rewrite Hsplit. apply external_returns. }
      rewrite Hraw. cbn [negb]. fold chunks. rewrite Hchunks. cbn [negb].
      erewrite bind_inr by (apply catch_inr; exact Hembed).
      fold vectors.
      destruct (upsert_vectors env vectors w3) as [[e|n] w4] eqn:Hup.
      - apply upsert_vectors_raises in Hup as Hre. subst e.
        erewrite bind_inl; [reflexivity|].
        erewrite catch_inl by exact Hup. reflexivity.
      - erewrite bind_inr by (apply catch_inr; exact Hup). reflexivity. }
    destruct (upsert_vectors env vectors w3) as [[e|n] w4] eqn:Hup.
    + rewrite (catch_inl _ _ _ _ _ Hbody).
      destruct (delete_file_trace env document_id w4
                  (proj1 (save_file_success _ _ _ _ _ _ _ Hsave)))
        as (w5 & del & Hdel & _).
      rewrite (bind_inr _ _ _ _ _ Hdel), Hdel. reflexivity.
    + now rewrite (catch_inr _ _ _ _ _ Hbody).
  - unfold vectors, _prepare_vectors.
    rewrite length_imap, length_zip. lia.
  - intros i chunk embedding Hc He. split.
    + unfold vectors, _prepare_vectors.
      rewrite list_lookup_imap.
      assert (Hz : zip chunks embeddings !! i = Some (chunk, embedding)).
      { apply lookup_zip_with_Some. now exists chunk, embedding. }
      now rewrite Hz.
    + apply list_elem_of_lookup_2, list_elem_of_In in Hc.
      unfold chunks in Hc. apply filter_In in Hc as [_ Ht].
      destruct (forallb isspace chunk) eqn:E; [|reflexivity].
      apply has_text_false in E. congruence.
  - intros n w4 Hup. exact (upsert_vectors_returns _ _ _ _ Hup).
Qed.

End Store.

(** A run of the theorem: the splitter returns two halves of the prose
    with a whitespace-only piece between them; the piece is dropped, the
    model embeds the two halves, and the second record pairs the second
    half with the second embedding. *)
Lemma stored_vectors_aligned_witness :
  List.filter has_text
    [lit "The quarterly report covers revenue, cos"; lit "   ";
     lit "ts and hiring plans for the coming year."]
  = prose_halves
  /\ length [[40%Z]; [40%Z]] = length prose_halves
  /\ _prepare_vectors prose_halves [[40%Z]; [40%Z]]
       (lit "user_1") sample_id (lit "prose.txt") !! 1
     = Some {| vec_id := lit "550e8400-e29b-41d4-a716-446655440000_chunk_1";
               vec_values := [40%Z];
               vec_metadata :=
                 list_to_map
                   [ ("user_id", PStr (lit "user_1"));
                     ("document_id", PStr sample_id);
                     ("file_name", PStr (lit "prose.txt"));
                     ("chunk_index", PInt 1);
                     ("text",
                      PStr (lit "ts and hiring plans for the coming year.")) ] |}
  /\ fst (process_document halves_backend sample_id (bytes_of prose)
            (lit "prose.txt") (lit "user_1") empty_world)
     = inr {| res_document_id := sample_id;
              res_file_name := lit "prose.txt";
              res_num_chunks := 2;
              res_total_characters := 80;
              res_status := lit "success" |}.
Proof.
  destruct (stored_vectors_aligned halves_backend
              sample_id (bytes_of prose) (lit "prose.txt") (lit "user_1")
              empty_world (lit "prose.txt") halves_saved (lit prose)
              halves_loaded
              [lit "The quarterly report covers revenue, cos"; lit "   ";
               lit "ts and hiring plans for the coming year."]
              [[40%Z]; [40%Z]] halves_embedded)
    as (_ & Hlen & _ & _ & Halign & _).
  - intros texts es [= <-]. apply length_map.
  - apply (bool_decide_unpack _). vm_compute. exact I.
  - vm_compute. reflexivity.
  - vm_compute. reflexivity.
  - vm_compute. lia.
  - reflexivity.
  - vm_compute. discriminate.
  - vm_compute. reflexivity.
  - split; [vm_compute; reflexivity|]. split; [exact Hlen|]. split.
    + exact (proj1 (Halign 1
               (lit "ts and hiring plans for the coming year.") [40%Z]
               eq_refl eq_refl)).
    + vm_compute. reflexivity.
Defined.

(** C6 (as stated) fails: nothing in the code makes the number of
    embeddings equal the number of retained chunks. When the embedding
    model answers two texts with a single vector, the run succeeds and
    reports two chunks, but [zip] stops at the shorter list and a single
    record is stored. *)
Lemma stored_vectors_fewer_than_chunks :
  exists w',
    process_document single_vector_backend sample_id (bytes_of prose)
      (lit "prose.txt") (lit "user_1") empty_world
    = (inr {| res_document_id := sample_id;
              res_file_name := lit "prose.txt";
              res_num_chunks := 2;
              res_total_characters := 80;
              res_status := lit "success" |}, w')
    /\ EvEmbedDocuments prose_halves ∈ trace w'
    /\ aembed_documents single_vector_backend prose_halves = Returns [[7%Z]]
    /\ List.map (fun record => fst (fst record)) (upserted (trace w'))
       = [lit "550e8400-e29b-41d4-a716-446655440000_chunk_0"].
Proof.
  eexists. split; [vm_compute; reflexivity|].
  split; [|split; [reflexivity|vm_compute; reflexivity]].
  apply list_elem_of_In. vm_compute. tauto.
Qed.

(** ** End-to-end scenarios on the sample backend *)

(** A zero-byte TXT upload fails with [EMPTY_DOCUMENT] after the four
    read attempts, before the splitter or any service is called. *)
Example scenario_zero_byte_upload :
  process_document (sample_backend [] [] [] true) sample_id []
    (lit "empty.txt") (lit "user_1") empty_world
  = (inl (DocumentProcessingError "EMPTY_DOCUMENT"),
     {| dirs := ∅;
        trace := [EvWriteBytes sample_id (lit "empty.txt");
                  EvReadText utf_8; EvReadText utf_8_sig;
                  EvReadText latin_1; EvReadText cp1252;
                  EvRmtree sample_id] |}).
Proof. vm_compute. reflexivity. Qed.

(** A PDF without text layer from which OCR recovers sixty characters is
    ingested as one chunk. *)
Example scenario_scanned_pdf_upload :
  fst (process_document scanned_backend sample_id (bytes_of "%PDF-1.4")
         (lit "scan.pdf") (lit "user_1") empty_world)
  = inr {| res_document_id := sample_id;
           res_file_name := lit "scan.pdf";
           res_num_chunks := 1;
           res_total_characters := 60;
           res_status := lit "success" |}.
Proof. vm_compute. reflexivity. Qed.

(** An unsupported extension is rejected before anything is written. *)
Example scenario_unsupported_extension :
  process_document (sample_backend [] [] [] true) sample_id
    (bytes_of "MZ") (lit "tool.exe") (lit "user_1") empty_world
  = (inl (DocumentProcessingError "UNSUPPORTED_FILE_TYPE"), empty_world).
Proof. vm_compute. reflexivity. Qed.

(** The codecs on a few byte sequences: two-, three- and four-byte
    UTF-8 forms, a rejected surrogate and overlong form, the byte-order
    mark, and an undefined Windows-1252 byte. *)
Example codec_checks :
  decode utf_8 [xc3; xa9] = Some [0xE9%N]
  /\ decode utf_8 [xe2; x82; xac] = Some [0x20AC%N]
  /\ decode utf_8 [xf0; x9f; x98; x80] = Some [0x1F600%N]
  /\ decode utf_8 [xed; xa0; x80] = None
  /\ decode utf_8 [xc0; x80] = None
  /\ decode utf_8_sig [xef; xbb; xbf; x41] = Some [0x41%N]
  /\ decode utf_8 [xef; xbb; xbf; x41] = Some [0xFEFF%N; 0x41%N]
  /\ decode latin_1 [xe9] = Some [0xE9%N]
  /\ decode cp1252 [x80] = Some [0x20AC%N]
  /\ decode cp1252 [x81] = None.
Proof. vm_compute. repeat split. Qed.

(** * Further properties *)

(** ** Stripping *)

Lemma lstrip_head (s : str) (c : N) (r : str) :
  lstrip s = c :: r -> isspace c = false.
Proof.
  induction s as [|a s IH]; simpl; [discriminate|].
  destruct (isspace a) eqn:Ha; [exact IH|]. now intros [= <- _].
Qed.

Lemma lstrip_fixed (s : str) :
  match s with [] => True | c :: _ => isspace c = false end -> lstrip s = s.
Proof. destruct s as [|c r]; simpl; [reflexivity|]. now intros ->. Qed.

Lemma lstrip_lstrip (s : str) : lstrip (lstrip s) = lstrip s.
Proof.
  apply lstrip_fixed. destruct (lstrip s) as [|c r] eqn:E; [exact I|].
  exact (lstrip_head _ _ _ E).
Qed.

Lemma lstrip_suffix (s : str) : exists pre, s = pre ++ lstrip s.
Proof.
  induction s as [|a s [pre IH]]; simpl; [now exists []|].
  destruct (isspace a); [|now exists []].
  exists (a :: pre). simpl. now rewrite <- IH.
Qed.

(** [strip] is idempotent. *)
Lemma strip_strip (s : str) : strip (strip s) = strip s.
Proof.
  unfold strip, rstrip.
  assert (Hl : lstrip (rev (lstrip (rev (lstrip s))))
               = rev (lstrip (rev (lstrip s)))).
  { apply lstrip_fixed.
    destruct (rev (lstrip (rev (lstrip s)))) as [|c r] eqn:E; [exact I|].
    destruct (lstrip_suffix (rev (lstrip s))) as [pre Hpre].
    apply (f_equal (@rev N)) in Hpre. rewrite rev_involutive, rev_app_distr in Hpre.
    rewrite E in Hpre. simpl in Hpre. exact (lstrip_head _ _ _ Hpre). }
  rewrite Hl, rev_involutive. now rewrite lstrip_lstrip.
Qed.

Lemma universal_newlines_blank_aux (n : nat) :
  forall s : str, length s <= n ->
    forallb isspace (universal_newlines s) = true -> forallb isspace s = true.
Proof.
  induction n as [|n IH]; intros s Hn.
  - destruct s; [reflexivity|simpl in Hn; lia].
  - destruct s as [|c r]; [reflexivity|]. simpl in Hn.
    cbn [universal_newlines].
    destruct (c =? CR)%N eqn:Hc.
    + apply N.eqb_eq in Hc. subst c.
      destruct r as [|c' r'].
      * reflexivity.
      * destruct (c' =? NL)%N eqn:Hc'.
        -- apply N.eqb_eq in Hc'. subst c'. cbn [forallb].
           intros H. apply andb_true_iff in H as [_ H].
           simpl in Hn. rewrite (IH r'); [reflexivity|lia|exact H].
        -- cbn [forallb]. intros H. apply andb_true_iff in H as [_ H].
           change (isspace CR && forallb isspace (c' :: r') = true).
           rewrite (IH (c' :: r')); [reflexivity|lia|exact H].
    + cbn [forallb]. intros H. apply andb_true_iff in H as [H1 H2].
      rewrite H1. apply IH; [lia|exact H2].
Qed.

(** Newline translation removes or replaces whitespace only. *)
Lemma universal_newlines_blank (s : str) :
  forallb isspace (universal_newlines s) = true -> forallb isspace s = true.
Proof. exact (universal_newlines_blank_aux (length s) s (le_n _)). Qed.

(** ** Exceptions raised by monadic code *)

Section Raises.
Context {float : Type}.
Implicit Types w : world float.

Lemma raises_only_ret {A} (Q : exn -> Prop) (a : A) :
  raises_only Q (@ret float A a).
Proof. intros w e w'. discriminate. Qed.

Lemma raises_only_raise {A} (Q : exn -> Prop) e :
  Q e -> raises_only Q (@raise float A e).
Proof. intros H w e' w' [= <- _]. exact H. Qed.

Lemma raises_only_bind {A B} (Q : exn -> Prop) (m : @M float A)
    (k : A -> M B) :
  raises_only Q m -> (forall a, raises_only Q (k a)) ->
  raises_only Q (bind m k).
Proof.
  intros Hm Hk w e w'. unfold bind. destruct (m w) as [[e'|a] w1] eqn:E.
  - intros [= <- _]. exact (Hm _ _ _ E).
  - apply Hk.
Qed.

Lemma raises_only_catch {A} (Q' Q : exn -> Prop) (m : @M float A)
    (h : exn -> M A) :
  raises_only Q' m -> (forall e, Q' e -> raises_only Q (h e)) ->
  raises_only Q (catch m h).
Proof.
  intros Hm Hh w e w'. unfold catch. destruct (m w) as [[e'|a] w1] eqn:E.
  - apply Hh. exact (Hm _ _ _ E).
  - discriminate.
Qed.

Lemma raises_only_external {A} (Q : exn -> Prop) (ev : event float)
    (r : call A) :
  Q OtherException -> raises_only Q (external ev r).
Proof.
  intros H w e w'. destruct r; cbv; [|discriminate].
  now intros [= <- _].
Qed.

End Raises.

(** ** The text extractor: errors and results *)

Section LoaderOutcomes.
Context {float : Type} (env : backend float).
Implicit Types w : world float.

Lemma load_pdf_needs_file (p : Path) w text w' :
  _load_pdf env p w = (inr text, w') -> exists bs, path_stat p = Regular bs.
Proof.
  destruct (path_stat p) as [| | | |bs] eqn:Hp; [| | | |now exists bs].
  all: unfold _load_pdf, _pdf_preflight_check, _pdf_stage_pypdf2,
         _pdf_stage_pdfplumber, _pdf_stage_ocr, open_pdf; rewrite Hp.
  all: cbv beta iota delta [bind emit ret raise].
  all: destruct (preflight_imports env), (pypdf2_installed env),
         (pdfplumber_installed env), (ocr_installed env); discriminate.
Qed.

Lemma load_docx_needs_file (p : Path) w text w' :
  _load_docx env p w = (inr text, w') -> exists bs, path_stat p = Regular bs.
Proof.
  destruct (path_stat p) as [| | | |bs] eqn:Hp; [| | | |now exists bs].
  all: unfold _load_docx; rewrite Hp.
  all: destruct (docx_installed env); discriminate.
Qed.

Lemma load_txt_needs_file (p : Path) w text w' :
  @_load_txt float p w = (inr text, w') -> exists bs, path_stat p = Regular bs.
Proof.
  destruct (path_stat p) as [| | | |bs] eqn:Hp; [| | | |now exists bs].
  all: unfold _load_txt, txt_encodings, read_text.
  all: cbv beta iota delta [_load_txt_loop bind emit ret raise read_text].
  all: rewrite Hp; discriminate.
Qed.

Lemma load_pdf_returns_stripped (p : Path) :
  returns_only (fun text => strip text = text /\ 50 <= length text)
    (_load_pdf env p).
Proof.
  assert (Hok : forall t, clears_threshold t = true ->
                  strip (strip t) = strip t /\ 50 <= length (strip t)).
  { intros t H. split; [apply strip_strip|].
    rewrite clears_threshold_length in H. now apply Nat.leb_le in H. }
  unfold _load_pdf.
  apply returns_only_bind. intros _. apply returns_only_bind. intros t1.
  destruct (clears_threshold t1) eqn:H1;
    [apply returns_only_ret; now apply Hok|].
  apply returns_only_bind. intros t2.
  destruct (clears_threshold t2) eqn:H2;
    [apply returns_only_ret; now apply Hok|].
  apply returns_only_bind. intros t3.
  destruct (clears_threshold t3) eqn:H3;
    [apply returns_only_ret; now apply Hok|].
  apply returns_only_raise.
Qed.

(** X1. [load] examines the path before its [try] block: on a path
    the operating system refuses to examine, the [OSError] of
    [path.exists()] leaves [load] as it is; a path that does not exist
    or is not a file raises [FileLoadError]; a file with an unsupported
    extension raises [UnsupportedFileTypeError]. In these three cases
    the error is raised before anything is read. Whenever the path can
    be examined, [load] raises nothing but [FileLoadError] and its
    subclasses, whatever fails inside the libraries it calls. *)
Theorem load_error_classes (p : Path) w :
  (path_stat p = Unstatable -> load env p w = (inl OtherException, w))
  /\ (path_stat p = Missing \/ path_stat p = Directory ->
      load env p w = (inl FileLoadError, w))
  /\ ((exists bs, path_stat p = Regular bs) \/ path_stat p = Unreadable ->
      suffix_lower env (path_name p) ∉ SUPPORTED_EXTENSIONS ->
      load env p w = (inl UnsupportedFileTypeError, w))
  /\ (forall e w',
        path_stat p <> Unstatable ->
        load env p w = (inl e, w') -> is_FileLoadError e = true).
Proof.
  unfold load, validate_extension.
  split; [now intros ->|].
  split; [now intros [->| ->]|].
  split.
  - intros Hp Hext.
    destruct Hp as [[bs ->]| ->];
      now rewrite bool_decide_eq_false_2 by exact Hext.
  - intros e w' Hstat H.
    destruct (path_stat p) as [| | | |bs] eqn:Hp; [contradiction| | | |].
    1,2: now injection H as <- <-.
    all: destruct (bool_decide (suffix_lower env (path_name p)
                                ∈ SUPPORTED_EXTENSIONS)) eqn:Hext;
      [|now injection H as <- <-].
    all: cbv beta iota delta [bind ret catch] in H.
    all: match type of H with
         | context [match ?x with _ => _ end] => destruct x as [[e0|t] w0]
         end; [|discriminate].
    all: destruct (is_FileLoadError e0) eqn:He; injection H as <- <-;
         [exact He|reflexivity].
Qed.

(** X2. A text returned by [load] comes from a regular file with a
    supported extension and is neither empty nor whitespace-only; a text
    extracted from a [.pdf] is moreover already stripped and has at
    least 50 characters. *)
Theorem load_returns_usable_text (p : Path) w text w' :
  load env p w = (inr text, w') ->
  has_text text = true
  /\ (exists bs, path_stat p = Regular bs)
  /\ suffix_lower env (path_name p) ∈ SUPPORTED_EXTENSIONS
  /\ (suffix_lower env (path_name p) = lit ".pdf" ->
      strip text = text /\ 50 <= length text).
Proof.
  intros H. split.
  { rewrite has_text_strip. apply truthy_true.
    exact (load_returns_text env p w text w' H). }
  unfold load, validate_extension in H.
  destruct (path_stat p) as [| | | |bs] eqn:Hp; try discriminate.
  all: destruct (bool_decide (suffix_lower env (path_name p)
                              ∈ SUPPORTED_EXTENSIONS)) eqn:Hext;
    [|discriminate].
  all: apply bool_decide_eq_true in Hext.
  all: cbv beta iota delta [bind ret catch] in H.
  all: destruct (bool_decide (suffix_lower env (path_name p) = lit ".pdf"))
         eqn:Hpdf;
    [|destruct (bool_decide (suffix_lower env (path_name p) = lit ".docx"))
        eqn:Hdocx;
      [|destruct (bool_decide (suffix_lower env (path_name p) = lit ".txt"))
          eqn:Htxt]].
  all: try apply bool_decide_eq_false in Hpdf.
  all: match type of H with
       | context [match ?x with _ => _ end] =>
         destruct x as [[e0|t] w0] eqn:E
       end;
    try (destruct (is_FileLoadError e0); discriminate);
    try discriminate.
  all: try (apply load_pdf_needs_file in E as [bs' Hbs']; congruence).
  all: try (apply load_docx_needs_file in E as [bs' Hbs']; congruence).
  all: try (apply load_txt_needs_file in E as [bs' Hbs']; rewrite Hp in Hbs';
            discriminate).
  all: split; [now exists bs|]; split; [exact Hext|].
  all: try (intros Hc; contradiction).
  intros _. injection H as -> ->.
  exact (load_pdf_returns_stripped p _ _ _ E).
Qed.

(** The errors of the preflight check. *)
Lemma pdf_preflight_raises (p : Path) w e w' :
  _pdf_preflight_check env p w = (inl e, w') ->
  (preflight_imports env = false /\ e = OtherException)
  \/ (preflight_imports env = true
      /\ (e = CorruptedFileError \/ e = PasswordProtectedError
          \/ e = EmptyDocumentError)).
Proof.
  unfold _pdf_preflight_check.
  destruct (preflight_imports env); cbn [negb];
    [|intros [= <- _]; now left].
  intros H. right. split; [reflexivity|]. revert H.
  destruct (open_pdf env p) as [[]|reader];
    [intros [= <-]; now left|discriminate|].
  cbv beta iota delta [bind ret raise].
  destruct (is_encrypted reader).
  - destruct (decrypt reader) as [?|d]; [intros [= <-]; tauto|].
    destruct (d =? 0)%Z; [intros [= <-]; tauto|].
    destruct (pages reader true) as [[]|ps];
      [intros [= <-]; tauto|discriminate|].
    destruct (length ps =? 0); [intros [= <-]; tauto|discriminate].
  - destruct (pages reader false) as [[]|ps];
      [intros [= <-]; tauto|discriminate|].
    destruct (length ps =? 0); [intros [= <-]; tauto|discriminate].
Qed.

(** X3. [_load_pdf] fails in four ways. An error of the preflight check
    ends it before any extraction stage has run: [CorruptedFileError],
    [PasswordProtectedError] or [EmptyDocumentError] when PyPDF2 can be
    imported, and, when one of its two imports fails, the
    [UnboundLocalError] raised while the handler [except PdfReadError]
    is matched, whatever the file. A
    failure inside an extraction stage is never propagated: after a
    preflight check that passes, the only error is the
    [EmptyDocumentError] raised once the three stages have run. *)
Theorem load_pdf_failures (p : Path) w :
  (preflight_imports env = false ->
   _load_pdf env p w = (inl OtherException, w))
  /\ (forall e, fst (_pdf_preflight_check env p w) = inl e ->
        _load_pdf env p w = (inl e, w))
  /\ (forall e w',
        _load_pdf env p w = (inl e, w') ->
        (e = CorruptedFileError \/ e = PasswordProtectedError
         \/ e = EmptyDocumentError
         \/ (e = OtherException /\ preflight_imports env = false))
        /\ (fst (_pdf_preflight_check env p w) = inl e /\ w' = w
            \/ (fst (_pdf_preflight_check env p w) = inr tt
                /\ e = EmptyDocumentError
                /\ w' = log w [EvStage stage_pypdf2; EvStage stage_pdfplumber;
                               EvStage stage_ocr]))).
Proof.
  assert (Hfail : forall e, fst (_pdf_preflight_check env p w) = inl e ->
                    _load_pdf env p w = (inl e, w)).
  { intros e He. unfold _load_pdf. apply bind_inl.
    rewrite (surjective_pairing (_pdf_preflight_check env p w)).
    now rewrite He, pdf_preflight_pure. }
  split; [|split; [exact Hfail|]].
  - intros Hno. apply Hfail. unfold _pdf_preflight_check. now rewrite Hno.
  - intros e w' H.
    pose proof (pdf_preflight_pure env p w) as Hpure.
    destruct (_pdf_preflight_check env p w) as [[e0|[]] w0] eqn:Hpre;
      cbn [snd] in Hpure; subst w0.
    + rewrite (Hfail e0 eq_refl) in H. injection H as <- <-.
      split; [|now left].
      destruct (pdf_preflight_raises _ _ _ _ Hpre) as [[Hno ->]|[_ He]]; tauto.
    + unfold _load_pdf in H. rewrite (bind_inr _ _ _ _ _ Hpre) in H.
      destruct (pdf_stage_pypdf2_runs env p) as [t1 H1].
      destruct (pdf_stage_pdfplumber_runs env p) as [t2 H2].
      destruct (pdf_stage_ocr_runs env p) as [t3 H3].
      rewrite (bind_inr _ _ _ _ _ (H1 _)) in H.
      destruct (clears_threshold t1); [discriminate|].
      rewrite (bind_inr _ _ _ _ _ (H2 _)) in H.
      destruct (clears_threshold t2); [discriminate|].
      rewrite (bind_inr _ _ _ _ _ (H3 _)) in H.
      destruct (clears_threshold t3); [discriminate|].
      injection H as <- <-. split; [tauto|]. right.
      split; [reflexivity|]. split; [reflexivity|]. now rewrite !log_log.
Qed.

End LoaderOutcomes.

(** ** Plain-text files *)

Section TxtOutcomes.
Context {float : Type}.
Implicit Types w : world float.

Lemma decode_utf8_sig_cases (ns : list N) :
  decode_utf8_sig ns = decode_utf8 ns
  \/ exists r, ns = (0xEF :: 0xBB :: 0xBF :: r)%N
               /\ decode_utf8_sig ns = decode_utf8 r
               /\ decode_utf8 ns = cons BOM <$> decode_utf8 r.
Proof.
  destruct ns as [|a ns]; [now left|].
  destruct (N.eq_dec a 0xEF%N) as [->|Ha].
  2:{ left. unfold decode_utf8_sig. destruct a as [|pa]; [reflexivity|].
      do 8 (destruct pa as [pa|pa|]; try reflexivity). congruence. }
  destruct ns as [|b ns]; [now left|].
  destruct (N.eq_dec b 0xBB%N) as [->|Hb].
  2:{ left. unfold decode_utf8_sig. destruct b as [|pb]; [reflexivity|].
      do 8 (destruct pb as [pb|pb|]; try reflexivity). congruence. }
  destruct ns as [|c r]; [now left|].
  destruct (N.eq_dec c 0xBF%N) as [->|Hc].
  2:{ left. unfold decode_utf8_sig. destruct c as [|pc]; [reflexivity|].
      do 8 (destruct pc as [pc|pc|]; try reflexivity). congruence. }
  right. exists r. repeat split; reflexivity.
Qed.

Lemma load_txt_loop_inv (p : Path) (bs : list byte) (encodings : list encoding) :
  path_stat p = Regular bs ->
  forall w r w',
    _load_txt_loop p encodings w = (r, w') ->
    (r = inr None /\ Forall (passed_over p) encodings
     /\ w' = log w (List.map EvReadText encodings))
    \/ exists t, r = inr (Some t).
Proof.
  intros Hp. induction encodings as [|enc rest IH]; intros w r w' H.
  - injection H as <- <-. left. split; [reflexivity|].
    split; [constructor|]. symmetry. apply log_nil.
  - cbn [_load_txt_loop] in H.
    rewrite (bind_inr _ _ _ _ _ (emit_log (EvReadText enc) w)) in H.
    assert (Hrest : passed_over p enc ->
              _load_txt_loop p rest (log w [EvReadText enc]) = (r, w') ->
              (r = inr None /\ Forall (passed_over p) (enc :: rest)
               /\ w' = log w (List.map EvReadText (enc :: rest)))
              \/ exists t, r = inr (Some t)).
    { intros Hpass Hr. destruct (IH _ _ _ Hr) as [(-> & Hall & ->)|Ht];
        [left|now right].
      split; [reflexivity|]. split; [now constructor|].
      now rewrite log_log. }
    destruct (read_text p enc) as [text| |] eqn:Hread.
    + destruct (truthy (strip text)) eqn:Ht.
      * injection H as <- <-. right. now exists text.
      * apply Hrest; [|exact H]. right. exists text. split; [exact Hread|].
        apply strip_nil. now apply truthy_false.
    + apply Hrest; [left; exact Hread|exact H].
    + unfold read_text in Hread. rewrite Hp in Hread.
      destruct (decode enc bs); discriminate.
Qed.

(** X4. A UTF-8 file that starts with a byte-order mark is read by the
    first encoding tried, plain UTF-8, whatever follows the mark: the
    text returned by [_load_txt] keeps the mark as its first character
    U+FEFF, and no other encoding is tried. *)
Theorem load_txt_keeps_byte_order_mark (p : Path) (rest : list byte)
    (t : str) w :
  path_stat p = Regular (BOM_UTF8 ++ rest) ->
  decode utf_8 rest = Some t ->
  _load_txt p w = (inr (BOM :: universal_newlines t), log w [EvReadText utf_8]).
Proof.
  intros Hp Ht. unfold _load_txt, txt_encodings.
  assert (Hread : read_text p utf_8 = ReadText (BOM :: universal_newlines t)).
  { unfold read_text. rewrite Hp. cbn [decode] in Ht |- *.
    change (List.map Byte.to_N (BOM_UTF8 ++ rest))
      with (0xEF :: 0xBB :: 0xBF :: List.map Byte.to_N rest)%N.
    change (decode_utf8 (0xEF :: 0xBB :: 0xBF :: List.map Byte.to_N rest)%N)
      with (cons BOM <$> decode_utf8 (List.map Byte.to_N rest)).
    rewrite Ht. reflexivity. }
  pose proof (load_txt_loop_first p [] utf_8 [utf_8_sig; latin_1; cp1252] _ w
                (List.Forall_nil _) Hread eq_refl) as Hloop.
  cbn [app List.map] in Hloop.
  now rewrite (bind_inr _ _ _ _ _ Hloop).
Qed.

(** X5. Whenever plain UTF-8 is passed over, because the bytes are not
    valid UTF-8 or decode to empty or whitespace-only text, UTF-8 with
    BOM is passed over too: the second encoding of [_load_txt] never
    yields the text. *)
Theorem utf8_sig_attempt_is_redundant (p : Path) :
  passed_over p utf_8 -> passed_over p utf_8_sig.
Proof.
  unfold passed_over, read_text.
  destruct (path_stat p) as [| | | |bs];
    try (intros [H|[t [H _]]]; discriminate).
  cbn [decode].
  destruct (decode_utf8_sig_cases (List.map Byte.to_N bs))
    as [->|(r & _ & -> & ->)]; [tauto|].
  destruct (decode_utf8 r) as [t|]; [|now left].
  intros [H|[t' [[= <-] Hblank]]]; [discriminate|].
  discriminate Hblank.
Qed.

(** X6. A readable text file is rejected by [_load_txt] only when each
    of its bytes is a whitespace character of Latin-1: the error is then
    [EmptyDocumentError], raised after all four encodings were tried. A
    file with any other byte yields a text. *)
Theorem load_txt_rejects_blank_files_only (p : Path) (bs : list byte) w :
  path_stat p = Regular bs ->
  (forall e w', _load_txt p w = (inl e, w') ->
     e = EmptyDocumentError
     /\ Forall (fun b => isspace (Byte.to_N b) = true) bs
     /\ w' = log w (List.map EvReadText txt_encodings))
  /\ ((exists b, b ∈ bs /\ isspace (Byte.to_N b) = false) ->
      exists text w', _load_txt p w = (inr text, w')).
Proof.
  intros Hp.
  assert (Hfail : forall e w', _load_txt p w = (inl e, w') ->
     e = EmptyDocumentError
     /\ Forall (fun b => isspace (Byte.to_N b) = true) bs
     /\ w' = log w (List.map EvReadText txt_encodings)).
  { intros e w'. unfold _load_txt, bind.
    destruct (_load_txt_loop p txt_encodings w) as [r w1] eqn:Hloop.
    destruct (load_txt_loop_inv p bs _ Hp _ _ _ Hloop)
      as [(-> & Hall & ->)|[t ->]]; [|discriminate].
    unfold read_bytes. rewrite Hp. intros H.
    assert (He : e = EmptyDocumentError).
    { destruct (length bs =? 0); now injection H as <- _. }
    assert (Hw : w' = log w (List.map EvReadText txt_encodings)).
    { destruct (length bs =? 0); now injection H as _ <-. }
    split; [exact He|]. split; [|exact Hw].
    assert (Hlatin : passed_over p latin_1).
    { unfold txt_encodings in Hall.
      apply Forall_cons in Hall as [_ Hall].
      apply Forall_cons in Hall as [_ Hall].
      now apply Forall_cons in Hall as [Hall _]. }
    unfold passed_over, read_text in Hlatin. rewrite Hp in Hlatin.
    cbn [decode] in Hlatin.
    destruct Hlatin as [Hl|[t [[= <-] Hblank]]]; [discriminate|].
    apply universal_newlines_blank in Hblank.
    apply Forall_forall. intros b Hb.
    rewrite forallb_forall in Hblank. apply Hblank.
    apply in_map. now apply list_elem_of_In. }
  split; [exact Hfail|].
  intros (b & Hb & Hspace).
  destruct (_load_txt p w) as [[e|text] w'] eqn:H; [|now exists text, w'].
  destruct (Hfail e w' eq_refl) as (_ & Hall & _).
  rewrite Forall_forall in Hall. specialize (Hall b Hb). congruence.
Qed.

End TxtOutcomes.

Lemma load_error_classes_witness :
  load prose_backend long_named_txt empty_world
  = (inl OtherException, empty_world)
  /\ load prose_backend missing_txt empty_world
     = (inl FileLoadError, empty_world)
  /\ load prose_backend tool_exe empty_world
     = (inl UnsupportedFileTypeError, empty_world)
  /\ load no_pypdf2_backend scanned_pdf empty_world
     = (inl CorruptedFileError, empty_world)
  /\ is_FileLoadError CorruptedFileError = true.
Proof.
  split; [|split; [|split; [|split; [vm_compute; reflexivity|]]]].
  - apply (proj1 (load_error_classes prose_backend long_named_txt empty_world)).
    reflexivity.
  - apply (proj1 (proj2
             (load_error_classes prose_backend missing_txt empty_world))).
    left. reflexivity.
  - apply (proj1 (proj2 (proj2
             (load_error_classes prose_backend tool_exe empty_world)))).
    + left. eexists. reflexivity.
    + intros H. apply (bool_decide_pack _) in H. vm_compute in H. exact H.
  - apply (proj2 (proj2 (proj2
             (load_error_classes no_pypdf2_backend scanned_pdf empty_world)))
             CorruptedFileError empty_world).
    + discriminate.
    + vm_compute. reflexivity.
Defined.

Lemma load_returns_usable_text_witness :
  has_text scanned_text = true
  /\ (exists bs, path_stat scanned_pdf = Regular bs)
  /\ suffix_lower scanned_backend (path_name scanned_pdf) ∈ SUPPORTED_EXTENSIONS
  /\ (suffix_lower scanned_backend (path_name scanned_pdf) = lit ".pdf" ->
      strip scanned_text = scanned_text /\ 50 <= length scanned_text).
Proof.
  apply (load_returns_usable_text scanned_backend scanned_pdf empty_world
           scanned_text (snd (load scanned_backend scanned_pdf empty_world))).
  vm_compute. reflexivity.
Defined.

Lemma load_pdf_failures_witness :
  _load_pdf no_pypdf2_backend scanned_pdf empty_world
  = (inl OtherException, empty_world)
  /\ _load_pdf broken_pdf_backend scanned_pdf empty_world
     = (inl CorruptedFileError, empty_world)
  /\ (fst (_pdf_preflight_check textless_backend scanned_pdf empty_world)
      = inl EmptyDocumentError
      /\ log empty_world [EvStage stage_pypdf2; EvStage stage_pdfplumber;
                          EvStage stage_ocr] = empty_world
      \/ fst (_pdf_preflight_check textless_backend scanned_pdf empty_world)
         = inr tt
         /\ EmptyDocumentError = EmptyDocumentError
         /\ log empty_world [EvStage stage_pypdf2; EvStage stage_pdfplumber;
                             EvStage stage_ocr]
            = log empty_world [EvStage stage_pypdf2; EvStage stage_pdfplumber;
                               EvStage stage_ocr]).
Proof.
  split; [|split].
  - apply (proj1 (load_pdf_failures no_pypdf2_backend scanned_pdf empty_world)).
    reflexivity.
  - apply (proj1 (proj2
             (load_pdf_failures broken_pdf_backend scanned_pdf empty_world))).
    vm_compute. reflexivity.
  - apply (proj2 (proj2
             (load_pdf_failures textless_backend scanned_pdf empty_world))
             EmptyDocumentError
             (log empty_world [EvStage stage_pypdf2; EvStage stage_pdfplumber;
                               EvStage stage_ocr])).
    vm_compute. reflexivity.
Defined.

Lemma load_txt_keeps_byte_order_mark_witness :
  @_load_txt Z bom_txt empty_world
  = (inr (BOM :: universal_newlines (lit "hi")),
     log empty_world [EvReadText utf_8]).
Proof.
  apply (load_txt_keeps_byte_order_mark bom_txt (bytes_of "hi") (lit "hi")
           empty_world); reflexivity.
Defined.

Lemma utf8_sig_attempt_is_redundant_witness : passed_over binary_txt utf_8_sig.
Proof.
  apply (utf8_sig_attempt_is_redundant binary_txt). left. reflexivity.
Defined.

Lemma load_txt_rejects_blank_files_only_witness :
  (forall e w', @_load_txt Z blank_txt empty_world = (inl e, w') ->
     e = EmptyDocumentError
     /\ Forall (fun b => isspace (Byte.to_N b) = true) [x20; x0a]
     /\ w' = log empty_world (List.map EvReadText txt_encodings))
  /\ ((exists b, b ∈ [x20; x0a] /\ isspace (Byte.to_N b) = false) ->
      exists text w', @_load_txt Z blank_txt empty_world = (inr text, w')).
Proof.
  apply (load_txt_rejects_blank_files_only blank_txt [x20; x0a] empty_world).
  reflexivity.
Defined.

(** ** Calls made by the services *)

Section ServiceCalls.
Context {float : Type} (env : backend float).
Implicit Types (w : world float) (P : event float -> Prop).

Lemma only_emits_weaken {A} P P' (m : @M float A) :
  (forall ev, P ev -> P' ev) -> only_emits P m -> only_emits P' m.
Proof.
  intros HP Hm w. destruct (Hm w) as [new [Hw Hnew]]. exists new.
  split; [exact Hw|]. eapply Forall_impl; [exact Hnew|exact HP].
Qed.

Lemma only_emits_external {A} P (ev : event float) (r : call A) :
  P ev -> only_emits P (external ev r).
Proof.
  intros H. unfold external. apply only_emits_bind.
  - now apply only_emits_emit.
  - intros _. destruct r; [apply only_emits_raise|apply only_emits_ret].
Qed.

Lemma embed_text_emits P (text : str) :
  P (EvEmbedQuery text) -> only_emits P (embed_text env text).
Proof.
  intros H. unfold embed_text. destruct (negb (has_text text));
    [apply only_emits_raise|].
  apply only_emits_catch; [now apply only_emits_external|].
  intros e. apply only_emits_raise.
Qed.

Lemma upsert_loop_emits P (bs : list (list (vector float))) (total : nat) :
  (forall b, P (EvIndexUpsert b)) -> only_emits P (upsert_loop env bs total).
Proof.
  intros H. revert total. induction bs as [|b bs IH]; intros total;
    cbn [upsert_loop]; [apply only_emits_ret|].
  apply only_emits_bind; [now apply only_emits_external|].
  intros _. apply IH.
Qed.

Lemma upsert_vectors_emits P (vectors : list (vector float)) :
  (forall b, P (EvIndexUpsert b)) -> only_emits P (upsert_vectors env vectors).
Proof.
  intros H. unfold upsert_vectors. destruct (negb (truthy vectors));
    [apply only_emits_ret|].
  apply only_emits_catch; [now apply upsert_loop_emits|].
  intros e. apply only_emits_raise.
Qed.

Lemma query_emits P (query_vector : list float) (top_k : option N)
    (filter_dict : gmap string pyval) :
  (forall v k f, P (EvIndexQuery v k f)) ->
  only_emits P (query env query_vector top_k filter_dict).
Proof.
  intros H. unfold query.
  apply only_emits_catch; [|intros e; apply only_emits_raise].
  apply only_emits_bind; [now apply only_emits_external|].
  intros r. apply only_emits_ret.
Qed.

Lemma split_raises (text : str) :
  raises_only (fun e => e = ValueError \/ e = OtherException) (split env text).
Proof.
  unfold split. destruct (negb (has_text text));
    [apply raises_only_raise; now left|].
  apply raises_only_external. now right.
Qed.

Lemma embed_texts_raises (texts : list str) :
  texts <> [] -> Forall (fun t => has_text t = true) texts ->
  raises_only (fun e => e = RuntimeError) (embed_texts env texts).
Proof.
  intros Hne Hall. unfold embed_texts.
  apply truthy_true in Hne. rewrite Hne. cbn [negb].
  assert (Hsame : List.filter has_text texts = texts).
  { clear Hne. induction Hall as [|t ts Ht _ IH]; [reflexivity|].
    cbn [List.filter]. now rewrite Ht, IH. }
  rewrite Hsame, Hne. cbn [negb].
  apply (raises_only_catch (fun _ => True)); [easy|].
  intros e _. now apply raises_only_raise.
Qed.

Lemma upsert_vectors_raises_only (vectors : list (vector float)) :
  raises_only (fun e => e = RuntimeError) (upsert_vectors env vectors).
Proof. intros w e w'. apply upsert_vectors_raises. Qed.

Lemma load_raises (p : Path) :
  path_stat p <> Unstatable ->
  raises_only (fun e => is_FileLoadError e = true) (load env p).
Proof.
  intros Hstat. unfold load, validate_extension.
  destruct (path_stat p); try (now apply raises_only_raise).
  all: apply raises_only_bind;
    [destruct (bool_decide _);
       [apply raises_only_ret|now apply raises_only_raise]|].
  all: intros ext; apply (raises_only_catch (fun _ => True)); [easy|].
  all: intros e _; destruct (is_FileLoadError e) eqn:He;
    now apply raises_only_raise.
Qed.

End ServiceCalls.

(** ** Calls in pipeline order *)

Section Phases.
Context {float : Type} (env : backend float).
Implicit Types (w : world float) (evs : list (event float)).

Lemma phase_ingestion_call (ev : event float) :
  phase ev <= 5 -> ingestion_call ev = true.
Proof. destruct ev; cbn; intros H; first [reflexivity|lia]. Qed.

Lemma in_pipeline_order_app evs evs' :
  in_pipeline_order evs -> in_pipeline_order evs' ->
  (forall a b, a ∈ evs -> b ∈ evs' -> precedes a b) ->
  in_pipeline_order (evs ++ evs').
Proof.
  intros H H' Hcross. induction evs as [|ev evs IH]; [exact H'|].
  destruct H as [Hev H]. cbn [app in_pipeline_order]. split.
  - apply Forall_app. split; [exact Hev|].
    apply Forall_forall. intros b Hb. apply Hcross; [now left|exact Hb].
  - apply IH; [exact H|]. intros a b Ha. apply Hcross. now right.
Qed.

Lemma in_pipeline_order_step (k : nat) evs :
  k = 1 \/ k = 4 -> Forall (fun ev => phase ev = k) evs ->
  in_pipeline_order evs.
Proof.
  intros Hk. induction 1 as [|ev evs Hev Hall IH]; [exact I|].
  split; [|exact IH]. eapply Forall_impl; [exact Hall|].
  intros b Hb. right. rewrite Hev, Hb. now split.
Qed.

Lemma emits_phases_raise {A} lo hi e : emits_phases lo hi (@raise float A e).
Proof.
  intros w. exists []. split; [symmetry; apply log_nil|]. now split.
Qed.

Lemma emits_phases_external {A} lo hi (ev : event float) (r : call A) :
  lo <= phase ev <= hi -> emits_phases lo hi (external ev r).
Proof.
  intros H w. exists [ev]. split; [now destruct r|].
  split; [now split|now repeat constructor].
Qed.

Lemma emits_phases_step {A} (k lo hi : nat) (m : @M float A) :
  k = 1 \/ k = 4 -> lo <= k <= hi ->
  only_emits (fun ev => phase ev = k) m -> emits_phases lo hi m.
Proof.
  intros Hk Hb Hm w. destruct (Hm w) as (new & Hw & Hnew). exists new.
  split; [exact Hw|]. split; [now apply (in_pipeline_order_step k)|].
  eapply Forall_impl; [exact Hnew|]. intros ev ->. exact Hb.
Qed.

Lemma emits_phases_bind {A B} lo1 hi1 lo2 hi2 (m : @M float A)
    (k : A -> M B) :
  lo1 <= hi1 -> hi1 < lo2 -> lo2 <= hi2 ->
  emits_phases lo1 hi1 m -> (forall a, emits_phases lo2 hi2 (k a)) ->
  emits_phases lo1 hi2 (bind m k).
Proof.
  intros H1 H12 H2 Hm Hk w. destruct (Hm w) as (new & Hw & Ho & Hb).
  unfold bind. destruct (m w) as [[e|a] w1]; cbn [snd] in Hw; subst w1.
  - exists new. split; [reflexivity|]. split; [exact Ho|].
    eapply Forall_impl; [exact Hb|]. cbn. lia.
  - destruct (Hk a (log w new)) as (new' & Hw' & Ho' & Hb').
    exists (new ++ new'). rewrite Hw', log_log. split; [reflexivity|].
    rewrite Forall_forall in Hb, Hb'. split.
    + apply in_pipeline_order_app; [exact Ho|exact Ho'|].
      intros x y Hx Hy. left. specialize (Hb x Hx). specialize (Hb' y Hy).
      cbn in Hb, Hb'. lia.
    + apply Forall_app. split; apply Forall_forall; intros x Hx.
      * specialize (Hb x Hx). cbn in Hb. lia.
      * specialize (Hb' x Hx). cbn in Hb'. lia.
Qed.

Lemma emits_phases_bind_silent {A B} lo hi (m : @M float A) (k : A -> M B) :
  (forall w, snd (m w) = w) -> (forall a, emits_phases lo hi (k a)) ->
  emits_phases lo hi (bind m k).
Proof.
  intros Hm Hk w. specialize (Hm w). unfold bind.
  destruct (m w) as [[e|a] w1]; cbn [snd] in Hm; subst w1.
  - exists []. split; [symmetry; apply log_nil|]. now split.
  - apply Hk.
Qed.

Lemma emits_phases_bind_ret {A B} lo hi (m : @M float A) (k : A -> M B) :
  (forall a w, snd (k a w) = w) -> emits_phases lo hi m ->
  emits_phases lo hi (bind m k).
Proof.
  intros Hk Hm w. destruct (Hm w) as (new & Hw & Ho & Hb).
  unfold bind. destruct (m w) as [[e|a] w1]; cbn [snd] in Hw; subst w1.
  - now exists new.
  - exists new. now rewrite Hk.
Qed.

Lemma emits_phases_catch_silent {A} lo hi (m : @M float A) (h : exn -> M A) :
  emits_phases lo hi m -> (forall e w, snd (h e w) = w) ->
  emits_phases lo hi (catch m h).
Proof.
  intros Hm Hh w. destruct (Hm w) as (new & Hw & Ho & Hb).
  unfold catch. destruct (m w) as [[e|a] w1]; cbn [snd] in Hw; subst w1.
  - exists new. now rewrite Hh.
  - now exists new.
Qed.

Lemma load_phases (p : Path) : emits_phases 1 1 (load env p).
Proof.
  apply (emits_phases_step 1); [now left|lia|].
  apply (only_emits_weaken (fun ev => extractor_call ev = true));
    [now intros []|apply load_emits].
Qed.

Lemma split_phases (text : str) : emits_phases 2 2 (split env text).
Proof.
  unfold split. destruct (negb (has_text text));
    [apply emits_phases_raise|now apply emits_phases_external].
Qed.

Lemma embed_texts_phases (texts : list str) :
  emits_phases 3 3 (embed_texts env texts).
Proof.
  unfold embed_texts. destruct (negb (truthy texts));
    [apply emits_phases_raise|].
  destruct (negb (truthy (List.filter has_text texts)));
    [apply emits_phases_raise|].
  apply emits_phases_catch_silent; [now apply emits_phases_external|].
  reflexivity.
Qed.

Lemma upsert_vectors_phases (vectors : list (vector float)) :
  emits_phases 4 4 (upsert_vectors env vectors).
Proof.
  apply (emits_phases_step 4); [now right|lia|].
  now apply upsert_vectors_emits.
Qed.

End Phases.

(** ** Ingestion runs as a whole *)

Section Ingestion.
Context {float : Type} (env : backend float).
Implicit Types w : world float.
Variables (document_id : UUID) (file_content : list byte).
Variables (file_name user_id : str).

(** The upload directory of the document once the upload is saved. *)
Local Abbreviation saved_files w :=
  (<[base_name env file_name := file_content]>
     (default ∅ (dirs w !! (document_id : str)))).

Lemma delete_file_dirs w :
  stat_raises env document_id = false ->
  exists w',
    _delete_file env document_id w = (inr tt, w')
    /\ (exists new, trace w' = trace w ++ new
                    /\ (new = [] \/ new = [EvRmtree document_id]))
    /\ (forall d : str, d <> document_id -> dirs w' !! d = dirs w !! d)
    /\ dirs w' !! (document_id : str)
       = (if rmtree_removes env then None else dirs w !! (document_id : str)).
Proof.
  intros Hstat. rewrite (delete_file_generated env _ _ Hstat).
  destruct (dirs w !! (document_id : str)) eqn:Hd.
  - destruct (rmtree_removes env); eexists; (split; [reflexivity|]); cbn.
    + split; [exists [EvRmtree document_id]; split; [reflexivity|now right]|].
      split; [|apply lookup_delete_eq].
      intros d Hne. now apply lookup_delete_ne.
    + split; [exists [EvRmtree document_id]; split; [reflexivity|now right]|].
      split; [reflexivity|exact Hd].
  - exists w. split; [reflexivity|].
    split; [exists []; split; [now rewrite app_nil_r|now left]|].
    split; [reflexivity|]. rewrite Hd. now destruct (rmtree_removes env).
Qed.

(** The stored upload can always be examined. *)
Lemma stored_load_raises (name : str) :
  raises_only (fun e => is_FileLoadError e = true)
    (bind (stored_path document_id name) (load env)).
Proof.
  intros w e w'. unfold stored_path.
  cbv beta iota delta [bind get_dirs ret].
  apply load_raises. cbn [path_stat].
  now destruct (dirs w !! (document_id : str) ≫= _).
Qed.

(** What a run of [process_document] does, path by path. *)
Lemma process_document_outline w :
  exists r w',
    process_document env document_id file_content file_name user_id w = (r, w')
    /\ (exists new, trace w' = trace w ++ new
                    /\ in_pipeline_order new
                    /\ Forall (fun ev => phase ev <= 5) new)
    /\ (forall d : str, d <> document_id -> dirs w' !! d = dirs w !! d)
    /\ match r with
       | inr res =>
         res_document_id res = document_id
         /\ res_file_name res = file_name
         /\ res_status res = lit "success"
         /\ 1 <= res_num_chunks res
         /\ 50 <= res_total_characters res
         /\ dirs w' !! (document_id : str) = Some (saved_files w)
       | inl e =>
         exists c,
           e = DocumentProcessingError c
           /\ c ∈ ingestion_error_codes
           /\ (c = "UNSUPPORTED_FILE_TYPE" ->
               w' = w
               /\ suffix_lower env file_name ∉ SUPPORTED_EXTENSIONS)
           /\ (c = "SAVE_FAILED" ->
               _save_file env file_content file_name document_id w
               = (inl OtherException, w'))
           /\ (c <> "UNSUPPORTED_FILE_TYPE" -> c <> "SAVE_FAILED" ->
               dirs w' !! (document_id : str)
               = if rmtree_removes env then None else Some (saved_files w))
       end.
Proof.
  unfold process_document.
  destruct (bool_decide (suffix_lower env file_name ∈ SUPPORTED_EXTENSIONS))
    eqn:Hext.
  2:{ exists (inl (DocumentProcessingError "UNSUPPORTED_FILE_TYPE")), w.
      split.
      { erewrite bind_inl; [reflexivity|].
        unfold catch, validate_extension. now rewrite Hext. }
      split; [exists []; split; [now rewrite app_nil_r|now split]|].
      split; [reflexivity|].
      exists "UNSUPPORTED_FILE_TYPE". split; [reflexivity|].
      split; [apply (bool_decide_unpack _); vm_compute; exact I|].
      split; [intros _; split;
                [reflexivity|exact (proj1 (bool_decide_eq_false _) Hext)]|].
      split; [discriminate|]. now intros Hn. }
  erewrite bind_inr
    by (apply catch_inr; unfold validate_extension; now rewrite Hext).
  assert (Hsaved : exists r w0,
            _save_file env file_content file_name document_id w = (r, w0))
    by (eexists _, _; apply surjective_pairing).
  destruct Hsaved as ([e0|safe_name] & w0 & Hrun).
  { destruct (save_file_failure env _ _ _ _ _ _ Hrun)
      as (-> & (new & Htr & Hnew) & Hframe & _).
    exists (inl (DocumentProcessingError "SAVE_FAILED")), w0.
    split.
    { erewrite bind_inl; [reflexivity|].
      now rewrite (catch_inl _ _ _ _ _ Hrun). }
    split.
    { exists new. split; [exact Htr|].
      destruct Hnew as [->| ->]; split;
        first [now split|repeat constructor]. }
    split; [exact Hframe|].
    exists "SAVE_FAILED". split; [reflexivity|].
    split; [apply (bool_decide_unpack _); vm_compute; exact I|].
    split; [discriminate|]. split; [now intros _|]. now intros _ Hn. }
  destruct (save_file_success env _ _ _ _ _ _ Hrun) as (Hstat & -> & Hw0).
  set (w1 := {| dirs := <[(document_id : str) := saved_files w]> (dirs w);
                trace := trace w
                         ++ [EvWriteBytes document_id (base_name env file_name)] |}).
  fold w1 in Hw0. subst w0.
  rewrite (bind_inr _ _ _ _ _ (catch_inr _ _ _ _ _ Hrun)). clear Hrun.
  match goal with
  | |- context [catch ?body _ w1] => set (b := body)
  end.
  pose (Qe := fun e : exn =>
          match e with
          | DocumentProcessingError c =>
            c ∈ ingestion_error_codes
            /\ c <> "UNSUPPORTED_FILE_TYPE" /\ c <> "SAVE_FAILED"
          | _ => True
          end).
  pose (R := fun res : processing_result =>
          res_document_id res = document_id
          /\ res_file_name res = file_name
          /\ res_status res = lit "success"
          /\ 1 <= res_num_chunks res
          /\ 50 <= res_total_characters res).
  assert (Hcode : forall c A,
            bool_decide (c ∈ ingestion_error_codes) = true ->
            bool_decide (c ∈ ["UNSUPPORTED_FILE_TYPE"; "SAVE_FAILED"]) = false ->
            raises_only Qe (@raise float A (DocumentProcessingError c))).
  { intros c A Hin Hout. apply raises_only_raise. cbn.
    apply bool_decide_eq_true in Hin. apply bool_decide_eq_false in Hout.
    split; [exact Hin|]. split; intros ->; apply Hout.
    - now left.
    - right. now left. }
  assert (Hphases : emits_phases 1 4 b).
  { subst b.
    apply (emits_phases_bind 1 1 2 4); [lia|lia|lia| |].
    { apply emits_phases_catch_silent; [|intros e w0; now destruct e].
      apply emits_phases_bind_silent; [reflexivity|].
      intros p. apply load_phases. }
    intros text.
    destruct (negb _); [apply emits_phases_raise|].
    destruct (_ <? 50); [apply emits_phases_raise|].
    apply (emits_phases_bind 2 2 3 4); [lia|lia|lia| |].
    { apply emits_phases_catch_silent; [apply split_phases|].
      intros e w0. now destruct e. }
    intros chunks.
    destruct (negb _); [apply emits_phases_raise|].
    destruct (negb _); [apply emits_phases_raise|].
    apply (emits_phases_bind 3 3 4 4); [lia|lia|lia| |].
    { apply emits_phases_catch_silent; [apply embed_texts_phases|].
      intros e w0. now destruct e. }
    intros embeddings.
    apply emits_phases_bind_ret; [reflexivity|].
    apply emits_phases_catch_silent; [apply upsert_vectors_phases|].
    intros e w0. now destruct e. }
  assert (Hwrite : forall new del : list (event float),
            in_pipeline_order new ->
            Forall (fun ev => 1 <= phase ev <= 4) new ->
            del = [] \/ del = [EvRmtree document_id] ->
            in_pipeline_order
              ([EvWriteBytes document_id (base_name env file_name)]
               ++ new ++ del)
            /\ Forall (fun ev => phase ev <= 5)
                 ([EvWriteBytes document_id (base_name env file_name)]
                  ++ new ++ del)).
  { intros new del Ho Hb Hdel.
    assert (Hodel : in_pipeline_order del)
      by (destruct Hdel as [->| ->]; now repeat split).
    assert (Hbdel : Forall (fun ev => phase ev = 5) del)
      by (destruct Hdel as [->| ->]; now repeat constructor).
    rewrite Forall_forall in Hb, Hbdel. split.
    - apply in_pipeline_order_app; [now split| |].
      + apply in_pipeline_order_app; [exact Ho|exact Hodel|].
        intros x y Hx Hy. left. specialize (Hb x Hx).
        rewrite (Hbdel y Hy). cbn in Hb. lia.
      + intros x y Hx Hy. apply list_elem_of_singleton in Hx. subst x. left.
        apply elem_of_app in Hy as [Hy|Hy].
        * specialize (Hb y Hy). cbn in Hb |- *. lia.
        * rewrite (Hbdel y Hy). cbn. lia.
    - apply Forall_app. split; [repeat constructor; cbn; lia|].
      apply Forall_app. split; apply Forall_forall; intros x Hx.
      + specialize (Hb x Hx). cbn in Hb. lia.
      + rewrite (Hbdel x Hx). lia. }
  assert (Hraises : raises_only Qe b).
  { subst b.
    apply raises_only_bind.
    { apply (raises_only_catch (fun e => is_FileLoadError e = true)).
      - apply stored_load_raises.
      - intros e He. destruct e; try discriminate He; now apply Hcode. }
    intros text.
    destruct (negb _); [now apply Hcode|].
    destruct (_ <? 50); [now apply Hcode|].
    apply raises_only_bind.
    { apply (raises_only_catch _ _ _ _ (split_raises env _)).
      intros e [->| ->]; [now apply Hcode|now apply raises_only_raise]. }
    intros chunks.
    destruct (negb (truthy chunks)); [now apply Hcode|].
    destruct (negb (truthy (List.filter has_text chunks))) eqn:Hc;
      [now apply Hcode|].
    apply negb_false_iff, truthy_true in Hc.
    apply raises_only_bind.
    { apply (raises_only_catch (fun e => e = RuntimeError)).
      - apply embed_texts_raises; [exact Hc|].
        apply Forall_forall. intros t Ht.
        apply list_elem_of_In, filter_In in Ht. tauto.
      - intros e ->. now apply Hcode. }
    intros embeddings.
    apply raises_only_bind; [|intros _; apply raises_only_ret].
    apply (raises_only_catch _ _ _ _ (upsert_vectors_raises_only env _)).
    intros e ->. now apply Hcode. }
  assert (Hreturns : returns_only R b).
  { subst b.
    apply returns_only_bind. intros text. rewrite clean_text_strip.
    destruct (negb _); [apply returns_only_raise|].
    destruct (_ <? 50) eqn:Hlen; [apply returns_only_raise|].
    apply Nat.ltb_ge in Hlen.
    apply returns_only_bind. intros chunks.
    destruct (negb (truthy chunks)); [apply returns_only_raise|].
    destruct (negb (truthy (List.filter has_text chunks))) eqn:Hc;
      [apply returns_only_raise|].
    apply negb_false_iff, truthy_true in Hc.
    apply returns_only_bind. intros embeddings.
    apply returns_only_bind. intros _.
    apply returns_only_ret. unfold R. cbn.
    repeat split; [|exact Hlen].
    destruct (List.filter has_text chunks); [contradiction|cbn; lia]. }
  clearbody b.
  destruct (b w1) as [[e|res] w2] eqn:Hb.
  - destruct (Hphases w1) as (new & Hw2 & Hord & Hnew). rewrite Hb in Hw2.
    cbn [snd] in Hw2. subst w2.
    pose proof (Hraises _ _ _ Hb) as He.
    rewrite (catch_inl _ _ _ _ _ Hb).
    destruct (delete_file_dirs (log w1 new) Hstat)
      as (w3 & Hdel & (del & Htr & Hdl) & Hframe & Hdir).
    rewrite (bind_inr _ _ _ _ _ Hdel).
    assert (Htrace : exists new', trace w3 = trace w ++ new'
                                  /\ in_pipeline_order new'
                                  /\ Forall (fun ev => phase ev <= 5) new').
    { exists ([EvWriteBytes document_id (base_name env file_name)] ++ new ++ del).
      split; [rewrite Htr; cbn; now rewrite <- !app_assoc|].
      now apply Hwrite. }
    assert (Hother : forall d : str,
              d <> document_id -> dirs w3 !! d = dirs w !! d).
    { intros d Hd. rewrite (Hframe d Hd). cbn. now apply lookup_insert_ne. }
    assert (Hgone : dirs w3 !! (document_id : str)
                    = if rmtree_removes env then None
                      else Some (saved_files w)).
    { rewrite Hdir. cbn. now rewrite lookup_insert_eq. }
    assert (Hfinal : forall c,
              Qe (DocumentProcessingError c) ->
              exists c',
                DocumentProcessingError c = DocumentProcessingError c'
                /\ c' ∈ ingestion_error_codes
                /\ (c' = "UNSUPPORTED_FILE_TYPE" ->
                    w3 = w
                    /\ suffix_lower env file_name ∉ SUPPORTED_EXTENSIONS)
                /\ (c' = "SAVE_FAILED" ->
                    _save_file env file_content file_name document_id w
                    = (inl OtherException, w3))
                /\ (c' <> "UNSUPPORTED_FILE_TYPE" -> c' <> "SAVE_FAILED" ->
                    dirs w3 !! (document_id : str)
                    = if rmtree_removes env then None
                      else Some (saved_files w))).
    { intros c (Hin & Hn1 & Hn2). exists c. split; [reflexivity|].
      split; [exact Hin|]. split; [intros; contradiction|].
      split; [intros; contradiction|]. now intros _ _. }
    assert (Hunknown : Qe (DocumentProcessingError "UNKNOWN_ERROR")).
    { cbn. split; [apply (bool_decide_unpack _); vm_compute; exact I|].
      split; discriminate. }
    destruct e; eexists _, w3; (split; [reflexivity|]);
      (split; [exact Htrace|]); (split; [exact Hother|]);
      first [exact (Hfinal _ He)|exact (Hfinal _ Hunknown)].
  - destruct (Hphases w1) as (new & Hw2 & Hord & Hnew). rewrite Hb in Hw2.
    cbn [snd] in Hw2. subst w2.
    pose proof (Hreturns _ _ _ Hb) as (H1 & H2 & H3 & H4 & H5).
    rewrite (catch_inr _ _ _ _ _ Hb).
    exists (inr res), (log w1 new). split; [reflexivity|].
    split.
    { exists ([EvWriteBytes document_id (base_name env file_name)] ++ new).
      split; [cbn; now rewrite <- app_assoc|].
      rewrite <- (app_nil_r new). apply Hwrite; [exact Hord|exact Hnew|].
      now left. }
    split; [intros d Hd; cbn; now apply lookup_insert_ne|].
    repeat split; try assumption. cbn. now rewrite lookup_insert_eq.
Qed.

(** X7. [process_document] fails with [DocumentProcessingError] only,
    and with one of eleven error codes: no other exception escapes, and
    the codes [EMBEDDING_FAILED] and [PROCESSING_FAILED] never occur. *)
Theorem process_document_error_codes w e w' :
  process_document env document_id file_content file_name user_id w
  = (inl e, w') ->
  exists c, e = DocumentProcessingError c /\ c ∈ ingestion_error_codes.
Proof.
  intros H.
  destruct (process_document_outline w) as (r & w0 & Hrun & _ & _ & Hr).
  rewrite H in Hrun. injection Hrun as <- <-.
  destruct Hr as (c & -> & Hin & _). now exists c.
Qed.

(** X8. What a failed run of [process_document] leaves on disk. The
    run fails with [UNSUPPORTED_FILE_TYPE] exactly when the file type
    is refused, and then nothing has been done. It fails with
    [SAVE_FAILED] exactly when the file type is accepted and
    [_save_file] fails, and then no cleanup is attempted: the run ends
    in the world the failed [_save_file] left, in which the directory
    of the document may have been created and then holds the files it
    held before and at most a truncated copy of the upload. After any
    later failure the directory of the document is removed (when
    [rmtree] gets to remove it). The directories of other documents are
    never touched. *)
Theorem process_document_failure_cleans_up w e w' :
  process_document env document_id file_content file_name user_id w
  = (inl e, w') ->
  (forall d : str, d <> document_id -> dirs w' !! d = dirs w !! d)
  /\ (e = DocumentProcessingError "UNSUPPORTED_FILE_TYPE"
      <-> suffix_lower env file_name ∉ SUPPORTED_EXTENSIONS)
  /\ (e = DocumentProcessingError "UNSUPPORTED_FILE_TYPE" -> w' = w)
  /\ (e = DocumentProcessingError "SAVE_FAILED"
      <-> suffix_lower env file_name ∈ SUPPORTED_EXTENSIONS
          /\ exists e0 w0,
               _save_file env file_content file_name document_id w
               = (inl e0, w0))
  /\ (e = DocumentProcessingError "SAVE_FAILED" ->
      _save_file env file_content file_name document_id w
      = (inl OtherException, w')
      /\ (w' = w
          \/ dirs w' !! (document_id : str)
             = Some (default ∅ (dirs w !! (document_id : str)))
          \/ exists kept,
               dirs w' !! (document_id : str)
               = Some (<[base_name env file_name := take kept file_content]>
                         (default ∅ (dirs w !! (document_id : str))))))
  /\ (e <> DocumentProcessingError "UNSUPPORTED_FILE_TYPE" ->
      e <> DocumentProcessingError "SAVE_FAILED" ->
      rmtree_removes env = true -> dirs w' !! (document_id : str) = None).
Proof.
  intros H.
  destruct (process_document_outline w) as (r & w0 & Hrun & _ & Hframe & Hr).
  rewrite H in Hrun. injection Hrun as <- <-.
  destruct Hr as (c & -> & _ & Hu & Hs & Hdel).
  assert (Hrefused : suffix_lower env file_name ∉ SUPPORTED_EXTENSIONS ->
            c = "UNSUPPORTED_FILE_TYPE").
  { intros Hext. revert H. unfold process_document.
    match goal with
    | |- bind ?m _ w = _ -> _ =>
      assert (Hv : m w = (inl (DocumentProcessingError
                                 "UNSUPPORTED_FILE_TYPE"), w))
    end.
    { unfold catch, validate_extension.
      now rewrite bool_decide_eq_false_2 by exact Hext. }
    rewrite (bind_inl _ _ _ _ _ Hv). now intros [= -> _]. }
  assert (Hunsaved : suffix_lower env file_name ∈ SUPPORTED_EXTENSIONS ->
            forall e0 w0,
              _save_file env file_content file_name document_id w
              = (inl e0, w0) ->
              c = "SAVE_FAILED").
  { intros Hext e0 w0 Hsave. revert H. unfold process_document.
    erewrite bind_inr
      by (apply catch_inr; now apply validate_extension_ok).
    match goal with
    | |- bind ?m _ w = _ -> _ =>
      assert (Hv : m w = (inl (DocumentProcessingError "SAVE_FAILED"), w0))
        by now rewrite (catch_inl _ _ _ _ _ Hsave)
    end.
    rewrite (bind_inl _ _ _ _ _ Hv). now intros [= -> _]. }
  split; [exact Hframe|]. split; [|split; [|split; [|split]]].
  - split; [intros [= ->]; now apply Hu|intros Hext; now rewrite Hrefused].
  - intros [= ->]. now apply Hu.
  - split.
    + intros [= ->]. specialize (Hs eq_refl).
      split; [|exists OtherException, w'; exact Hs].
      destruct (decide (suffix_lower env file_name ∈ SUPPORTED_EXTENSIONS))
        as [Hext|Hext]; [exact Hext|].
      discriminate (Hrefused Hext).
    + intros (Hext & e0 & w0 & Hsave). now rewrite (Hunsaved Hext e0 w0 Hsave).
  - intros [= ->]. specialize (Hs eq_refl). split; [exact Hs|].
    now apply save_file_failure in Hs.
  - intros Hn1 Hn2 Hrm. rewrite Hdel, Hrm; [reflexivity| |]; congruence.
Qed.

(** X9. A successful run of [process_document] reports the identifier
    of the run, the file name as uploaded and the status ["success"],
    at least one chunk and at least 50 characters; the upload is kept
    on disk under the identifier of the document, and the directories
    of other documents are untouched. *)
Theorem process_document_success w res w' :
  process_document env document_id file_content file_name user_id w
  = (inr res, w') ->
  res_document_id res = document_id
  /\ res_file_name res = file_name
  /\ res_status res = lit "success"
  /\ 1 <= res_num_chunks res
  /\ 50 <= res_total_characters res
  /\ dirs w' !! (document_id : str)
     = Some (<[base_name env file_name := file_content]>
               (default ∅ (dirs w !! (document_id : str))))
  /\ (forall d : str, d <> document_id -> dirs w' !! d = dirs w !! d).
Proof.
  intros H.
  destruct (process_document_outline w) as (r & w0 & Hrun & _ & Hframe & Hr).
  rewrite H in Hrun. injection Hrun as <- <-.
  destruct Hr as (H1 & H2 & H3 & H4 & H5 & H6). now repeat split.
Qed.

(** X10. The external calls of a run of [process_document] come in
    the order of the pipeline, whatever happens: at most one write of
    the upload, then the calls of the extractor, at most one call of
    the splitter, at most one call of the embedding model, the upsert
    calls, and at most one removal of the upload directory, at the
    end. No call queries the index or deletes index records, so
    records accepted before a later step fails are not taken back. *)
Theorem process_document_calls_in_order w :
  exists new,
    trace (snd (process_document env document_id file_content file_name
                  user_id w))
    = trace w ++ new
    /\ in_pipeline_order new
    /\ Forall (fun ev => ingestion_call ev = true) new
    /\ forall flt, (EvIndexDelete flt ∉ new).
Proof.
  destruct (process_document_outline w)
    as (r & w0 & Hrun & (new & Htr & Hord & Hnew) & _).
  rewrite Hrun. exists new. split; [exact Htr|]. split; [exact Hord|].
  assert (Hcalls : Forall (fun ev => ingestion_call ev = true) new).
  { eapply Forall_impl; [exact Hnew|]. apply phase_ingestion_call. }
  split; [exact Hcalls|].
  intros flt Hin. rewrite Forall_forall in Hcalls.
  specialize (Hcalls _ Hin). discriminate.
Qed.

End Ingestion.

Lemma process_document_error_codes_witness :
  exists c,
    DocumentProcessingError "INSUFFICIENT_CONTENT" = DocumentProcessingError c
    /\ c ∈ ingestion_error_codes.
Proof.
  apply (process_document_error_codes prose_backend sample_id ten_chars
           (lit "ten.txt") (lit "user_1") empty_world
           (DocumentProcessingError "INSUFFICIENT_CONTENT")
           (snd (process_document prose_backend sample_id ten_chars
                   (lit "ten.txt") (lit "user_1") empty_world))).
  vm_compute. reflexivity.
Defined.

Lemma process_document_failure_cleans_up_witness :
  dirs save_refused !! (other_id : str) = Some ∅
  /\ (forall d : str, d <> other_id ->
        dirs save_refused !! d = dirs world_with_upload !! d)
  /\ (DocumentProcessingError "SAVE_FAILED"
      = DocumentProcessingError "UNSUPPORTED_FILE_TYPE"
      <-> suffix_lower prose_backend long_name ∉ SUPPORTED_EXTENSIONS)
  /\ (DocumentProcessingError "SAVE_FAILED"
      = DocumentProcessingError "UNSUPPORTED_FILE_TYPE" ->
      save_refused = world_with_upload)
  /\ (DocumentProcessingError "SAVE_FAILED"
      = DocumentProcessingError "SAVE_FAILED"
      <-> suffix_lower prose_backend long_name ∈ SUPPORTED_EXTENSIONS
          /\ exists e0 w0,
               _save_file prose_backend ten_chars long_name other_id
                 world_with_upload
               = (inl e0, w0))
  /\ (DocumentProcessingError "SAVE_FAILED"
      = DocumentProcessingError "SAVE_FAILED" ->
      _save_file prose_backend ten_chars long_name other_id world_with_upload
      = (inl OtherException, save_refused)
      /\ (save_refused = world_with_upload
          \/ dirs save_refused !! (other_id : str)
             = Some (default ∅ (dirs world_with_upload !! (other_id : str)))
          \/ exists kept,
               dirs save_refused !! (other_id : str)
               = Some (<[base_name prose_backend long_name
                         := take kept ten_chars]>
                         (default ∅
                            (dirs world_with_upload !! (other_id : str))))))
  /\ (DocumentProcessingError "SAVE_FAILED"
      <> DocumentProcessingError "UNSUPPORTED_FILE_TYPE" ->
      DocumentProcessingError "SAVE_FAILED"
      <> DocumentProcessingError "SAVE_FAILED" ->
      rmtree_removes prose_backend = true ->
      dirs save_refused !! (other_id : str) = None).
Proof.
  split; [vm_compute; reflexivity|].
  apply (process_document_failure_cleans_up prose_backend other_id
           ten_chars long_name (lit "user_1") world_with_upload
           (DocumentProcessingError "SAVE_FAILED") save_refused).
  vm_compute. reflexivity.
Defined.

Lemma process_document_success_witness :
  res_document_id prose_result = sample_id
  /\ res_file_name prose_result = lit "prose.txt"
  /\ res_status prose_result = lit "success"
  /\ 1 <= res_num_chunks prose_result
  /\ 50 <= res_total_characters prose_result
  /\ dirs prose_ingested !! (sample_id : str)
     = Some (<[base_name prose_backend (lit "prose.txt") := bytes_of prose]>
               (default ∅ (dirs empty_world !! (sample_id : str))))
  /\ (forall d : str, d <> sample_id ->
      dirs prose_ingested !! d = dirs empty_world !! d).
Proof.
  apply (process_document_success prose_backend sample_id (bytes_of prose)
           (lit "prose.txt") (lit "user_1") empty_world prose_result
           prose_ingested).
  vm_compute. reflexivity.
Defined.

(** ** Upserting in batches *)

Section Upserts.
Context {float : Type} (env : backend float).
Implicit Types w : world float.

Local Abbreviation sent :=
  (List.map (fun b : list (vector float) =>
               EvIndexUpsert (List.map upsert_tuple b))).

Lemma batches_sizes {A} (l : list A) :
  Forall (fun b => 1 <= length b <= 100) (batches 100 l)
  /\ length (batches 100 l) = (length l + 99) / 100.
Proof.
  unfold batches. split; [|now rewrite length_map, length_seq].
  apply Forall_forall. intros b Hb.
  apply list_elem_of_In, in_map_iff in Hb as (k & <- & Hk).
  apply in_seq in Hk. rewrite length_take, length_drop.
  assert (k * 100 < length l).
  { destruct Hk as [_ Hk]. change (100 - 1) with 99 in Hk.
    pose proof (Nat.div_mod_eq (length l + 99) 100).
    pose proof (Nat.mod_upper_bound (length l + 99) 100). lia. }
  lia.
Qed.

Lemma upsert_loop_raises (bs : list (list (vector float))) :
  forall total w e w',
    upsert_loop env bs total w = (inl e, w') ->
    exists k rejected,
      bs !! k = Some rejected
      /\ index_upsert env (List.map upsert_tuple rejected) = Raises
      /\ w' = log w (sent (take (S k) bs))
      /\ forall j b, j < k -> bs !! j = Some b ->
           index_upsert env (List.map upsert_tuple b) = Returns tt.
Proof.
  induction bs as [|b bs IH]; intros total w e w' H; [discriminate|].
  cbn [upsert_loop] in H.
  destruct (index_upsert env (List.map upsert_tuple b)) as [|[]] eqn:Hb.
  - rewrite (bind_inl _ _ _ _ _ (external_raises _ w)) in H.
    injection H as <- <-. exists 0, b. split; [reflexivity|].
    split; [exact Hb|]. split; [reflexivity|]. intros j b' Hj. lia.
  - rewrite (bind_inr _ _ _ _ _ (external_returns _ tt w)) in H.
    apply IH in H as (k & rejected & Hk & Hrej & -> & Hbefore).
    exists (S k), rejected. split; [exact Hk|]. split; [exact Hrej|].
    split; [now rewrite log_log|].
    intros [|j] b' Hj Hb'; [now injection Hb' as <-|].
    apply (Hbefore j); [lia|exact Hb'].
Qed.

(** X11. When [upsert_vectors] returns, it returns the number of
    records it was given, and it has sent them to the index in order,
    in batches of at least one and at most 100 records: one call for
    each started hundred, none for an empty list. *)
Theorem upsert_vectors_sends_all (vectors : list (vector float)) w n w' :
  upsert_vectors env vectors w = (inr n, w') ->
  n = length vectors
  /\ exists bs,
       w' = log w (sent bs)
       /\ concat bs = vectors
       /\ Forall (fun b => 1 <= length b <= 100) bs
       /\ length bs = (length vectors + 99) / 100.
Proof.
  unfold upsert_vectors. destruct vectors as [|v vs] eqn:Ev; cbn [truthy negb].
  - intros [= <- <-]. split; [reflexivity|]. exists [].
    split; [symmetry; apply log_nil|]. now repeat split.
  - rewrite <- Ev. unfold catch.
    destruct (upsert_loop env (batches 100 vectors) 0 w) as [[e'|n'] w0] eqn:Hl;
      [discriminate|].
    intros [= <- <-]. apply upsert_loop_returns in Hl as [-> ->].
    assert (Hcat : concat (batches 100 vectors) = vectors)
      by (apply concat_batches; lia).
    split; [now rewrite Hcat|].
    exists (batches 100 vectors). split; [reflexivity|].
    split; [exact Hcat|]. apply batches_sizes.
Qed.

(** X12. When [upsert_vectors] fails it raises [RuntimeError], and the
    index has rejected one batch: the batches before it were accepted
    and are not taken back, and no batch after it was sent. *)
Theorem upsert_vectors_stops_at_rejected_batch
    (vectors : list (vector float)) w e w' :
  upsert_vectors env vectors w = (inl e, w') ->
  e = RuntimeError
  /\ exists k rejected,
       batches 100 vectors !! k = Some rejected
       /\ index_upsert env (List.map upsert_tuple rejected) = Raises
       /\ w' = log w (sent (take (S k) (batches 100 vectors)))
       /\ forall j b, j < k -> batches 100 vectors !! j = Some b ->
            index_upsert env (List.map upsert_tuple b) = Returns tt.
Proof.
  unfold upsert_vectors. destruct (negb (truthy vectors)); [discriminate|].
  unfold catch.
  destruct (upsert_loop env (batches 100 vectors) 0 w) as [[e'|n'] w0] eqn:Hl;
    [|discriminate].
  intros [= <- <-]. split; [reflexivity|].
  exact (upsert_loop_raises _ _ _ _ _ Hl).
Qed.

End Upserts.

Lemma upsert_vectors_sends_all_witness :
  101 = length many_vectors
  /\ exists bs,
       snd (upsert_vectors prose_backend many_vectors empty_world)
       = log empty_world
           (List.map (fun b => EvIndexUpsert (List.map upsert_tuple b)) bs)
       /\ concat bs = many_vectors
       /\ Forall (fun b => 1 <= length b <= 100) bs
       /\ length bs = (length many_vectors + 99) / 100.
Proof.
  apply (upsert_vectors_sends_all prose_backend many_vectors empty_world 101
           (snd (upsert_vectors prose_backend many_vectors empty_world))).
  vm_compute. reflexivity.
Defined.

Lemma upsert_vectors_stops_at_rejected_batch_witness :
  RuntimeError = RuntimeError
  /\ exists k rejected,
       batches 100 many_vectors !! k = Some rejected
       /\ index_upsert full_batches_backend (List.map upsert_tuple rejected)
          = Raises
       /\ snd (upsert_vectors full_batches_backend many_vectors empty_world)
          = log empty_world
              (List.map (fun b => EvIndexUpsert (List.map upsert_tuple b))
                 (take (S k) (batches 100 many_vectors)))
       /\ forall j b, j < k -> batches 100 many_vectors !! j = Some b ->
            index_upsert full_batches_backend (List.map upsert_tuple b)
            = Returns tt.
Proof.
  apply (upsert_vectors_stops_at_rejected_batch full_batches_backend
           many_vectors empty_world RuntimeError
           (snd (upsert_vectors full_batches_backend many_vectors empty_world))).
  vm_compute. reflexivity.
Defined.

(** ** Index provisioning *)

Section Provisioning.
Variable admin : index_admin.
Variable index_name : str.

Lemma slept_app (a b : list admin_call) : slept (a ++ b) = slept a + slept b.
Proof.
  unfold slept. induction a as [|x a IH]; [reflexivity|].
  simpl. simpl in IH. rewrite IH. lia.
Qed.

Lemma polled_app (a b : list admin_call) :
  polled (a ++ b) = polled a + polled b.
Proof. unfold polled. now rewrite List.filter_app, length_app. Qed.

Lemma created_app (a b : list admin_call) :
  created (a ++ b) = created a + created b.
Proof. unfold created. now rewrite List.filter_app, length_app. Qed.

Lemma wait_until_ready_bounded (fuel : nat) :
  forall i calls,
    i <= 60 -> 60 - i < fuel ->
    exists r extra,
      wait_until_ready fuel admin index_name 120 (2 * i) i calls
      = Some (r, calls ++ extra)
      /\ polled extra <= 60 - i
      /\ slept extra <= 2 * (60 - i)
      /\ created extra = 0
      /\ r <> inr IndexExisted
      /\ (r = inr IndexTimedOut ->
          polled extra = 60 - i /\ slept extra = 2 * (60 - i))
      /\ (r = inr IndexTimedOut <->
          forall k, i <= k < 60 -> describe_index admin k = Returns false)
      /\ (r = inr IndexReady <->
          exists k, i <= k < 60 /\ describe_index admin k = Returns true
                    /\ forall j, i <= j < k ->
                          describe_index admin j = Returns false)
      /\ (forall e, r = inl e ->
          e = OtherException
          /\ exists k, i <= k < 60 /\ describe_index admin k = Raises).
Proof.
  induction fuel as [|fuel IH]; intros i calls Hi Hfuel; [lia|].
  cbn [wait_until_ready].
  destruct (2 * i <? 120) eqn:Hlt.
  - apply Nat.ltb_lt in Hlt.
    destruct (describe_index admin i) as [|[]] eqn:Hd.
    + exists (inl OtherException), [CallDescribeIndex index_name].
      split; [reflexivity|]. cbn.
      repeat split; try lia; try discriminate; try congruence.
      * intros H. specialize (H i ltac:(lia)). congruence.
      * intros (k & Hk & Hready & Hbefore).
        destruct (Nat.eq_dec k i) as [->|Hne]; [congruence|].
        specialize (Hbefore i ltac:(lia)). congruence.
      * exists i. split; [lia|exact Hd].
    + exists (inr IndexReady), [CallDescribeIndex index_name].
      split; [reflexivity|]. cbn.
      repeat split; try lia; try discriminate.
      * intros H. specialize (H i ltac:(lia)). congruence.
      * intros _. exists i. split; [lia|]. split; [exact Hd|]. intros j Hj. lia.
    + replace (2 * i + 2) with (2 * S i) by lia.
      destruct (IH (S i)
                  (calls ++ [CallDescribeIndex index_name; CallSleep 2]))
        as (r & extra & Hrun & Hp & Hs & Hc & Hn & Ht & Hto & Hrd & He);
        [lia|lia|].
      exists r, ([CallDescribeIndex index_name; CallSleep 2] ++ extra).
      split; [now rewrite app_assoc|].
      rewrite polled_app, slept_app, created_app. cbn.
      split; [lia|]. split; [lia|]. split; [lia|]. split; [exact Hn|].
      split; [intros H; destruct (Ht H); lia|].
      split; [|split].
      3:{ intros e Hr. destruct (He e Hr) as (-> & k & Hk & Hraise).
          split; [reflexivity|]. exists k. split; [lia|exact Hraise]. }
      * rewrite Hto. split; intros H k Hk.
        -- destruct (Nat.eq_dec k i) as [->|Hne]; [exact Hd|].
           apply H. lia.
        -- apply H. lia.
      * rewrite Hrd. split; intros (k & Hk & Hready & Hbefore).
        -- exists k. split; [lia|]. split; [exact Hready|]. intros j Hj.
           destruct (Nat.eq_dec j i) as [->|Hne]; [exact Hd|].
           apply Hbefore. lia.
        -- assert (k <> i) by congruence.
           exists k. split; [lia|]. split; [exact Hready|]. intros j Hj.
           apply Hbefore. lia.
  - apply Nat.ltb_ge in Hlt. exists (inr IndexTimedOut), [].
    split; [now rewrite app_nil_r|]. cbn.
    repeat split; try lia; try discriminate.
    all: try (intros; lia).
    intros (k & Hk & _). lia.
Qed.

(** X13. [_ensure_index_exists] always comes to an end. It creates the
    index at most once and only when its name is not listed; it then
    polls the status at most 60 times and sleeps at most 120 seconds.
    When the index has been created and none of the 60 polls finds it
    ready, the function returns normally, as it does when a poll finds
    the index ready: it raises only when a call of the client raises.
    The time-out is reached exactly when the name was not listed, the
    creation succeeded and all 60 polls answered "not ready". *)
Theorem ensure_index_exists_is_bounded (region : str) :
  exists r calls,
    _ensure_index_exists admin index_name region = Some (r, calls)
    /\ polled calls <= 60
    /\ slept calls <= 120
    /\ created calls <= 1
    /\ ((exists names, list_indexes admin = Returns names
                       /\ index_name ∈ names) ->
        r = inr IndexExisted /\ calls = [CallListIndexes])
    /\ (r = inr IndexTimedOut ->
        created calls = 1 /\ polled calls = 60 /\ slept calls = 120)
    /\ (r = inr IndexTimedOut <->
        (exists names, list_indexes admin = Returns names
                       /\ index_name ∉ names)
        /\ create_index admin = Returns tt
        /\ forall k, k < 60 -> describe_index admin k = Returns false)
    /\ (forall e, r = inl e ->
        e = OtherException
        /\ (list_indexes admin = Raises
            \/ create_index admin = Raises
            \/ exists k, k < 60 /\ describe_index admin k = Raises)).
Proof.
  unfold _ensure_index_exists.
  destruct (list_indexes admin) as [|names] eqn:Hlist.
  { eexists _, _. split; [reflexivity|]. cbn.
    split; [lia|]. split; [lia|]. split; [lia|].
    split; [now intros (? & ? & _)|]. split; [discriminate|].
    split; [split; [discriminate|now intros ((? & ? & _) & _)]|].
    intros e [= <-]. split; [reflexivity|now left]. }
  destruct (bool_decide (index_name ∈ names)) eqn:Hin.
  { apply bool_decide_eq_true in Hin.
    eexists _, _. split; [reflexivity|]. cbn.
    split; [lia|]. split; [lia|]. split; [lia|].
    split; [easy|]. split; [discriminate|].
    split; [|discriminate].
    split; [discriminate|]. intros ((names0 & [= <-] & Hnot) & _).
    contradiction. }
  apply bool_decide_eq_false in Hin.
  assert (Hno : ~ exists names0, Returns names = Returns names0
                                 /\ index_name ∈ names0).
  { intros (names0 & [= <-] & Hin'). contradiction. }
  destruct (create_index admin) as [|[]] eqn:Hcreate.
  { eexists _, _. split; [reflexivity|]. cbn.
    split; [lia|]. split; [lia|]. split; [lia|].
    split; [intros H; exfalso; now apply Hno|]. split; [discriminate|].
    split; [split; [discriminate|now intros (_ & ? & _)]|].
    intros e [= <-]. split; [reflexivity|right; now left]. }
  destruct (wait_until_ready_bounded 121 0
              [CallListIndexes;
               CallCreateIndex index_name 768 (lit "cosine") (lit "aws") region])
    as (r & extra & Hrun & Hp & Hs & Hc & Hn & Ht & Hto & Hrd & He); [lia|lia|].
  change (2 * 0) with 0 in Hrun. rewrite Hrun.
  eexists _, _. split; [reflexivity|].
  rewrite polled_app, slept_app, created_app. cbn.
  split; [lia|]. split; [lia|]. split; [lia|].
  split; [intros H; exfalso; now apply Hno|].
  split; [intros H; destruct (Ht H); lia|].
  split.
  - rewrite Hto. split.
    + intros H. split; [now exists names|]. split; [reflexivity|].
      intros k Hk. apply H. lia.
    + intros (_ & _ & H) k Hk. apply H. lia.
  - intros e Hr. destruct (He e Hr) as (-> & k & Hk & Hraise).
    split; [reflexivity|]. right. right. exists k. split; [lia|exact Hraise].
Qed.

End Provisioning.

(** A run of the theorem: on a client whose index never becomes ready
    the function returns after 60 polls and 120 seconds of sleep. *)
Lemma ensure_index_exists_is_bounded_witness :
  exists calls,
    _ensure_index_exists never_ready (lit "hackx-docs") (lit "us-east-1")
    = Some (inr IndexTimedOut, calls)
    /\ created calls = 1 /\ polled calls = 60 /\ slept calls = 120.
Proof.
  destruct (ensure_index_exists_is_bounded never_ready (lit "hackx-docs")
              (lit "us-east-1"))
    as (r & calls & Hrun & _ & _ & _ & _ & Hcount & Htimeout & _).
  assert (Hr : r = inr IndexTimedOut).
  { apply Htimeout. split; [|split; [reflexivity|reflexivity]].
    exists [lit "other-index"]. split; [reflexivity|].
    intros Hin. apply list_elem_of_In in Hin. vm_compute in Hin.
    destruct Hin as [Hin|[]]. discriminate Hin. }
  subst r. exists calls. split; [exact Hrun|]. now apply Hcount.
Defined.

(** ** Completeness of the document listing *)

Section ListingComplete.
Context {float : Type} (env : backend float).
Implicit Types w : world float.

Lemma seen_keys_truthy (rest : list (raw_match float))
    (seen : list (pyval * document_info)) :
  Forall (fun kv => pyval_truthy (Some (doc_document_id (snd kv))) = true) seen ->
  Forall (fun kv => pyval_truthy (Some (doc_document_id (snd kv))) = true)
    (fold_left seen_step rest seen).
Proof.
  revert seen. induction rest as [|m rest IH]; intros seen H; [exact H|].
  cbn [fold_left]. apply IH. unfold seen_step.
  destruct (default ∅ (raw_metadata m) !! "document_id") as [k|]; [|exact H].
  destruct (pyval_truthy (Some k)) eqn:Hk; cbn [andb]; [|exact H].
  destruct (negb (seen_has seen k)); [|exact H].
  apply Forall_app. split; [exact H|]. now repeat constructor.
Qed.

(** X14. When the index answers, [list_documents_for_user] has asked it
    once, for up to 10000 records filtered by the user alone. Every
    document identifier that is truthy and occurs in the records
    returned is listed, and no entry is listed for a record whose
    identifier is missing, empty or zero. *)
Theorem list_documents_is_complete (user_id : str) w
    (results : option (list (raw_match float))) :
  index_query env (repeat (float_zero env) 768) 10000%N
    {[ "user_id" := PStr user_id ]} = Returns results ->
  exists documents,
    list_documents_for_user env user_id w
    = (inr documents,
       log w [EvIndexQuery (repeat (float_zero env) 768) 10000%N
                {[ "user_id" := PStr user_id ]}])
    /\ (forall m k, m ∈ matches_of results ->
          match_document_id m = Some k -> pyval_truthy (Some k) = true ->
          exists d, d ∈ documents /\ doc_document_id d = k)
    /\ (forall d, d ∈ documents ->
          pyval_truthy (Some (doc_document_id d)) = true).
Proof.
  intros Hq. unfold list_documents_for_user.
  cbv beta iota zeta delta [catch bind external emit ret raise].
  rewrite Hq. cbv beta iota.
  set (seen := fold_left seen_step (matches_of results) []).
  exists (List.map snd seen). split; [reflexivity|].
  assert (Hinv : seen_inv (matches_of results) seen).
  { apply (seen_inv_fold (matches_of results) [] []).
    split; [constructor|]. split.
    - intros k d Hin. now apply elem_of_nil in Hin.
    - intros m k Hin. now apply elem_of_nil in Hin. }
  destruct Hinv as (_ & Hent & Hall). split.
  - intros m k Hm Hk Ht. specialize (Hall m k Hm Hk Ht).
    apply list_elem_of_In, in_map_iff in Hall as ([k' d] & Hfst & Hin).
    cbn in Hfst. subst k'. apply list_elem_of_In in Hin.
    exists d. split; [|now destruct (Hent k d Hin)].
    apply list_elem_of_In, in_map_iff. exists (k, d).
    split; [reflexivity|now apply list_elem_of_In].
  - intros d Hd. apply list_elem_of_In, in_map_iff in Hd as (kv & <- & Hin).
    pose proof (seen_keys_truthy (matches_of results) [] (List.Forall_nil _))
      as Hkeys.
    fold seen in Hkeys. rewrite Forall_forall in Hkeys.
    apply Hkeys. now apply list_elem_of_In.
Qed.

End ListingComplete.

Lemma list_documents_is_complete_witness :
  exists documents,
    list_documents_for_user (sample_backend [] [] sample_matches true)
      (lit "user_1") empty_world
    = (inr documents,
       log empty_world
         [EvIndexQuery (repeat 0%Z 768) 10000%N
            {[ "user_id" := PStr (lit "user_1") ]}])
    /\ (forall m k, m ∈ sample_matches ->
          match_document_id m = Some k -> pyval_truthy (Some k) = true ->
          exists d, d ∈ documents /\ doc_document_id d = k)
    /\ (forall d, d ∈ documents ->
          pyval_truthy (Some (doc_document_id d)) = true).
Proof.
  apply (list_documents_is_complete (sample_backend [] [] sample_matches true)
           (lit "user_1") empty_world (Some sample_matches)).
  reflexivity.
Defined.

(** ** Answering questions *)

Section Answering.
Context {float : Type} (env : backend float).
Implicit Types w : world float.

Lemma query_top_k_default (query_vector : list float)
    (filter_dict : gmap string pyval) :
  query env query_vector (Some (TOP_K env)) filter_dict
  = query env query_vector None filter_dict.
Proof. unfold query. now destruct (TOP_K env). Qed.

Lemma query_returns (query_vector : list float)
    (filter_dict : gmap string pyval) (raw : option (list (raw_match float))) w :
  index_query env query_vector (TOP_K env) filter_dict = Returns raw ->
  query env query_vector (Some (TOP_K env)) filter_dict w
  = (inr (List.map (fun m => {| match_id := raw_id m;
                                match_score := raw_score m;
                                match_metadata := default ∅ (raw_metadata m) |})
            (matches_of raw)),
     log w [EvIndexQuery query_vector (TOP_K env) filter_dict]).
Proof.
  intros H. rewrite query_top_k_default. unfold query.
  apply catch_inr. rewrite H.
  now rewrite (bind_inr _ _ _ _ _ (external_returns _ raw w)).
Qed.

Lemma ask_question_emits (question user_id document_id : str) :
  only_emits (fun ev => retrieval_call ev = true)
    (ask_question env question user_id document_id).
Proof.
  unfold ask_question.
  destruct (negb (has_text question)); [apply only_emits_raise|].
  apply only_emits_catch; [|intros e; destruct e; apply only_emits_raise].
  apply only_emits_bind; [now apply embed_text_emits|]. intros v.
  apply only_emits_bind; [now apply query_emits|]. intros matches.
  destruct (negb (truthy matches)); [apply only_emits_ret|].
  apply only_emits_bind; [now apply only_emits_external|].
  intros answer. apply only_emits_ret.
Qed.

Lemma ask_question_raises (question user_id document_id : str) :
  raises_only (fun e => e = ValueError \/ e = RuntimeError)
    (ask_question env question user_id document_id).
Proof.
  unfold ask_question.
  destruct (negb (has_text question)); [apply raises_only_raise; now left|].
  apply (raises_only_catch (fun _ => True)); [easy|].
  intros e _. destruct e; apply raises_only_raise; tauto.
Qed.

(** X15. Answering a question never writes: [ask_question] leaves the
    upload directory as it is and calls nothing but the question
    embedding, the index query and the answer generation. It raises
    [ValueError] or [RuntimeError] and nothing else, and an empty or
    whitespace-only question is refused with [ValueError] before any
    call is made. *)
Theorem ask_question_is_read_only (question user_id document_id : str) w :
  (exists new,
     snd (ask_question env question user_id document_id w) = log w new
     /\ Forall (fun ev => retrieval_call ev = true) new)
  /\ (forall e w', ask_question env question user_id document_id w = (inl e, w') ->
        e = ValueError \/ e = RuntimeError)
  /\ (has_text question = false ->
      ask_question env question user_id document_id w = (inl ValueError, w)).
Proof.
  split; [apply ask_question_emits|]. split.
  - intros e w'. apply ask_question_raises.
  - intros Hq. unfold ask_question. now rewrite Hq.
Qed.

(** X16. When the question has text, the embedding model, the index and
    the answer generation all answer and the index returns at least one
    record, [ask_question] makes exactly these three calls in this
    order, the index query being filtered by user and document and
    limited to [TOP_K] records. The answer is the generated text
    stripped, the question is echoed, and the sources are the returned
    records one for one, in the order of the index. *)
Theorem ask_question_with_matches (question user_id document_id : str) w
    (v : list float) (raw : list (raw_match float)) (answer : str) :
  let matches :=
    List.map (fun m => {| match_id := raw_id m;
                          match_score := raw_score m;
                          match_metadata := default ∅ (raw_metadata m) |}) raw in
  let context :=
    join ([NL; NL] ++ lit "---" ++ [NL; NL])
      (imap (fun i m => context_part env (S i) m) matches) in
  has_text question = true ->
  aembed_query env question = Returns v ->
  index_query env v (TOP_K env) (document_filter user_id document_id)
  = Returns (Some raw) ->
  raw <> [] ->
  chain_ainvoke env context question = Returns answer ->
  ask_question env question user_id document_id w
  = (inr {| ans_answer := strip answer;
            ans_sources := List.map (source_of env) matches;
            ans_num_sources := length raw;
            ans_question := question |},
     log w [EvEmbedQuery question;
            EvIndexQuery v (TOP_K env) (document_filter user_id document_id);
            EvGenerate context question]).
Proof.
  intros matches context Hq Hembed Hquery Hraw Hchain.
  unfold ask_question. rewrite Hq. cbn [negb]. apply catch_inr.
  assert (He : embed_text env question w = (inr v, log w [EvEmbedQuery question])).
  { unfold embed_text. rewrite Hq. cbn [negb]. apply catch_inr.
    rewrite Hembed. apply external_returns. }
  rewrite (bind_inr _ _ _ _ _ He).
  rewrite (bind_inr _ _ _ _ _ (query_returns _ _ _ _ Hquery)).
  change (matches_of (Some raw)) with raw. fold matches.
  assert (Ht : truthy matches = true).
  { apply truthy_true. subst matches. now destruct raw. }
  rewrite Ht. cbn [negb]. fold context. rewrite Hchain.
  rewrite (bind_inr _ _ _ _ _ (external_returns _ answer _)).
  unfold ret. rewrite !log_log. cbn [app].
  subst matches. now rewrite !length_map.
Qed.

End Answering.

Lemma ask_question_with_matches_witness :
  ask_question answering_backend sample_question (lit "user_1") (lit "A")
    empty_world
  = (inr {| ans_answer := strip sample_question;
            ans_sources := List.map (source_of answering_backend)
                             sample_query_matches;
            ans_num_sources := length sample_matches;
            ans_question := sample_question |},
     log empty_world
       [EvEmbedQuery sample_question;
        EvIndexQuery [11%Z] (TOP_K answering_backend)
          (document_filter (lit "user_1") (lit "A"));
        EvGenerate sample_context sample_question]).
Proof.
  apply (ask_question_with_matches answering_backend sample_question
           (lit "user_1") (lit "A") empty_world [11%Z] sample_matches
           sample_question);
    [reflexivity|reflexivity|reflexivity|discriminate|reflexivity].
Defined.

(** ** The upload route *)

Section UploadResponses.
Context {float : Type} (env : backend float).
Variable lower : str -> str.
Variable settings : Settings.
Implicit Types w : world float.

Import UploadRoute.

(** X17. The upload route always answers with a response and never
    raises. An error response carries one of the route's six refusal
    codes or an error code of [process_document]; its status is 413 for
    [FILE_TOO_LARGE], 503 for [SERVICE_UNAVAILABLE] and 400 otherwise;
    and a request refused with one of the six refusal codes has changed
    nothing: no file was written and no external call made. *)
Theorem upload_document_error_responses (filename : option str)
    (read : call (list byte)) (user_id : str) (processor_ready : bool)
    (document_id : UUID) w :
  exists resp w',
    upload_document env lower settings filename read user_id processor_ready
      document_id w = (inr resp, w')
    /\ forall c, content resp = Failure c ->
         c ∈ upload_refusal_codes ++ ingestion_error_codes
         /\ status_code resp = upload_error_status c
         /\ (c ∈ upload_refusal_codes -> w' = w).
Proof.
  unfold upload_document.
  assert (Hfast : forall c,
            bool_decide (c ∈ upload_refusal_codes) = true ->
            exists resp w',
              @ret float response (_error_response c (upload_error_status c)) w
              = (inr resp, w')
              /\ forall c', content resp = Failure c' ->
                   c' ∈ upload_refusal_codes ++ ingestion_error_codes
                   /\ status_code resp = upload_error_status c'
                   /\ (c' ∈ upload_refusal_codes -> w' = w)).
  { intros c Hc. apply bool_decide_eq_true in Hc.
    eexists _, _. split; [reflexivity|].
    unfold _error_response. cbn [content status_code]. intros c' [= <-].
    split; [apply elem_of_app; now left|]. now split. }
  destruct filename as [[|c0 name]|];
    [exact (Hfast "INVALID_FILE" eq_refl)| |exact (Hfast "INVALID_FILE" eq_refl)].
  destruct (negb _); [exact (Hfast "UNSUPPORTED_FILE_TYPE" eq_refl)|].
  destruct read as [|bs]; [exact (Hfast "READ_FAILED" eq_refl)|].
  destruct (length bs =? 0); [exact (Hfast "EMPTY_FILE" eq_refl)|].
  destruct (_ <? _)%Z; [exact (Hfast "FILE_TOO_LARGE" eq_refl)|].
  destruct processor_ready; cbn [negb].
  2:{ destruct (Hfast "SERVICE_UNAVAILABLE" eq_refl) as (resp & w' & Hr & H).
      exists resp, w'. split; [|exact H]. now apply catch_inr. }
  destruct (process_document_outline env document_id bs (c0 :: name) user_id w)
    as (r & w' & Hrun & _ & _ & Hr).
  destruct r as [e|res].
  - destruct Hr as (c & -> & Hin & Hu & _).
    eexists _, w'. split.
    { rewrite (catch_inl _ _ _ _ _ (bind_inl _ _ _ _ _ Hrun)). reflexivity. }
    unfold _error_response. cbn [content status_code]. intros c' [= <-].
    split; [apply elem_of_app; now right|].
    split.
    + unfold upload_error_status.
      rewrite !bool_decide_eq_false_2; [reflexivity| |];
        intros ->; revert Hin; apply (bool_decide_unpack _); vm_compute; exact I.
    + intros Hc. apply Hu. revert Hc Hin.
      unfold upload_refusal_codes, ingestion_error_codes.
      rewrite !elem_of_cons, !elem_of_nil.
      intros [->|[->|[->|[->|[->|[->|[]]]]]]]; try reflexivity;
        intros Hin; exfalso;
        repeat (destruct Hin as [Hin|Hin]; [discriminate Hin|]); exact Hin.
  - eexists _, w'. split.
    { apply catch_inr. now rewrite (bind_inr _ _ _ _ _ Hrun). }
    cbn. discriminate.
Qed.

(** X18. The upload route answers 201 only when the file has a name
    whose extension is allowed, its content could be read, is not empty
    and not larger than the configured maximum, the processor is
    available and [process_document] succeeded on exactly this content
    and name; the body then carries the result of that run. *)
Theorem upload_document_created (filename : option str)
    (read : call (list byte)) (user_id : str) (processor_ready : bool)
    (document_id : UUID) w resp w' res :
  upload_document env lower settings filename read user_id processor_ready
    document_id w = (inr resp, w') ->
  content resp = Success res ->
  status_code resp = 201
  /\ processor_ready = true
  /\ exists name bs,
       filename = Some name
       /\ read = Returns bs
       /\ (if contains_char DOT name
           then lower (List.last (py_split DOT name) []) else [])
          ∈ allowed_extensions_list lower settings
       /\ 1 <= length bs
       /\ (Z.of_nat (length bs) <= max_file_size_bytes settings)%Z
       /\ process_document env document_id bs name user_id w = (inr res, w').
Proof.
  unfold upload_document. intros Hrun Hres.
  assert (Herr : forall c s w0, @ret float response (_error_response c s) w0
                                = (inr resp, w') -> False).
  { intros c s w0 [= <- _]. discriminate Hres. }
  destruct filename as [[|c0 name]|]; try (now apply Herr in Hrun).
  destruct (bool_decide _) eqn:Hext; cbn [negb] in Hrun;
    [|now apply Herr in Hrun].
  apply bool_decide_eq_true in Hext.
  destruct read as [|bs]; [now apply Herr in Hrun|].
  destruct (length bs =? 0) eqn:Hlen; [now apply Herr in Hrun|].
  apply Nat.eqb_neq in Hlen.
  destruct (_ <? _)%Z eqn:Hmax; [now apply Herr in Hrun|].
  apply Z.ltb_ge in Hmax.
  destruct processor_ready; cbn [negb] in Hrun.
  2:{ exfalso. apply (Herr "SERVICE_UNAVAILABLE" 503 w). exact Hrun. }
  unfold catch, bind in Hrun.
  destruct (process_document env document_id bs (c0 :: name) user_id w)
    as [[e|res'] w1] eqn:Hp.
  { destruct e; now apply Herr in Hrun. }
  injection Hrun as <- <-. cbn in Hres. injection Hres as ->.
  split; [reflexivity|]. split; [reflexivity|].
  exists (c0 :: name), bs. repeat split; try assumption. lia.
Qed.

End UploadResponses.

Lemma upload_document_created_witness :
  201 = 201
  /\ true = true
  /\ exists name bs,
       Some (lit "prose.txt") = Some name
       /\ Returns (bytes_of prose) = Returns bs
       /\ (if contains_char DOT name
           then ascii_lower (List.last (py_split DOT name) []) else [])
          ∈ allowed_extensions_list ascii_lower default_settings
       /\ 1 <= length bs
       /\ (Z.of_nat (length bs) <= max_file_size_bytes default_settings)%Z
       /\ process_document prose_backend sample_id bs name (lit "user_1")
            empty_world
          = (inr prose_result, prose_ingested).
Proof.
  apply (upload_document_created prose_backend ascii_lower default_settings
           (Some (lit "prose.txt")) (Returns (bytes_of prose)) (lit "user_1")
           true sample_id empty_world
           {| UploadRoute.status_code := 201;
              UploadRoute.content := UploadRoute.Success prose_result |}
           prose_ingested prose_result).
  - vm_compute. reflexivity.
  - reflexivity.
Defined.

(** ** The question route *)

Section QueryResponses.
Context {float : Type} (env : backend float).
Variable renders : @rag_answer float -> bool.
Implicit Types w : world float.

(** X19. The question route always answers with a response and never
    raises. When the service is unavailable it answers
    [SERVICE_UNAVAILABLE] with status 503 and does nothing. When the
    service is available the response is decided by the run of
    [ask_question]: a result that can be rendered is answered with
    status 200 and that result, a result that cannot be rendered and a
    [ValueError] are answered with [INVALID_REQUEST], a [RuntimeError]
    with [RAG_PIPELINE_FAILED], both with status 400; so the route
    answers 200 exactly when [ask_question] succeeds with a result that
    can be rendered, and the handler for unexpected exceptions is never
    reached. A question without text is answered with
    [INVALID_REQUEST] and no call is made; in no case is anything
    written. *)
Theorem query_route_responses (service_ready : bool)
    (user_id document_id question : str) w :
  exists resp w',
    QueryRoute.ask_question env renders service_ready user_id document_id
      question w = (inr resp, w')
    /\ (exists new, w' = log w new
                    /\ Forall (fun ev => retrieval_call ev = true) new)
    /\ match QueryRoute.content resp with
       | QueryRoute.Success result =>
         QueryRoute.status_code resp = 200
         /\ service_ready = true
         /\ renders result = true
         /\ ask_question env question user_id document_id w = (inr result, w')
       | QueryRoute.Failure c =>
         (c = "SERVICE_UNAVAILABLE" /\ QueryRoute.status_code resp = 503
          /\ service_ready = false /\ w' = w)
         \/ (c = "INVALID_REQUEST" /\ QueryRoute.status_code resp = 400
             /\ service_ready = true)
         \/ (c = "RAG_PIPELINE_FAILED" /\ QueryRoute.status_code resp = 400
             /\ service_ready = true)
       end
    /\ (service_ready = true -> has_text question = false ->
        resp = QueryRoute._error_response "INVALID_REQUEST" 400 /\ w' = w)
    /\ (service_ready = false ->
        resp = QueryRoute._error_response "SERVICE_UNAVAILABLE" 503 /\ w' = w)
    /\ (service_ready = true ->
        match ask_question env question user_id document_id w with
        | (inr result, w1) =>
          w' = w1
          /\ resp = if renders result
                    then {| QueryRoute.status_code := 200;
                            QueryRoute.content := QueryRoute.Success result |}
                    else QueryRoute._error_response "INVALID_REQUEST" 400
        | (inl e, w1) =>
          w' = w1
          /\ (e = ValueError
              /\ resp = QueryRoute._error_response "INVALID_REQUEST" 400
              \/ e = RuntimeError
                 /\ resp = QueryRoute._error_response "RAG_PIPELINE_FAILED" 400)
        end).
Proof.
  unfold QueryRoute.ask_question.
  destruct service_ready; cbn [negb].
  2:{ eexists _, w. split; [reflexivity|].
      split; [exists []; split; [symmetry; apply log_nil|constructor]|].
      split; [left; now repeat split|].
      split; [discriminate|]. split; [now intros _|discriminate]. }
  destruct (ask_question_emits env question user_id document_id w)
    as (new & Hw & Hnew).
  pose proof (ask_question_raises env question user_id document_id w) as Hraises.
  unfold catch, bind.
  destruct (ask_question env question user_id document_id w)
    as [[e|result] w1] eqn:Hrun; cbn [snd] in Hw; subst w1.
  - assert (Hblank : has_text question = false -> e = ValueError /\ new = []).
    { intros Hq. revert Hrun. unfold ask_question. rewrite Hq. cbn [negb].
      intros [= <- Hw]. split; [reflexivity|].
      destruct w as [d t]. unfold log in Hw. cbn in Hw.
      injection Hw as Hw. rewrite <- (app_nil_r t) in Hw at 1.
      now apply app_inv_head in Hw. }
    destruct (Hraises _ _ eq_refl) as [->| ->].
    + eexists _, _. split; [reflexivity|]. split; [now exists new|].
      split; [right; left; now repeat split|].
      split; [|split; [discriminate|intros _; split; [reflexivity|now left]]].
      intros _ Hq. destruct (Hblank Hq) as [_ ->].
      split; [reflexivity|apply log_nil].
    + eexists _, _. split; [reflexivity|]. split; [now exists new|].
      split; [right; right; now repeat split|].
      split; [|split; [discriminate|intros _; split; [reflexivity|now right]]].
      intros _ Hq. now destruct (Hblank Hq).
  - assert (Hblank : has_text question = false -> False).
    { intros Hq. revert Hrun. unfold ask_question. now rewrite Hq. }
    destruct (renders result) eqn:Hrender.
    + eexists _, _. split; [reflexivity|]. split; [now exists new|].
      split; [now repeat split|].
      split; [|split; [discriminate|now intros _]].
      intros _ Hq. now destruct (Hblank Hq).
    + eexists _, _. split; [reflexivity|]. split; [now exists new|].
      split; [right; left; now repeat split|].
      split; [|split; [discriminate|now intros _]].
      intros _ Hq. now destruct (Hblank Hq).
Qed.

End QueryResponses.

(** ** The deletion route *)

Section DeleteOutcomes.
Context {float : Type} (env : backend float).
Implicit Types w : world float.

Lemma delete_document_outline (user_id doc : str) w :
  let flt := document_filter user_id doc in
  (index_delete env flt = Raises
   /\ delete_document env user_id doc w
      = (inl RuntimeError, log w [EvIndexDelete flt]))
  \/ (index_delete env flt = Returns tt
      /\ stat_raises env doc = true
      /\ delete_document env user_id doc w
         = (inl OtherException, log w [EvIndexDelete flt]))
  \/ (index_delete env flt = Returns tt
      /\ stat_raises env doc = false
      /\ exists w',
           delete_document env user_id doc w
           = (inr {| del_document_id := doc; del_status := lit "deleted" |}, w')
           /\ local_deletion env doc (log w [EvIndexDelete flt]) w').
Proof.
  intros flt. unfold delete_document, delete_by_document. fold flt.
  destruct (index_delete env flt) as [|[]] eqn:Hdel.
  - left. split; [reflexivity|].
    erewrite bind_inl; [reflexivity|].
    now rewrite (catch_inl _ _ _ _ _ (external_raises _ w)).
  - right.
    erewrite bind_inr by (apply catch_inr; apply external_returns).
    set (w1 := log w [EvIndexDelete flt]).
    unfold _delete_file, local_deletion.
    destruct (stat_raises env doc) eqn:Hstat;
      [left; now repeat split|right].
    split; [reflexivity|]. split; [reflexivity|].
    cbv beta iota delta [bind emit ret raise get_dirs set_dirs get_world].
    destruct (upload_child doc) as [name|].
    + destruct (dirs w1 !! name) eqn:Hd.
      * destruct (rmtree_removes env); eexists; (split; [reflexivity|]);
          cbn [dirs].
        -- split; [|apply lookup_delete_eq].
           intros d Hne. now apply lookup_delete_ne.
        -- split; [reflexivity|exact Hd].
      * exists w1. split; [reflexivity|]. split; [reflexivity|].
        rewrite Hd. now destruct (rmtree_removes env).
    + destruct (rmtree_elsewhere env doc w1); eexists;
        (split; [reflexivity|]); reflexivity.
Qed.

(** X20. The deletion route ends by returning a confirmation or by
    raising an HTTP error. Status 400 is given exactly to a document
    identifier without text, before anything is done. Status 500 is
    given when the processor is missing, when the index refuses the
    deletion, and when the index has accepted it but the path of the
    document cannot be examined (an identifier too long for a file
    name): in all three cases the local files are all still there, in
    the last the records of the index are gone. In every other case the
    route confirms: it echoes the identifier with status ["deleted"]
    after the index has accepted the deletion. For an identifier that
    names a direct child of the upload directory (as every identifier
    of three or more characters without a slash does, under that very
    name), that directory is then gone (when [rmtree] gets to remove
    it) and every other directory is untouched; for any other
    identifier (["."], [".."], a path) the tree removed is whatever the
    joined path names, and the directories of other documents are not
    protected. *)
Theorem delete_route_outcomes (processor_ready : bool) (doc user_id : str) w :
  let flt := document_filter user_id doc in
  exists out w',
    DocumentRoute.delete_document env processor_ready doc user_id w
    = (inr out, w')
    /\ match out with
       | DocumentRoute.HTTPException code detail =>
         dirs w' = dirs w
         /\ ((code = 400 /\ has_text doc = false /\ w' = w)
             \/ (code = 500 /\ has_text doc = true
                 /\ ((processor_ready = false /\ w' = w)
                     \/ (processor_ready = true
                         /\ index_delete env flt = Raises)
                     \/ (processor_ready = true
                         /\ index_delete env flt = Returns tt
                         /\ stat_raises env doc = true
                         /\ w' = log w [EvIndexDelete flt]))))
       | DocumentRoute.Returned r =>
         has_text doc = true
         /\ processor_ready = true
         /\ DocumentRoute.document_id r = doc
         /\ DocumentRoute.status r = lit "deleted"
         /\ index_delete env flt = Returns tt
         /\ stat_raises env doc = false
         /\ local_deletion env doc (log w [EvIndexDelete flt]) w'
       end
    /\ (has_text doc = false ->
        out = DocumentRoute.HTTPException 400 (lit "Document ID is required."))
    /\ (has_text doc = true -> processor_ready = true ->
        index_delete env flt = Returns tt -> stat_raises env doc = false ->
        exists r, out = DocumentRoute.Returned r)
    /\ (Forall (fun c => c <> SLASH) doc -> 2 < length doc ->
        forall r, out = DocumentRoute.Returned r ->
          (forall d : str, d <> doc -> dirs w' !! d = dirs w !! d)
          /\ (rmtree_removes env = true -> dirs w' !! doc = None)).
Proof.
  intros flt. unfold DocumentRoute.delete_document.
  destruct (has_text doc) eqn:Hdoc; cbn [negb].
  2:{ eexists _, w. split; [reflexivity|].
      split; [split; [reflexivity|left; now repeat split]|].
      split; [now intros _|]. split; discriminate. }
  destruct processor_ready; cbn [negb].
  2:{ eexists _, w. split; [reflexivity|].
      split; [split; [reflexivity|right; repeat split; now left]|].
      split; [discriminate|]. split; discriminate. }
  destruct (delete_document_outline user_id doc w)
    as [[Hdel Hrun]|[(Hdel & Hstat & Hrun)|(Hdel & Hstat & w' & Hrun & Hloc)]];
    fold flt in Hdel, Hrun.
  - eexists _, _. split.
    { rewrite (catch_inl _ _ _ _ _ (bind_inl _ _ _ _ _ Hrun)). reflexivity. }
    split; [split; [reflexivity|right; repeat split; right; left; now split]|].
    split; [discriminate|]. split; [|discriminate]. intros _ _ H. congruence.
  - eexists _, _. split.
    { rewrite (catch_inl _ _ _ _ _ (bind_inl _ _ _ _ _ Hrun)). reflexivity. }
    split; [split; [reflexivity|right; repeat split; right; right;
                               now repeat split]|].
    split; [discriminate|]. split; [|discriminate]. intros _ _ _ H. congruence.
  - fold flt in Hloc. eexists _, w'. split.
    { apply catch_inr. now rewrite (bind_inr _ _ _ _ _ Hrun). }
    split; [cbn; now repeat split|].
    split; [discriminate|]. split; [intros _ _ _ _; now eexists|].
    intros Hplain Hlen r _. unfold local_deletion in Hloc.
    rewrite (upload_child_plain _ Hplain Hlen) in Hloc.
    cbn [dirs log] in Hloc. destruct Hloc as [Hframe Hdir].
    split; [exact Hframe|]. intros Hrm. now rewrite Hdir, Hrm.
Qed.

End DeleteOutcomes.

(** The route on the sample disk: the identifier ["."] is confirmed as
    deleted and every upload is gone; an identifier of 300 characters
    is answered with status 500 after the index has deleted the
    records. *)
Example delete_route_dot :
  DocumentRoute.delete_document prose_backend true (lit ".") (lit "user_1")
    world_with_upload
  = (inr (DocumentRoute.Returned
            {| DocumentRoute.message := lit "Document deleted successfully.";
               DocumentRoute.document_id := lit ".";
               DocumentRoute.status := lit "deleted" |}),
     {| dirs := ∅;
        trace := [EvIndexDelete (document_filter (lit "user_1") (lit "."));
                  EvRmtree (lit ".")] |}).
Proof. vm_compute. reflexivity. Qed.

Example delete_route_long_identifier :
  DocumentRoute.delete_document prose_backend true (repeat 0x61%N 300)
    (lit "user_1") world_with_upload
  = (inr (DocumentRoute.HTTPException 500
            (lit "An unexpected error occurred.")),
     log world_with_upload
       [EvIndexDelete (document_filter (lit "user_1") (repeat 0x61%N 300))]).
Proof. vm_compute. reflexivity. Qed.

(** ** Chunks with metadata *)

Section ChunkMetadata.
Context {float : Type} (env : backend float).
Implicit Types w : world float.

(** X21. [split_with_metadata] returns one dictionary per chunk of
    [split], in the same order. Every key of the base metadata is in
    each dictionary with its base value, also the keys ["text"] and
    ["chunk_index"]: only when the base metadata does not have them do
    they hold the text of the chunk and its position, counted from 0. *)
Theorem split_with_metadata_entries (text : str)
    (base_metadata : option (gmap string pyval)) w
    (result : list (gmap string pyval)) w' :
  split_with_metadata env text base_metadata w = (inr result, w') ->
  exists chunks,
    split env text w = (inr chunks, w')
    /\ length result = length chunks
    /\ forall i chunk, chunks !! i = Some chunk ->
         exists entry,
           result !! i = Some entry
           /\ (forall k v, default ∅ base_metadata !! k = Some v ->
                 entry !! k = Some v)
           /\ (default ∅ base_metadata !! "text" = None ->
               entry !! "text" = Some (PStr chunk))
           /\ (default ∅ base_metadata !! "chunk_index" = None ->
               entry !! "chunk_index" = Some (PInt (Z.of_nat i))).
Proof.
  unfold split_with_metadata, bind.
  destruct (split env text w) as [[e|chunks] w1]; [discriminate|].
  intros [= <- <-]. exists chunks. split; [reflexivity|].
  split; [apply length_imap|].
  intros i chunk Hi. eexists. split.
  { rewrite list_lookup_imap, Hi. reflexivity. }
  unfold chunk_data. cbn [list_to_map foldr fst snd uncurry].
  split; [|split].
  - intros k v Hk. now apply lookup_union_Some_l.
  - intros Hnone. rewrite lookup_union_r by exact Hnone.
    apply lookup_insert_eq.
  - intros Hnone. rewrite lookup_union_r by exact Hnone.
    rewrite lookup_insert_ne by discriminate. apply lookup_insert_eq.
Qed.

End ChunkMetadata.

Lemma split_with_metadata_entries_witness :
  exists chunks,
    split prose_backend (lit "hello world") empty_world
    = (inr chunks, log empty_world [EvSplitText (lit "hello world")])
    /\ length [({[ "text" := PStr (lit "hello world");
                   "chunk_index" := PInt 0 ]} : gmap string pyval)]
       = length chunks
    /\ forall i chunk, chunks !! i = Some chunk ->
         exists entry,
           [({[ "text" := PStr (lit "hello world");
                "chunk_index" := PInt 0 ]} : gmap string pyval)] !! i
           = Some entry
           /\ (forall k v, default (∅ : gmap string pyval) None !! k = Some v ->
                 entry !! k = Some v)
           /\ (default (∅ : gmap string pyval) None !! "text" = None ->
               entry !! "text" = Some (PStr chunk))
           /\ (default (∅ : gmap string pyval) None !! "chunk_index" = None ->
               entry !! "chunk_index" = Some (PInt (Z.of_nat i))).
Proof.
  apply (split_with_metadata_entries prose_backend (lit "hello world") None
           empty_world).
  vm_compute. reflexivity.
Defined.

(** ** The dependency report *)

Section DependencyReport.
Import SystemCheck.

Lemma add_check_fields (r : SystemCheckResult) (n : str) (p : bool)
    (m : str) (c : bool) :
  List.map (fun k => (name k, passed k, message k, critical k))
    (checks (add_check r n p m c))
  = List.map (fun k => (name k, passed k, message k, critical k)) (checks r)
    ++ [(n, p, m, c)]
  /\ all_passed (add_check r n p m c) = all_passed r && (p || negb c)
  /\ length (errors (add_check r n p m c))
     = length (errors r) + (if failed_check true (n, p, m, c) then 1 else 0)
  /\ length (warnings (add_check r n p m c))
     = length (warnings r) + (if failed_check false (n, p, m, c) then 1 else 0).
Proof.
  unfold add_check, failed_check. destruct p, c; cbn;
    rewrite ?List.map_app, ?length_app, ?andb_true_r, ?andb_false_r; cbn;
    repeat split; lia.
Qed.

Lemma record_checks_from (entries : list (str * bool * str * bool)) :
  forall r,
    let r' := fold_left (fun result '(name, passed, message, critical) =>
                           add_check result name passed message critical)
                entries r in
    List.map (fun k => (name k, passed k, message k, critical k)) (checks r')
    = List.map (fun k => (name k, passed k, message k, critical k)) (checks r)
      ++ entries
    /\ all_passed r'
       = all_passed r && forallb (fun e => negb (failed_check true e)) entries
    /\ length (errors r')
       = length (errors r) + length (List.filter (failed_check true) entries)
    /\ length (warnings r')
       = length (warnings r) + length (List.filter (failed_check false) entries).
Proof.
  induction entries as [|[[[n p] m] c] entries IH]; intros r.
  - cbn. rewrite app_nil_r, andb_true_r. repeat split; lia.
  - cbn [fold_left]. destruct (IH (add_check r n p m c)) as (H1 & H2 & H3 & H4).
    destruct (add_check_fields r n p m c) as (F1 & F2 & F3 & F4).
    cbv zeta. rewrite H1, H2, H3, H4, F1, F2, F3, F4.
    rewrite <- app_assoc. cbn [app forallb List.filter].
    split; [reflexivity|]. split.
    { rewrite <- andb_assoc. f_equal. f_equal.
      unfold failed_check. now destruct p, c. }
    destruct (failed_check true (n, p, m, c)), (failed_check false (n, p, m, c));
      cbn [length]; split; lia.
Qed.

(** X22. After any sequence of [add_check] calls on a fresh report, the
    report lists the checks in the order of the calls; it has one error
    line for each failed critical check and one warning line for each
    failed optional check; and [all_passed] holds exactly when there is
    no error line, that is, when no critical check failed. *)
Theorem system_check_report_is_consistent
    (entries : list (str * bool * str * bool)) :
  let r := record_checks entries in
  List.map (fun k => (name k, passed k, message k, critical k)) (checks r)
  = entries
  /\ length (errors r) = length (List.filter (failed_check true) entries)
  /\ length (warnings r) = length (List.filter (failed_check false) entries)
  /\ (all_passed r = true <-> errors r = [])
  /\ (all_passed r = true
      <-> Forall (fun e => failed_check true e = false) entries).
Proof.
  destruct (record_checks_from entries empty) as (H1 & H2 & H3 & H4).
  cbv zeta in *. fold (record_checks entries) in *. cbn in H1, H2, H3, H4.
  assert (Hall : all_passed (record_checks entries) = true
                 <-> Forall (fun e => failed_check true e = false) entries).
  { rewrite H2, forallb_forall, Forall_forall. split; intros H e He.
    - apply negb_true_iff, H. now apply list_elem_of_In.
    - apply negb_true_iff, H. now apply list_elem_of_In. }
  split; [exact H1|]. split; [exact H3|]. split; [exact H4|].
  split; [|exact Hall].
  rewrite Hall. rewrite <- filter_nil_iff, <- length_zero_iff_nil, <- H3.
  apply length_zero_iff_nil.
Qed.

Lemma add_check_all_passed (r : SystemCheckResult) (n : str) (p : bool)
    (m : str) (c : bool) :
  all_passed (add_check r n p m c) = all_passed r && (p || negb c).
Proof. exact (proj1 (proj2 (add_check_fields r n p m c))). Qed.

Lemma add_check_length (r : SystemCheckResult) (n : str) (p : bool)
    (m : str) (c : bool) :
  length (checks (add_check r n p m c)) = S (length (checks r)).
Proof.
  unfold add_check. destruct p, c; cbn; rewrite length_app; cbn; lia.
Qed.

Section Run.
Variable import_module : str -> import_outcome.
Variable subprocess_run : list str -> run_outcome.
Variable decode_error_text : list byte -> str.

Lemma add_package_check_cases (result : SystemCheckResult)
    (name package : str) (import_name : option str) (critical : bool) :
  (import_module (default package import_name) = ImportCrashed
   /\ add_package_check import_module result name package import_name critical
      = inl OtherException)
  \/ (exists passed message,
        add_package_check import_module result name package import_name
          critical
        = inr (add_check result name passed message critical)
        /\ (passed = true
            <-> import_module (default package import_name) = Imported)).
Proof.
  unfold add_package_check, check_python_package.
  destruct (import_module (default package import_name)).
  - right. eexists _, _. split; [reflexivity|]. easy.
  - right. eexists _, _. split; [reflexivity|]. easy.
  - left. now split.
Qed.

(** X23. Unless the import of a package crashes, [run_system_check]
    returns a report of 12 or 13 checks, and the report passes exactly
    when the six core packages can be imported: a missing pdfplumber,
    pytesseract, pdf2image, Pillow, Tesseract binary or language data,
    or Poppler gives warnings only. *)
Theorem run_system_check_passes_on_core_packages :
  match run_system_check import_module subprocess_run decode_error_text with
  | inr r =>
    (all_passed r = true
     <-> Forall (fun module => import_module module = Imported) core_imports)
    /\ (length (checks r) = 12 \/ length (checks r) = 13)
  | inl e =>
    e = OtherException
    /\ exists module, import_module module = ImportCrashed
  end.
Proof.
  unfold run_system_check, mbind, exn_bind.
  repeat match goal with
  | |- context [add_package_check _ ?r ?n ?p ?i ?c] =>
    let passed := fresh "passed" in
    let Hp := fresh "Hp" in
    destruct (add_package_check_cases r n p i c)
      as [[Hc ->]|(passed & ? & -> & Hp)];
    [split; [reflexivity|eexists; exact Hc]|]
  end.
  destruct (check_system_binary _ _ _ None) as [tp tm].
  destruct (check_system_binary _ _ (lit "pdfinfo") None) as [pp pm].
  assert (Hcore : forall r,
            all_passed r
            = passed0 && passed1 && passed2 && passed3 && passed4 && passed5 ->
            (all_passed r = true
             <-> Forall (fun module => import_module module = Imported)
                   core_imports)).
  { intros r ->. unfold core_imports.
    rewrite !Forall_cons, Forall_nil, !andb_true_iff.
    cbn [default from_option id] in *. tauto. }
  destruct tp.
  - destruct (check_tesseract_languages _ _) as [lp lm].
    split; [|right; now rewrite !add_check_length].
    apply Hcore. rewrite !add_check_all_passed. cbn [negb].
    rewrite ?orb_true_r, ?orb_false_r, ?andb_true_r. reflexivity.
  - split; [|left; now rewrite !add_check_length].
    apply Hcore. rewrite !add_check_all_passed. cbn [negb].
    rewrite ?orb_true_r, ?orb_false_r, ?andb_true_r. reflexivity.
Qed.

End Run.

End DependencyReport.

Lemma run_system_check_passes_on_core_packages_witness :
  exists r,
    SystemCheck.run_system_check bare_imports no_binaries (fun _ => [])
    = inr r
    /\ SystemCheck.all_passed r = true
    /\ length (SystemCheck.checks r) = 12
    /\ length (SystemCheck.warnings r) = 6.
Proof.
  pose proof (run_system_check_passes_on_core_packages bare_imports
                no_binaries (fun _ => [])) as H.
  destruct (SystemCheck.run_system_check bare_imports no_binaries (fun _ => []))
    as [e|r] eqn:Hrun; [vm_compute in Hrun; discriminate|].
  exists r. split; [reflexivity|]. split.
  - apply (proj1 H). unfold core_imports.
    repeat (constructor; [reflexivity|]). constructor.
  - vm_compute in Hrun. injection Hrun as <-. split; reflexivity.
Defined.

(** ** Writing a text file and loading it again *)

Section RoundTrip.
Context {float : Type}.
Implicit Types w : world float.

Open Scope N_scope.

(** Names the last base-64 digit of [x] and the rest. *)
Ltac base64_digit x q r :=
  pose proof (N.Div0.div_mod x 64);
  pose proof (N.mod_upper_bound x 64 ltac:(discriminate));
  set (r := x mod 64) in *; set (q := x / 64) in *; clearbody r q.

Ltac decide_test b :=
  first [ replace b with true
            by (symmetry; rewrite ?andb_true_iff, ?N.leb_le, ?N.ltb_lt; lia)
        | replace b with false
            by (symmetry; rewrite ?andb_false_iff, ?N.leb_gt, ?N.ltb_ge; lia) ].

Lemma decode_utf8_encoded_char (c : N) (bs rest : list N) :
  encode_utf8_char c = Some bs ->
  decode_utf8 (bs ++ rest) = cons c <$> decode_utf8 rest.
Proof.
  unfold encode_utf8_char.
  destruct (c <? 0x80) eqn:H1.
  { intros [= <-]. cbn [app decode_utf8]. now rewrite H1. }
  apply N.ltb_ge in H1.
  destruct (c <? 0x800) eqn:H2.
  { apply N.ltb_lt in H2. intros [= <-]. cbn [app decode_utf8].
    unfold is_cont. base64_digit c q0 r0.
    decide_test (0xC0 + q0 <? 0x80).
    decide_test ((0xC2 <=? 0xC0 + q0) && (0xC0 + q0 <=? 0xDF)).
    decide_test ((0x80 <=? 0x80 + r0) && (0x80 + r0 <=? 0xBF)).
    replace ((0xC0 + q0 - 0xC0) * 64 + (0x80 + r0 - 0x80)) with c by lia.
    reflexivity. }
  apply N.ltb_ge in H2.
  destruct (c <? 0x10000) eqn:H3.
  { apply N.ltb_lt in H3.
    destruct ((0xD800 <=? c) && (c <=? 0xDFFF)) eqn:Hs; [discriminate|].
    assert (Hsur : c < 0xD800 \/ 0xDFFF < c).
    { apply andb_false_iff in Hs as [Hs|Hs];
        [left; apply N.leb_gt in Hs|right; apply N.leb_gt in Hs]; lia. }
    clear Hs.
    intros [= <-]. cbn [app decode_utf8]. unfold is_cont.
    replace (c / 4096) with (c / 64 / 64) by (now rewrite N.Div0.div_div).
    base64_digit (c / 64) q1 r1. base64_digit c q0 r0.
    decide_test (0xE0 + q1 <? 0x80).
    decide_test ((0xC2 <=? 0xE0 + q1) && (0xE0 + q1 <=? 0xDF)).
    decide_test ((0xE0 <=? 0xE0 + q1) && (0xE0 + q1 <=? 0xEF)).
    assert (Hlow : ((if 0xE0 + q1 =? 0xE0 then 0xA0 else 0x80) <=? 0x80 + r1)
                   = true).
    { apply N.leb_le. destruct (0xE0 + q1 =? 0xE0) eqn:E; [|lia].
      apply N.eqb_eq in E. lia. }
    assert (Hhigh : (0x80 + r1 <=? (if 0xE0 + q1 =? 0xED then 0x9F else 0xBF))
                    = true).
    { apply N.leb_le. destruct (0xE0 + q1 =? 0xED) eqn:E; [|lia].
      apply N.eqb_eq in E. lia. }
    rewrite Hlow, Hhigh.
    decide_test ((0x80 <=? 0x80 + r0) && (0x80 + r0 <=? 0xBF)).
    cbn [andb].
    replace ((0xE0 + q1 - 0xE0) * 4096 + (0x80 + r1 - 0x80) * 64
             + (0x80 + r0 - 0x80)) with c by lia.
    reflexivity. }
  apply N.ltb_ge in H3.
  destruct (c <? 0x110000) eqn:H4; [|discriminate].
  apply N.ltb_lt in H4. intros [= <-]. cbn [app decode_utf8]. unfold is_cont.
  replace (c / 262144) with (c / 64 / 64 / 64)
    by (now rewrite !N.Div0.div_div).
  replace (c / 4096) with (c / 64 / 64) by (now rewrite N.Div0.div_div).
  base64_digit (c / 64 / 64) q2 r2. base64_digit (c / 64) q1 r1.
  base64_digit c q0 r0.
  decide_test (0xF0 + q2 <? 0x80).
  decide_test ((0xC2 <=? 0xF0 + q2) && (0xF0 + q2 <=? 0xDF)).
  decide_test ((0xE0 <=? 0xF0 + q2) && (0xF0 + q2 <=? 0xEF)).
  decide_test ((0xF0 <=? 0xF0 + q2) && (0xF0 + q2 <=? 0xF4)).
  assert (Hlow : ((if 0xF0 + q2 =? 0xF0 then 0x90 else 0x80) <=? 0x80 + r2)
                 = true).
  { apply N.leb_le. destruct (0xF0 + q2 =? 0xF0) eqn:E; [|lia].
    apply N.eqb_eq in E. lia. }
  assert (Hhigh : (0x80 + r2 <=? (if 0xF0 + q2 =? 0xF4 then 0x8F else 0xBF))
                  = true).
  { apply N.leb_le. destruct (0xF0 + q2 =? 0xF4) eqn:E; [|lia].
    apply N.eqb_eq in E. lia. }
  rewrite Hlow, Hhigh.
  decide_test ((0x80 <=? 0x80 + r1) && (0x80 + r1 <=? 0xBF)).
  decide_test ((0x80 <=? 0x80 + r0) && (0x80 + r0 <=? 0xBF)).
  cbn [andb].
  replace ((0xF0 + q2 - 0xF0) * 262144 + (0x80 + r2 - 0x80) * 4096
           + (0x80 + r1 - 0x80) * 64 + (0x80 + r0 - 0x80)) with c by lia.
  reflexivity.
Qed.

Close Scope N_scope.

Lemma decode_utf8_encoded (s : str) (ns : list N) :
  encode_utf8_codes s = Some ns -> decode_utf8 ns = Some s.
Proof.
  revert ns. induction s as [|c s IH]; intros ns; cbn [encode_utf8_codes].
  - now intros [= <-].
  - destruct (encode_utf8_char c) as [bs|] eqn:Hc; [|discriminate].
    destruct (encode_utf8_codes s) as [rest|]; [|discriminate].
    intros [= <-]. rewrite (decode_utf8_encoded_char c bs rest Hc).
    now rewrite (IH rest eq_refl).
Qed.

Lemma bytes_of_codes (ns : list N) (bs : list byte) :
  mapM Byte.of_N ns = Some bs -> List.map Byte.to_N bs = ns.
Proof.
  rewrite mapM_Some. induction 1 as [|n b ns bs Hb _ IH]; [reflexivity|].
  cbn [List.map]. now rewrite (Byte.to_of_N n Hb), IH.
Qed.

Lemma decode_encode_utf8 (s : str) (bs : list byte) :
  encode_utf8 s = Some bs -> decode utf_8 bs = Some s.
Proof.
  unfold encode_utf8. destruct (encode_utf8_codes s) as [ns|] eqn:Hs;
    [|discriminate].
  cbn [mbind option_bind decode]. intros Hbs.
  rewrite (bytes_of_codes _ _ Hbs). now apply decode_utf8_encoded.
Qed.

(** X24. A text written by the test helper [create_test_txt_file] and
    loaded again comes back as it was, up to the translation of
    carriage returns to newlines, whenever it has text and the file is
    named [.txt]: it is read by the first encoding, UTF-8, and no other
    is tried. *)
Theorem written_text_file_loads_back (env : backend float)
    (content name : str) (p : Path) w :
  create_test_txt_file content name = Some p ->
  has_text content = true ->
  suffix_lower env name = lit ".txt" ->
  load env p w = (inr (universal_newlines content), log w [EvReadText utf_8]).
Proof.
  unfold create_test_txt_file. intros Hp Htext Hext.
  destruct (encode_utf8 content) as [bs|] eqn:Hbs; [|discriminate].
  injection Hp as <-.
  assert (Hread : read_text {| path_name := name; path_stat := Regular bs |}
                    utf_8
                  = ReadText (universal_newlines content)).
  { unfold read_text. cbn [path_stat]. now rewrite (decode_encode_utf8 _ _ Hbs). }
  assert (Hnot : forallb isspace (universal_newlines content) = false).
  { destruct (forallb isspace (universal_newlines content)) eqn:E;
      [|reflexivity].
    apply universal_newlines_blank, has_text_false in E. congruence. }
  pose proof (load_txt_loop_first
                {| path_name := name; path_stat := Regular bs |} [] utf_8
                [utf_8_sig; latin_1; cp1252] _ w (List.Forall_nil _) Hread Hnot)
    as Hloop.
  cbn [app List.map] in Hloop.
  unfold load, validate_extension. cbn [path_stat path_name]. rewrite Hext.
  replace (bool_decide (lit ".txt" ∈ SUPPORTED_EXTENSIONS)) with true
    by (vm_compute; reflexivity).
  rewrite (bind_inr _ _ _ _ _ (eq_refl : ret (lit ".txt") w = (inr _, w))).
  replace (bool_decide (lit ".txt" = lit ".pdf")) with false
    by (vm_compute; reflexivity).
  replace (bool_decide (lit ".txt" = lit ".docx")) with false
    by (vm_compute; reflexivity).
  replace (bool_decide (lit ".txt" = lit ".txt")) with true
    by (vm_compute; reflexivity).
  apply catch_inr. unfold _load_txt, txt_encodings.
  now rewrite (bind_inr _ _ _ _ _ Hloop).
Qed.

End RoundTrip.

Lemma written_text_file_loads_back_witness :
  load prose_backend
    {| path_name := lit "valid.txt"; path_stat := Regular (bytes_of prose) |}
    empty_world
  = (inr (universal_newlines (lit prose)),
     log empty_world [EvReadText utf_8]).
Proof.
  apply (written_text_file_loads_back prose_backend (lit prose)
           (lit "valid.txt")
           {| path_name := lit "valid.txt";
              path_stat := Regular (bytes_of prose) |} empty_world).
  - vm_compute. reflexivity.
  - vm_compute. reflexivity.
  - vm_compute. reflexivity.
Defined.

(** ** Records and the filters that find them *)

Section RecordsAndFilters.
Context {float : Type} (env : backend float).
Implicit Types w : world float.

(** X25. [_prepare_vectors] builds one record for each chunk that has
    an embedding at its position: with fewer embeddings than chunks the
    remaining chunks get no record. Every record carries in its metadata
    the user and document identifiers under the keys by which
    [ask_question] and [delete_by_document] filter, the user identifier
    by which [list_documents_for_user] filters, and the file name as
    uploaded. *)
Theorem prepare_vectors_match_filters (chunks : list str)
    (embeddings : list (list float)) (user_id document_id file_name : str) :
  length (_prepare_vectors chunks embeddings user_id document_id file_name)
  = Nat.min (length chunks) (length embeddings)
  /\ forall v,
       v ∈ _prepare_vectors chunks embeddings user_id document_id file_name ->
       document_filter user_id document_id ⊆ vec_metadata v
       /\ ({[ "user_id" := PStr user_id ]} : gmap string pyval) ⊆ vec_metadata v
       /\ vec_metadata v !! "file_name" = Some (PStr file_name).
Proof.
  unfold _prepare_vectors. split; [now rewrite length_imap, length_zip|].
  intros v Hv. apply elem_of_lookup_imap in Hv as (i & [chunk embedding] & -> & _).
  cbn [vec_metadata]. unfold document_filter.
  cbn [list_to_map foldr fst snd uncurry].
  split; [|split].
  - apply map_subseteq_spec. intros k x Hk.
    apply lookup_insert_Some in Hk as [[<- <-]|[Hne Hk]];
      [apply lookup_insert_eq|].
    apply lookup_insert_Some in Hk as [[<- <-]|[Hne' Hk]];
      [|now rewrite lookup_empty in Hk].
    rewrite lookup_insert_ne by discriminate. apply lookup_insert_eq.
  - apply map_subseteq_spec. intros k x Hk.
    apply lookup_singleton_Some in Hk as [<- <-]. apply lookup_insert_eq.
  - now rewrite !lookup_insert_ne by discriminate.
Qed.

(** X26. Uploading a document and deleting it again leaves the upload
    directory as it was before: when the identifier is fresh, the
    ingestion succeeds and the deletion of the reported identifier
    succeeds (with [rmtree] removing the directory), no file of the
    upload is left and no other directory has changed. *)
Theorem upload_then_delete_restores_storage
    (document_id : UUID) (file_content : list byte) (file_name user_id : str)
    w res w1 r w2 :
  dirs w !! (document_id : str) = None ->
  rmtree_removes env = true ->
  process_document env document_id file_content file_name user_id w
  = (inr res, w1) ->
  delete_document env user_id (res_document_id res) w1 = (inr r, w2) ->
  dirs w2 = dirs w.
Proof.
  intros Hfresh Hrm Hup Hdel.
  destruct (process_document_outline env document_id file_content file_name
              user_id w) as (r1 & w1' & Hrun & _ & Hframe & Hr).
  rewrite Hup in Hrun. injection Hrun as <- <-.
  destruct Hr as (Hid & _). rewrite Hid in Hdel.
  destruct (delete_document_outline env user_id document_id w1)
    as [[_ Hrun]|[(_ & _ & Hrun)|(_ & _ & w2' & Hrun & Hloc)]];
    rewrite Hdel in Hrun; [discriminate|discriminate|].
  injection Hrun as _ <-.
  unfold local_deletion in Hloc. rewrite upload_child_UUID, Hrm in Hloc.
  cbn [dirs log] in Hloc. destruct Hloc as [Hframe' Hdir].
  apply map_eq. intros d.
  destruct (decide (d = (document_id : str))) as [->|Hne].
  - now rewrite Hdir, Hfresh.
  - now rewrite (Hframe' d Hne), (Hframe d Hne).
Qed.

End RecordsAndFilters.

Lemma upload_then_delete_restores_storage_witness :
  dirs prose_deleted = dirs empty_world.
Proof.
  apply (upload_then_delete_restores_storage prose_backend sample_id
           (bytes_of prose) (lit "prose.txt") (lit "user_1") empty_world
           prose_result prose_ingested
           {| del_document_id := sample_id; del_status := lit "deleted" |}
           prose_deleted).
  - reflexivity.
  - reflexivity.
  - vm_compute. reflexivity.
  - vm_compute. reflexivity.
Defined.

(** ** The result tracker of the test suite *)

Section TestTracker.
Import TestSuite.

Lemma record_tests_from (entries : list (str * bool * str * bool)) :
  forall r,
    let r' := fold_left (fun result '(name, passed, message, skipped) =>
                           add_test result name passed message skipped)
                entries r in
    length (tests r') = length (tests r) + length entries
    /\ passed r' = passed r + count_verdict Passed entries
    /\ failed r' = failed r + count_verdict Failed entries
    /\ skipped r' = skipped r + count_verdict Skipped entries.
Proof.
  unfold count_verdict.
  induction entries as [|[[[n p] m] s] entries IH]; intros r.
  - cbn. repeat split; lia.
  - cbn [fold_left]. destruct (IH (add_test r n p m s)) as (H1 & H2 & H3 & H4).
    cbv zeta. rewrite H1, H2, H3, H4. unfold add_test.
    destruct s, p; cbn; rewrite length_app; cbn; repeat split; lia.
Qed.

(** X27. After any sequence of [add_test] calls on a fresh tracker,
    every call is counted exactly once, as skipped when it is flagged
    as skipped whatever its outcome, and else as passed or failed; the
    three counters add up to the number of tests recorded, and
    [print_report] returns [True] exactly when no call was counted as
    failed. *)
Theorem test_result_counts (entries : list (str * bool * str * bool)) :
  let r := record_tests entries in
  length (tests r) = length entries
  /\ passed r = count_verdict Passed entries
  /\ failed r = count_verdict Failed entries
  /\ skipped r = count_verdict Skipped entries
  /\ passed r + failed r + skipped r = length (tests r)
  /\ (snd (print_report r) = true
      <-> Forall (fun e => verdict_of e <> Failed) entries).
Proof.
  destruct (record_tests_from entries empty) as (H1 & H2 & H3 & H4).
  cbv zeta in *. fold (record_tests entries) in *. cbn in H1, H2, H3, H4.
  split; [exact H1|]. split; [exact H2|]. split; [exact H3|].
  split; [exact H4|]. split.
  - rewrite H1, H2, H3, H4. unfold count_verdict. clear.
    induction entries as [|[[[n p] m] s] entries IH]; [reflexivity|].
    cbn [List.filter length]. destruct s, p; cbn; lia.
  - cbn [print_report snd]. rewrite Nat.eqb_eq, H3. unfold count_verdict.
    rewrite length_zero_iff_nil, filter_nil_iff.
    split; intros H; eapply Forall_impl; try exact H; cbn; intros e He.
    + unfold has_verdict in He. intros E. now rewrite E in He.
    + unfold has_verdict. now destruct (verdict_of e).
Qed.

End TestTracker.

(** ** Saving an upload and reading it back *)

Section SavedUploads.
Context {float : Type} (env : backend float).
Implicit Types w : world float.

(** X28. When [_save_file] succeeds, the file is stored under the base
    name of the uploaded file name, and the path at which the extractor
    then looks holds exactly the uploaded bytes, also when a file of
    that name was there before. The other files of the directory and
    the other directories are as before, and the only external call is
    the write. *)
Theorem saved_upload_reads_back (content : list byte)
    (file_name : str) (document_id : UUID) w (safe_name : str) w1 :
  _save_file env content file_name document_id w = (inr safe_name, w1) ->
  safe_name = base_name env file_name
  /\ stored_path document_id safe_name w1
     = (inr {| path_name := safe_name; path_stat := Regular content |}, w1)
  /\ (forall other, other <> safe_name ->
        dirs w1 !! (document_id : str) ≫= (fun files => files !! other)
        = dirs w !! (document_id : str) ≫= (fun files => files !! other))
  /\ (forall d : str, d <> document_id -> dirs w1 !! d = dirs w !! d)
  /\ trace w1 = trace w ++ [EvWriteBytes document_id safe_name].
Proof.
  intros H. apply save_file_success in H as (_ & -> & ->).
  split; [reflexivity|]. split; [|split; [|split]].
  - unfold stored_path.
    cbv beta iota zeta delta [bind ret get_dirs]. cbn [dirs].
    now rewrite lookup_insert_eq; cbn; rewrite lookup_insert_eq.
  - intros other Hother. cbn [dirs]. rewrite lookup_insert_eq. cbn.
    rewrite lookup_insert_ne by congruence.
    now destruct (dirs w !! (document_id : str)).
  - intros d Hd. cbn [dirs]. now apply lookup_insert_ne.
  - reflexivity.
Qed.

End SavedUploads.

Lemma saved_upload_reads_back_witness :
  lit "prose.txt" = base_name prose_backend (lit "prose.txt")
  /\ stored_path sample_id (lit "prose.txt") prose_saved
     = (inr {| path_name := lit "prose.txt";
               path_stat := Regular (bytes_of prose) |}, prose_saved)
  /\ (forall other, other <> lit "prose.txt" ->
        dirs prose_saved !! (sample_id : str) ≫= (fun files => files !! other)
        = dirs empty_world !! (sample_id : str) ≫= (fun files => files !! other))
  /\ (forall d : str, d <> sample_id ->
        dirs prose_saved !! d = dirs empty_world !! d)
  /\ trace prose_saved
     = trace empty_world ++ [EvWriteBytes sample_id (lit "prose.txt")].
Proof.
  apply (saved_upload_reads_back prose_backend (bytes_of prose)
           (lit "prose.txt") sample_id empty_world (lit "prose.txt")
           prose_saved).
  vm_compute. reflexivity.
Defined.

(** ** Word documents *)

Section DocxOutcomes.
Context {float : Type} (env : backend float).
Implicit Types w : world float.

Local Abbreviation blank := (fun s : str => forallb isspace s = true).

Lemma flat_map_nil {A B} (f : A -> list B) (l : list A) :
  flat_map f l = [] <-> Forall (fun x => f x = []) l.
Proof.
  induction l as [|a l IH]; cbn [flat_map].
  - split; [constructor|reflexivity].
  - rewrite Forall_cons, <- IH. split.
    + intros H. now apply app_eq_nil in H.
    + intros [-> ->]. reflexivity.
Qed.

Lemma strip_part (s : str) :
  truthy (strip s) = true -> strip s <> [] /\ strip (strip s) = strip s.
Proof. intros H. split; [now apply truthy_true|apply strip_strip]. Qed.

Lemma join_head_not_blank (sep p : str) (ps : list str) :
  strip p <> [] -> strip (join sep (p :: ps)) <> [].
Proof.
  intros Hp E. apply Hp. apply strip_nil. apply strip_nil in E.
  destruct ps as [|q ps]; cbn [join] in E; [exact E|].
  rewrite forallb_app in E. now apply andb_true_iff in E as [E _].
Qed.

Lemma row_text_blank (row : list str) :
  truthy (strip (join [TAB]
                   (List.map strip
                      (List.filter (fun cell => truthy (strip cell)) row))))
  = false
  <-> Forall blank row.
Proof.
  rewrite truthy_false. split.
  - intros H. apply Forall_forall. intros cell Hcell.
    destruct (truthy (strip cell)) eqn:Hc;
      [|now apply strip_nil, truthy_false].
    exfalso.
    assert (Hin : cell ∈ List.filter (fun cell => truthy (strip cell)) row).
    { apply list_elem_of_In, filter_In. split; [now apply list_elem_of_In|exact Hc]. }
    destruct (List.filter (fun cell => truthy (strip cell)) row)
      as [|c cs] eqn:Hf; [now apply elem_of_nil in Hin|].
    assert (Hc0 : truthy (strip c) = true).
    { assert (Hc' : In c (List.filter (fun cell => truthy (strip cell)) row))
        by (rewrite Hf; now left).
      now apply filter_In in Hc' as [_ Hc']. }
    cbn [List.map] in H. revert H. apply join_head_not_blank.
    rewrite strip_strip. now apply truthy_true.
  - intros H.
    assert (Hf : List.filter (fun cell => truthy (strip cell)) row = []).
    { apply filter_nil_iff. eapply Forall_impl; [exact H|].
      intros cell Hcell. now apply truthy_false, strip_nil. }
    now rewrite Hf.
Qed.

Lemma docx_text_parts_nil (doc : docx_document) :
  docx_text_parts doc = []
  <-> Forall blank (paragraphs doc)
      /\ Forall (Forall (Forall blank)) (tables doc).
Proof.
  unfold docx_text_parts. split.
  - intros H. apply app_eq_nil in H as [Hp Ht]. split.
    + apply flat_map_nil in Hp. eapply Forall_impl; [exact Hp|].
      intros para Hpara. cbv beta zeta in Hpara.
      destruct (truthy (strip para)) eqn:E; [discriminate|].
      now apply strip_nil, truthy_false.
    + apply flat_map_nil in Ht. eapply Forall_impl; [exact Ht|].
      intros table Htable. apply flat_map_nil in Htable.
      eapply Forall_impl; [exact Htable|]. intros row Hrow. cbv beta zeta in Hrow.
      apply row_text_blank.
      destruct (truthy _) eqn:E; [discriminate|reflexivity].
  - intros [Hp Ht]. apply app_nil. split.
    + apply flat_map_nil. eapply Forall_impl; [exact Hp|].
      intros para Hpara. cbv beta zeta. apply strip_nil in Hpara.
      now rewrite Hpara.
    + apply flat_map_nil. eapply Forall_impl; [exact Ht|].
      intros table Htable. apply flat_map_nil.
      eapply Forall_impl; [exact Htable|].
      intros row Hrow. cbv beta zeta. apply row_text_blank in Hrow.
      now rewrite Hrow.
Qed.

Lemma docx_text_parts_stripped (doc : docx_document) :
  Forall (fun part => part <> [] /\ strip part = part) (docx_text_parts doc).
Proof.
  unfold docx_text_parts. apply Forall_app. split.
  - apply Forall_forall. intros part Hpart.
    apply list_elem_of_In, in_flat_map in Hpart as (para & _ & Hpart).
    cbv beta zeta in Hpart. destruct (truthy (strip para)) eqn:E; [|destruct Hpart].
    destruct Hpart as [<-|[]]. now apply strip_part.
  - apply Forall_forall. intros part Hpart.
    apply list_elem_of_In, in_flat_map in Hpart as (table & _ & Hpart).
    apply in_flat_map in Hpart as (row & _ & Hpart).
    cbv beta zeta in Hpart. destruct (truthy _) eqn:E; [|destruct Hpart].
    destruct Hpart as [<-|[]]. now apply strip_part.
Qed.

(** X29. For a Word document that python-docx opens and reads,
    [_load_docx] raises [EmptyDocumentError] exactly when every
    paragraph and every table cell is empty or whitespace-only, and
    otherwise it returns a text, however short: the stripped paragraphs
    that have text, then one line per table row with the stripped cells
    that have text, joined by blank lines. No part is empty and nothing
    else is raised. *)
Theorem load_docx_outcome (p : Path) (bs : list byte) (doc : docx_document) w :
  docx_installed env = true ->
  path_stat p = Regular bs ->
  DocxDocument env bs = DocxOpened (Returns doc) ->
  (_load_docx env p w = (inl EmptyDocumentError, w)
   \/ _load_docx env p w = (inr (join [NL; NL] (docx_text_parts doc)), w))
  /\ (_load_docx env p w = (inl EmptyDocumentError, w)
      <-> Forall blank (paragraphs doc)
          /\ Forall (Forall (Forall blank)) (tables doc))
  /\ Forall (fun part => part <> [] /\ strip part = part) (docx_text_parts doc).
Proof.
  intros Hinst Hp Hdoc. unfold _load_docx. rewrite Hinst, Hp, Hdoc.
  cbn [negb]. split; [|split; [|apply docx_text_parts_stripped]].
  - destruct (negb _); [now left|now right].
  - rewrite <- docx_text_parts_nil.
    destruct (docx_text_parts doc) as [|part parts] eqn:Hparts.
    + cbn. now split.
    + assert (Hstrip : strip (join [NL; NL] (part :: parts)) <> []).
      { apply join_head_not_blank.
        pose proof (docx_text_parts_stripped doc) as Hall.
        rewrite Hparts in Hall. apply Forall_cons in Hall as [[Hne Hs] _].
        now rewrite Hs. }
      apply truthy_true in Hstrip. rewrite Hstrip. cbn [negb].
      split; discriminate.
Qed.

End DocxOutcomes.

Lemma load_docx_outcome_witness :
  @_load_docx Z docx_backend minutes_docx empty_world
  = (inr (lit "Minutes" ++ [NL; NL] ++ lit "date" ++ [TAB] ++ lit "place"),
     empty_world)
  /\ Forall (fun part => part <> [] /\ strip part = part)
       (docx_text_parts sample_docx).
Proof.
  destruct (load_docx_outcome docx_backend minutes_docx (bytes_of "PK")
              sample_docx empty_world eq_refl eq_refl eq_refl)
    as (_ & _ & Hparts).
  split; [vm_compute; reflexivity|exact Hparts].
Defined.
